(** * view0x analyzers: incremental analysis, dependency ordering and
      false-positive learning

    A shallow embedding of three analyzers of the Python service
    ([python/analyzers/incremental_analyzer.py], [multi_file_analyzer.py]
    and [false_positive_handler.py]) together with the properties their
    specification states about them and further properties of the code.

    Part I holds the embedding, one module per source class; Part II holds
    the lemmas and theorems. *)

From Stdlib Require Import ZArith QArith Ascii String.
From stdpp Require Import gmap strings list fin_maps pretty.

Set Warnings "-register-all,-clear-no-such-hyp".

Local Open Scope string_scope.
Local Open Scope list_scope.
Local Open Scope nat_scope.

(* ===================================================================== *)
(** * Part I: the embedding                                               *)
(* ===================================================================== *)

(** ** Python values

    The fragment of Python's dynamically typed values that the analyzers
    exchange: [None], booleans, integers, strings, lists and dictionaries
    (insertion-ordered, keyed by hashable scalars).  No stored value is a
    float; the floats that the analyzers compute are given by their value,
    a rational.  An operation applied to a value of the wrong type raises,
    as in Python. *)
Module Py.

Inductive exn : Type :=
  | TypeError
  | AttributeError
  | KeyError
  | IndexError
  | JSONDecodeError
  | ZeroDivisionError
  | OverflowError.

(** The outcome of a call: a value, or an exception that propagates. *)
Inductive result (A : Type) : Type :=
  | Ok (a : A)
  | Raise (e : exn).
Arguments Ok {A} a.
Arguments Raise {A} e.

Definition bind {A B : Type} (r : result A) (f : A → result B) : result B :=
  match r with
  | Ok a => f a
  | Raise e => Raise e
  end.

Global Instance exn_eq_dec : EqDecision exn.
Proof. solve_decision. Defined.

Global Instance result_eq_dec {A : Type} `{EqDecision A} : EqDecision (result A).
Proof. solve_decision. Defined.

Notation "x ←! r ; f" := (bind r (fun x => f))
  (at level 20, r at level 100, f at level 200, right associativity,
   format "'[v' x  ←!  r ; '/' f ']'").

(** Hashable scalars, the keys of dictionaries and members of sets. *)
Inductive key : Type :=
  | KNone
  | KBool (b : bool)
  | KInt (z : Z)
  | KStr (s : string).

Inductive val : Type :=
  | VNone
  | VBool (b : bool)
  | VInt (z : Z)
  | VStr (s : string)
  | VList (l : list val)
  | VDict (d : list (key * val)).

Definition dict : Type := list (key * val).

(** Equality and hash of keys: [True == 1] and [False == 0]. *)
Definition key_num (k : key) : option Z :=
  match k with
  | KBool b => Some (Z.b2z b)
  | KInt z => Some z
  | _ => None
  end.

Definition key_eqb (a b : key) : bool :=
  match a, b with
  | KNone, KNone => true
  | KStr s, KStr t => bool_decide (s = t)
  | _, _ =>
      match key_num a, key_num b with
      | Some x, Some y => bool_decide (x = y)
      | _, _ => false
      end
  end.

Definition val_of_key (k : key) : val :=
  match k with
  | KNone => VNone
  | KBool b => VBool b
  | KInt z => VInt z
  | KStr s => VStr s
  end.

(** [hash(v)]: lists and dictionaries are unhashable. *)
Definition to_key (v : val) : result key :=
  match v with
  | VNone => Ok KNone
  | VBool b => Ok (KBool b)
  | VInt z => Ok (KInt z)
  | VStr s => Ok (KStr s)
  | VList _ | VDict _ => Raise TypeError
  end.

Fixpoint dict_lookup {A : Type} (d : list (key * A)) (k : key) : option A :=
  match d with
  | [] => None
  | (k', v) :: d => if key_eqb k' k then Some v else dict_lookup d k
  end.

(** [d[k] = v]: an existing key keeps its place, a new one goes last. *)
Fixpoint dict_set {A : Type} (d : list (key * A)) (k : key) (v : A)
    : list (key * A) :=
  match d with
  | [] => [(k, v)]
  | (k', v') :: d =>
      if key_eqb k' k then (k', v) :: d else (k', v') :: dict_set d k v
  end.

(** [bool(v)] *)
Definition truthy (v : val) : bool :=
  match v with
  | VNone => false
  | VBool b => b
  | VInt z => negb (Z.eqb z 0)
  | VStr s => negb (bool_decide (s = EmptyString))
  | VList l => negb (bool_decide (length l = 0))
  | VDict d => negb (bool_decide (length d = 0))
  end.

(** [a or b] *)
Definition py_or (a b : val) : val := if truthy a then a else b.

Definition num (v : val) : option Z :=
  match v with
  | VBool b => Some (Z.b2z b)
  | VInt z => Some z
  | _ => None
  end.

(** [a == b]: numbers by value, lists element by element, dictionaries as
    mappings (whatever the order of their keys). *)
Fixpoint py_eq (a b : val) {struct a} : bool :=
  match a, b with
  | VNone, VNone => true
  | VStr s, VStr t => bool_decide (s = t)
  | VList xs, VList ys =>
      (fix go (xs ys : list val) {struct xs} : bool :=
         match xs, ys with
         | [], [] => true
         | x :: xs, y :: ys => py_eq x y && go xs ys
         | _, _ => false
         end) xs ys
  | VDict d1, VDict d2 =>
      bool_decide (length d1 = length d2)
      && (fix go (d : dict) {struct d} : bool :=
            match d with
            | [] => true
            | (k, v) :: d =>
                match dict_lookup d2 k with
                | Some v2 => py_eq v v2 && go d
                | None => false
                end
            end) d1
  | (VBool _ | VInt _), (VBool _ | VInt _) =>
      match num a, num b with
      | Some x, Some y => bool_decide (x = y)
      | _, _ => false
      end
  | _, _ => false
  end.

(** [v.get(k, default)]: only dictionaries have the method. *)
Definition get (v : val) (k : string) (dflt : val) : result val :=
  match v with
  | VDict d => Ok (default dflt (dict_lookup d (KStr k)))
  | _ => Raise AttributeError
  end.

(** [for x in v]: the values a loop over [v] visits. *)
Definition iter (v : val) : result (list val) :=
  match v with
  | VList l => Ok l
  | VDict d => Ok (val_of_key <$> d.*1)
  | VStr s => Ok ((fun a => VStr (String a EmptyString)) <$> String.list_ascii_of_string s)
  | VNone | VBool _ | VInt _ => Raise TypeError
  end.

(** [set(l)] then [list(...)]: the members once each; a list or dictionary
    among them raises [TypeError] (unhashable type).  Python leaves the
    order of a set unspecified; the model keeps first occurrences. *)
Fixpoint set_of_list (l : list val) (seen : list key) : result (list val) :=
  match l with
  | [] => Ok []
  | v :: l =>
      bind (to_key v) (fun k =>
        if existsb (key_eqb k) seen then set_of_list l seen
        else bind (set_of_list l (k :: seen)) (fun rest => Ok (v :: rest)))
  end.

(** [x in v] *)
Definition contains (v x : val) : result bool :=
  match v with
  | VDict d => k ←! to_key x; Ok (bool_decide (is_Some (dict_lookup d k)))
  | VList l => Ok (existsb (py_eq x) l)
  | VStr s =>
      match x with
      | VStr t => Ok (bool_decide (is_Some (String.index 0 t s)))
      | _ => Raise TypeError
      end
  | VNone | VBool _ | VInt _ => Raise TypeError
  end.

(** A list index: [None] when out of range; negative indices count from
    the end. *)
Definition list_index (len : nat) (z : Z) : option nat :=
  let z' := if bool_decide (z < 0)%Z then (z + Z.of_nat len)%Z else z in
  if bool_decide (0 ≤ z')%Z && bool_decide (z' < Z.of_nat len)%Z
  then Some (Z.to_nat z') else None.

(** [v[x]] *)
Definition getitem (v x : val) : result val :=
  match v with
  | VDict d =>
      k ←! to_key x;
      match dict_lookup d k with
      | Some w => Ok w
      | None => Raise KeyError
      end
  | VList l =>
      match num x with
      | Some z =>
          match list_index (length l) z with
          | Some i => match l !! i with Some w => Ok w | None => Raise IndexError end
          | None => Raise IndexError
          end
      | None => Raise TypeError
      end
  | VStr s =>
      match num x with
      | Some z =>
          match list_index (String.length s) z with
          | Some i =>
              match String.get i s with
              | Some a => Ok (VStr (String a EmptyString))
              | None => Raise IndexError
              end
          | None => Raise IndexError
          end
      | None => Raise TypeError
      end
  | VNone | VBool _ | VInt _ => Raise TypeError
  end.

(** [v[x] = w], giving the updated container. *)
Definition setitem (v x w : val) : result val :=
  match v with
  | VDict d => k ←! to_key x; Ok (VDict (dict_set d k w))
  | VList l =>
      match num x with
      | Some z =>
          match list_index (length l) z with
          | Some i => Ok (VList (<[i := w]> l))
          | None => Raise IndexError
          end
      | None => Raise TypeError
      end
  | VStr _ | VNone | VBool _ | VInt _ => Raise TypeError
  end.

(** [v + 1], as in [v += 1] *)
Definition add_one (v : val) : result val :=
  match num v with
  | Some z => Ok (VInt (z + 1))
  | None => Raise TypeError
  end.

(** [v.append(w)], giving the updated list. *)
Definition append (v w : val) : result val :=
  match v with
  | VList l => Ok (VList (l ++ [w]))
  | _ => Raise AttributeError
  end.

(** [v >= n] for an int [n]: an order only between numbers. *)
Definition ge_int (v : val) (n : Z) : result bool :=
  match num v with
  | Some z => Ok (bool_decide (n ≤ z)%Z)
  | None => Raise TypeError
  end.

(** *** Floats

    A Python float is an IEEE 754 double.  A finite double is a multiple of
    [2 ^ -1074] with at most 53 significant bits and is below [2 ^ 1024] in
    absolute value; it is given here by its value.  Comparisons of doubles
    are comparisons of their values. *)

(** [n / d] rounded to the nearest integer, a tie to the even one, for
    [0 ≤ n] and [0 < d]. *)
Definition round_half_even (n d : Z) : Z :=
  let q := (n / d)%Z in
  let r := (n mod d)%Z in
  if (2 * r <? d)%Z then q
  else if (2 * r =? d)%Z then (if Z.even q then q else q + 1)%Z
  else (q + 1)%Z.

(** The double nearest to [a / b] in units of [2 ^ -1074], for [0 ≤ a] and
    [0 < b]: of the quotient in these units the 53 leading bits are kept
    and [drop] bits are rounded away. *)
Definition double_units (a b : Z) : Z :=
  let n := (a * 2 ^ 1074)%Z in
  let drop := Z.max (Z.log2 (n / b) - 52) 0 in
  (round_half_even n (b * 2 ^ drop) * 2 ^ drop)%Z.

(** [a / b] on ints: the quotient rounded to the nearest double;
    [ZeroDivisionError] for [b = 0], [OverflowError] when the rounded
    quotient is not below [2 ^ 1024]. *)
Definition true_div (a b : Z) : result Q :=
  if (b =? 0)%Z then Raise ZeroDivisionError
  else
    let units := double_units (Z.abs a) (Z.abs b) in
    if (2 ^ 2098 <=? units)%Z then Raise OverflowError
    else Ok (Qmake (Z.sgn a * Z.sgn b * units) (2 ^ 1074)%positive).

(** [str(v)], as an f-string formats a value.  The [repr] of lists and
    dictionaries is left to the parameter [repr]. *)
Definition str (repr : val → string) (v : val) : string :=
  match v with
  | VNone => "None"
  | VBool true => "True"
  | VBool false => "False"
  | VInt z => pretty z
  | VStr s => s
  | VList _ | VDict _ => repr v
  end.

End Py.

Notation "x ←! r ; f" := (Py.bind r (fun x => f))
  (at level 20, r at level 100, f at level 200, right associativity,
   format "'[v' x  ←!  r ; '/' f ']'").

(** ** A JSON printer and parser

    [dumps] and [loads] follow [json.dumps(data, indent=2)] and [json.loads]
    on text without floats.  A string is read as its sequence of code
    points, all below 256; [dumps] writes every character outside the
    printable ASCII range as an escape (the default [ensure_ascii]), and
    [loads] does not read an escape of a code point of 256 or more. *)
Module Json.
Import Py.

Definition dquote : ascii := "034"%char.
Definition backslash : ascii := "092"%char.

Definition hex4 (n : nat) : string :=
  let digit (k : nat) : string :=
    match String.get (k mod 16) "0123456789abcdef" with
    | Some a => String a EmptyString
    | None => EmptyString
    end in
  digit (n / 4096) +:+ digit (n / 256) +:+ digit (n / 16) +:+ digit n.

Fixpoint escape (s : string) : string :=
  match s with
  | EmptyString => EmptyString
  | String a s =>
      let n := nat_of_ascii a in
      (if bool_decide (n = 34) then String backslash (String dquote EmptyString)
       else if bool_decide (n = 92) then String backslash (String backslash EmptyString)
       else if bool_decide (n = 10) then String backslash "n"
       else if bool_decide (n = 13) then String backslash "r"
       else if bool_decide (n = 9) then String backslash "t"
       else if bool_decide (n = 8) then String backslash "b"
       else if bool_decide (n = 12) then String backslash "f"
       else if bool_decide (n < 32) || bool_decide (127 ≤ n)
       then String backslash ("u" +:+ hex4 n)
       else String a EmptyString) +:+ escape s
  end.

Definition quote (s : string) : string :=
  String dquote (escape s +:+ String dquote EmptyString).

(** A key of an object is written as a string. *)
Definition key_text (k : key) : string :=
  match k with
  | KNone => "null"
  | KBool true => "true"
  | KBool false => "false"
  | KInt z => pretty z
  | KStr s => s
  end.

Definition newline (level : nat) : string :=
  String "010"%char (String.concat EmptyString (replicate (2 * level) " ")).

Fixpoint dumps_at (level : nat) (v : val) {struct v} : string :=
  match v with
  | VNone => "null"
  | VBool true => "true"
  | VBool false => "false"
  | VInt z => pretty z
  | VStr s => quote s
  | VList [] => "[]"
  | VList l =>
      "[" +:+ newline (S level)
      +:+ String.concat ("," +:+ newline (S level)) (map (dumps_at (S level)) l)
      +:+ newline level +:+ "]"
  | VDict [] => "{}"
  | VDict d =>
      "{" +:+ newline (S level)
      +:+ String.concat ("," +:+ newline (S level))
            (map (fun kv => let '(k, w) := kv in
                            quote (key_text k) +:+ ": " +:+ dumps_at (S level) w) d)
      +:+ newline level +:+ "}"
  end.

Definition dumps (v : val) : string := dumps_at 0 v.

Definition is_ws (a : ascii) : bool :=
  let n := nat_of_ascii a in
  bool_decide (n = 32) || bool_decide (n = 10) || bool_decide (n = 13)
  || bool_decide (n = 9).

Fixpoint skip_ws (s : list ascii) : list ascii :=
  match s with
  | a :: r => if is_ws a then skip_ws r else s
  | [] => []
  end.

Definition digit_of (a : ascii) : option Z :=
  let n := nat_of_ascii a in
  if bool_decide (48 ≤ n) && bool_decide (n ≤ 57) then Some (Z.of_nat (n - 48))
  else None.

Fixpoint digits (s : list ascii) (acc : Z) : Z * list ascii :=
  match s with
  | a :: r =>
      match digit_of a with
      | Some d => digits r (10 * acc + d)
      | None => (acc, s)
      end
  | [] => (acc, [])
  end.

(** An integer literal; a fraction or an exponent is not read. *)
Definition parse_int (s : list ascii) : option (Z * list ascii) :=
  let '(neg, s) :=
    match s with
    | "-"%char :: r => (true, r)
    | _ => (false, s)
    end in
  match s with
  | a :: r =>
      match digit_of a with
      | Some d =>
          let '(z, rest) := if bool_decide (d = 0%Z) then (0%Z, r) else digits r d in
          match rest with
          | "."%char :: _ | "e"%char :: _ | "E"%char :: _ => None
          | _ => Some (if neg then (- z)%Z else z, rest)
          end
      | None => None
      end
  | [] => None
  end.

Definition hex_of (a : ascii) : option nat :=
  let n := nat_of_ascii a in
  if bool_decide (48 ≤ n) && bool_decide (n ≤ 57) then Some (n - 48)
  else if bool_decide (97 ≤ n) && bool_decide (n ≤ 102) then Some (n - 87)
  else if bool_decide (65 ≤ n) && bool_decide (n ≤ 70) then Some (n - 55)
  else None.

(** The text of a string literal after its opening quote. *)
Fixpoint parse_string (s : list ascii) : option (string * list ascii) :=
  match s with
  | [] => None
  | a :: r =>
      if bool_decide (a = dquote) then Some (EmptyString, r)
      else if bool_decide (a = backslash) then
        match r with
        | e :: r' =>
            let plain (c : ascii) :=
              match parse_string r' with
              | Some (t, rest) => Some (String c t, rest)
              | None => None
              end in
            if bool_decide (e = dquote) then plain dquote
            else if bool_decide (e = backslash) then plain backslash
            else match e with
                 | "/"%char => plain "/"%char
                 | "n"%char => plain "010"%char
                 | "r"%char => plain "013"%char
                 | "t"%char => plain "009"%char
                 | "b"%char => plain "008"%char
                 | "f"%char => plain "012"%char
                 | "u"%char =>
                     match r' with
                     | h1 :: h2 :: h3 :: h4 :: r'' =>
                         match hex_of h1, hex_of h2, hex_of h3, hex_of h4 with
                         | Some 0, Some 0, Some x, Some y =>
                             match parse_string r'' with
                             | Some (t, rest) =>
                                 Some (String (ascii_of_nat (16 * x + y)) t, rest)
                             | None => None
                             end
                         | _, _, _, _ => None
                         end
                     | _ => None
                     end
                 | _ => None
                 end
        | [] => None
        end
      else if bool_decide (nat_of_ascii a < 32) then None
      else match parse_string r with
           | Some (t, rest) => Some (String a t, rest)
           | None => None
           end
  end.

Fixpoint expect (word s : list ascii) : option (list ascii) :=
  match word, s with
  | [], _ => Some s
  | w :: word, a :: s => if bool_decide (w = a) then expect word s else None
  | _ :: _, [] => None
  end.

(** The elements of an array that is not empty, after its opening
    bracket, and the members of such an object: [parse] reads one value and
    [n] bounds their number. *)
Fixpoint parse_items (parse : list ascii → option (val * list ascii))
    (n : nat) (r : list ascii) (acc : list val) : option (val * list ascii) :=
  match n with
  | O => None
  | S n =>
      match parse r with
      | Some (v, r1) =>
          match skip_ws r1 with
          | ","%char :: r2 => parse_items parse n r2 (acc ++ [v])
          | "]"%char :: r2 => Some (VList (acc ++ [v]), r2)
          | _ => None
          end
      | None => None
      end
  end.

Fixpoint parse_members (parse : list ascii → option (val * list ascii))
    (n : nat) (r : list ascii) (acc : dict) : option (val * list ascii) :=
  match n with
  | O => None
  | S n =>
      match skip_ws r with
      | q :: r0 =>
          if bool_decide (q = dquote) then
            match parse_string r0 with
            | Some (k, r1) =>
                match skip_ws r1 with
                | ":"%char :: r2 =>
                    match parse r2 with
                    | Some (v, r3) =>
                        let acc := dict_set acc (KStr k) v in
                        match skip_ws r3 with
                        | ","%char :: r4 => parse_members parse n r4 acc
                        | "}"%char :: r4 => Some (VDict acc, r4)
                        | _ => None
                        end
                    | None => None
                    end
                | _ => None
                end
            | None => None
            end
          else None
      | [] => None
      end
  end.

Fixpoint parse_value (fuel : nat) (s : list ascii) : option (val * list ascii) :=
  match fuel with
  | O => None
  | S fuel =>
      match skip_ws s with
      | [] => None
      | a :: r =>
          if bool_decide (a = dquote) then
            match parse_string r with
            | Some (t, rest) => Some (VStr t, rest)
            | None => None
            end
          else match a with
          | "n"%char => rest ← expect (list_ascii_of_string "ull") r; Some (VNone, rest)
          | "t"%char => rest ← expect (list_ascii_of_string "rue") r; Some (VBool true, rest)
          | "f"%char => rest ← expect (list_ascii_of_string "alse") r; Some (VBool false, rest)
          | "["%char =>
              match skip_ws r with
              | "]"%char :: rest => Some (VList [], rest)
              | _ => parse_items (parse_value fuel) fuel r []
              end
          | "{"%char =>
              match skip_ws r with
              | "}"%char :: rest => Some (VDict [], rest)
              | _ => parse_members (parse_value fuel) fuel r []
              end
          | _ =>
              match parse_int (a :: r) with
              | Some (z, rest) => Some (VInt z, rest)
              | None => None
              end
          end
      end
  end.

Definition loads (s : string) : result val :=
  let text := list_ascii_of_string s in
  match parse_value (S (length text)) text with
  | Some (v, rest) =>
      match skip_ws rest with
      | [] => Ok v
      | _ => Raise JSONDecodeError
      end
  | None => Raise JSONDecodeError
  end.

End Json.

(** ** [hashlib.md5(...).hexdigest()]

    The per-line digest of the change-set computation, over the bytes of a
    line (RFC 1321; a Rocq [string] is the UTF-8 byte sequence that
    [line.encode()] produces).  32-bit words are [Z] with the wrap-around
    written out. *)
Module Md5.

Definition mask32 (x : Z) : Z := Z.land x 4294967295%Z.

Definition not32 (x : Z) : Z := Z.lxor x 4294967295%Z.

Definition rotl32 (x c : Z) : Z :=
  mask32 (Z.lor (Z.shiftl x c) (Z.shiftr x (32 - c))).

Definition K : list Z :=
  [ 3614090360; 3905402710; 606105819; 3250441966; 4118548399; 1200080426;
    2821735955; 4249261313; 1770035416; 2336552879; 4294925233; 2304563134;
    1804603682; 4254626195; 2792965006; 1236535329; 4129170786; 3225465664;
    643717713; 3921069994; 3593408605; 38016083; 3634488961; 3889429448;
    568446438; 3275163606; 4107603335; 1163531501; 2850285829; 4243563512;
    1735328473; 2368359562; 4294588738; 2272392833; 1839030562; 4259657740;
    2763975236; 1272893353; 4139469664; 3200236656; 681279174; 3936430074;
    3572445317; 76029189; 3654602809; 3873151461; 530742520; 3299628645;
    4096336452; 1126891415; 2878612391; 4237533241; 1700485571; 2399980690;
    4293915773; 2240044497; 1873313359; 4264355552; 2734768916; 1309151649;
    4149444226; 3174756917; 718787259; 3951481745 ]%Z.

Definition shifts : list Z :=
  [ 7; 12; 17; 22; 7; 12; 17; 22; 7; 12; 17; 22; 7; 12; 17; 22;
    5; 9; 14; 20; 5; 9; 14; 20; 5; 9; 14; 20; 5; 9; 14; 20;
    4; 11; 16; 23; 4; 11; 16; 23; 4; 11; 16; 23; 4; 11; 16; 23;
    6; 10; 15; 21; 6; 10; 15; 21; 6; 10; 15; 21; 6; 10; 15; 21 ]%Z.

Definition bytes_of_string (s : string) : list Z :=
  (fun a => Z.of_nat (Ascii.nat_of_ascii a)) <$> String.list_ascii_of_string s.

(** The [n] low bytes of [x], least significant first. *)
Definition le_bytes (n : nat) (x : Z) : list Z :=
  (fun k => Z.land (Z.shiftr x (8 * Z.of_nat k)) 255%Z) <$> seq 0 n.

Definition word_le (bs : list Z) : Z :=
  foldr (fun b acc => (b + 256 * acc)%Z) 0%Z bs.

Definition pad (msg : list Z) : list Z :=
  let len := length msg in
  msg ++ [128%Z] ++ replicate ((119 - len mod 64) mod 64) 0%Z
      ++ le_bytes 8 (8 * Z.of_nat len).

Fixpoint group (k fuel : nat) (l : list Z) : list (list Z) :=
  match fuel with
  | O => []
  | S fuel' =>
      match l with
      | [] => []
      | _ => take k l :: group k fuel' (drop k l)
      end
  end.

Definition round (M : list Z) (st : Z * Z * Z * Z) (i : nat) : Z * Z * Z * Z :=
  let '(a, b, c, d) := st in
  let '(f, g) :=
    if i <? 16 then (Z.lor (Z.land b c) (Z.land (not32 b) d), i)
    else if i <? 32 then (Z.lor (Z.land d b) (Z.land (not32 d) c), (5 * i + 1) mod 16)
    else if i <? 48 then (Z.lxor (Z.lxor b c) d, (3 * i + 5) mod 16)
    else (Z.lxor c (Z.lor b (not32 d)), (7 * i) mod 16) in
  let f' := mask32 (f + a + K !!! i + M !!! g) in
  (d, mask32 (b + rotl32 f' (shifts !!! i)), b, c).

Definition process_chunk (st : Z * Z * Z * Z) (chunk : list Z) : Z * Z * Z * Z :=
  let M := word_le <$> group 4 16 chunk in
  let '(a0, b0, c0, d0) := st in
  let '(a, b, c, d) := foldl (round M) st (seq 0 64) in
  (mask32 (a0 + a), mask32 (b0 + b), mask32 (c0 + c), mask32 (d0 + d)).

Definition hex_digit (n : Z) : string :=
  match String.get (Z.to_nat n) "0123456789abcdef" with
  | Some a => String a EmptyString
  | None => EmptyString
  end.

Definition hex_byte (b : Z) : string :=
  hex_digit (Z.shiftr b 4) +:+ hex_digit (Z.land b 15%Z).

Definition hexdigest (s : string) : string :=
  let msg := pad (bytes_of_string s) in
  let '(a, b, c, d) :=
    foldl process_chunk
      (1732584193, 4023233417, 2562383102, 271733878)%Z
      (group 64 (length msg) msg) in
  String.concat EmptyString
    (hex_byte <$> (le_bytes 4 a ++ le_bytes 4 b ++ le_bytes 4 c ++ le_bytes 4 d)).

End Md5.

(** ** [incremental_analyzer.py]: the change set of two revisions *)
Module IncrementalAnalyzer.

(** [ChangeSet]: three sets of 1-indexed line numbers and the list of
    unchanged regions [(start_line, end_line)], both ends included. *)
Record ChangeSet := mkChangeSet {
  added_lines : gset nat;
  modified_lines : gset nat;
  removed_lines : gset nat;
  unchanged_regions : list (nat * nat)
}.

(** [code.split('\n')]: never empty, the empty text is one empty line. *)
Fixpoint split_lines (s : string) : list string :=
  match s with
  | EmptyString => [EmptyString]
  | String a rest =>
      if Ascii.eqb a "010"%char then EmptyString :: split_lines rest
      else match split_lines rest with
           | [] => [String a EmptyString]
           | l :: ls => String a l :: ls
           end
  end.

Definition line_hashes (lines : list string) : list string :=
  Md5.hexdigest <$> lines.

(** "Find common lines": the first loop fills a local set that the rest of
    the function never reads. *)
Definition common_lines (old_hashes new_hashes : list string) : gset nat :=
  foldl (fun common i =>
           if decide (old_hashes !!! i ∈ new_hashes) then {[i + 1]} ∪ common
           else common)
        ∅ (seq 0 (length old_hashes)).

(** "Identify changes": one pass of the loop over [enumerate(new_lines)];
    the state is [(added_lines, modified_lines)]. *)
Definition classify_line (old_hashes new_hashes : list string)
    (st : gset nat * gset nat) (i : nat) : gset nat * gset nat :=
  let '(added, modified) := st in
  let line_num := i + 1 in
  if decide (i < length old_hashes) then
    let old_hash := old_hashes !!! i in
    let new_hash := new_hashes !!! i in
    if decide (old_hash ≠ new_hash) then
      if decide (old_hash ∈ new_hashes) then (added, {[line_num]} ∪ modified)
      else ({[line_num]} ∪ added, modified)
    else st
  else ({[line_num]} ∪ added, modified).

(** "Find removed lines": one pass of the loop over [enumerate(old_lines)]. *)
Definition mark_removed (old_hashes new_hashes : list string)
    (removed : gset nat) (i : nat) : gset nat :=
  let line_num := i + 1 in
  if decide (length new_hashes ≤ i ∨ old_hashes !!! i ∉ new_hashes)
  then {[line_num]} ∪ removed
  else removed.

(** The test of the [if] in "Find unchanged regions", which starts a region
    at index [i] of the old revision: line [i + 1] is not removed, and the
    new revision ends before index [i] or has the same digest there. *)
Definition unchanged_at (old_hashes new_hashes : list string)
    (removed : gset nat) (i : nat) : bool :=
  bool_decide (i + 1 ∉ removed)
  && (bool_decide (length new_hashes ≤ i)
      || bool_decide (new_hashes !!! i = old_hashes !!! i)).

(** The test of the inner [while], which extends the region from index [i]
    to index [i + 1].  The digests compared are those of index [i + 1]; the
    line number looked up in [removed_lines] is [i + 1] as well, which is
    the number of the line at index [i], the one the region already ends
    with. *)
Definition extends_at (old_hashes new_hashes : list string)
    (removed : gset nat) (i : nat) : bool :=
  bool_decide (i + 1 < length old_hashes)
  && (bool_decide (i + 1 ∉ removed)
      && (bool_decide (length new_hashes ≤ i + 1)
          || bool_decide (new_hashes !!! (i + 1) = old_hashes !!! (i + 1)))).

(** The inner [while]: starting from [(i, end)], advance while its test
    holds.  [None] when the fuel runs out. *)
Fixpoint extend_region (old_hashes new_hashes : list string) (removed : gset nat)
    (fuel i end_ : nat) : option (nat * nat) :=
  match fuel with
  | O => None
  | S fuel' =>
      if extends_at old_hashes new_hashes removed i
      then extend_region old_hashes new_hashes removed fuel' (i + 1) (i + 1 + 1)
      else Some (i, end_)
  end.

(** The outer [while i < len(old_lines)]. *)
Fixpoint scan_regions (old_hashes new_hashes : list string) (removed : gset nat)
    (fuel i : nat) (regions : list (nat * nat)) : option (list (nat * nat)) :=
  match fuel with
  | O => None
  | S fuel' =>
      if bool_decide (i < length old_hashes) then
        if unchanged_at old_hashes new_hashes removed i then
          let start := i + 1 in
          match extend_region old_hashes new_hashes removed
                  (S (length old_hashes)) i (i + 1) with
          | None => None
          | Some (i', end_) =>
              let regions' :=
                if bool_decide (start ≤ end_) then regions ++ [(start, end_)]
                else regions in
              scan_regions old_hashes new_hashes removed fuel' (i' + 1) regions'
          end
        else scan_regions old_hashes new_hashes removed fuel' (i + 1) regions
      else Some regions
  end.

(** [compute_changeset(old_code, new_code)].  The fuel of the outer loop is
    one more than the number of old lines; [compute_changeset_char] shows
    that it never runs out. *)
Definition compute_changeset (old_code new_code : string) : option ChangeSet :=
  let old_lines := split_lines old_code in
  let new_lines := split_lines new_code in
  let old_hashes := line_hashes old_lines in
  let new_hashes := line_hashes new_lines in
  let '(added, modified) :=
    foldl (classify_line old_hashes new_hashes) (∅, ∅) (seq 0 (length new_lines)) in
  let removed :=
    foldl (mark_removed old_hashes new_hashes) ∅ (seq 0 (length old_lines)) in
  regions ← scan_regions old_hashes new_hashes removed
               (S (length old_lines)) 0 [];
  Some (mkChangeSet added modified removed regions).

(** A line number lies in one of the regions. *)
Definition in_region (n : nat) (r : nat * nat) : Prop := r.1 ≤ n ≤ r.2.

(** *** Affected issues and merged reports

    Issues are dictionaries ([Dict[str, Any]]); the reports hold lists of
    them under ["vulnerabilities"], ["gasOptimizations"] and
    ["codeQuality"]. *)

(** [issue_line in changed_lines], a set of ints: hashes [issue_line]. *)
Definition in_lines (issue_line : Py.val) (changed_lines : gset nat) : Py.result bool :=
  k ←! Py.to_key issue_line;
  Py.Ok match Py.key_num k with
        | Some z => bool_decide (0 ≤ z)%Z && bool_decide (Z.to_nat z ∈ changed_lines)
        | None => false
        end.

(** The loop [for changed_line in changed_lines] with its [break]: is some
    changed line within 20 lines?  [issue_line - changed_line] raises for a
    string as soon as the loop body runs once. *)
Definition near_change (issue_line : Py.val) (changed_lines : gset nat) : Py.result bool :=
  if decide (changed_lines = ∅) then Py.Ok false
  else match Py.num issue_line with
       | Some z =>
           Py.Ok (bool_decide
                    (set_Exists (fun c => (Z.abs (z - Z.of_nat c) ≤ 20)%Z) changed_lines))
       | None => Py.Raise Py.TypeError
       end.

(** One pass of the loop of [filter_affected_issues]. *)
Definition filter_affected_step (changed_lines : gset nat)
    (affected : list Py.val) (issue : Py.val) : Py.result (list Py.val) :=
  location ←! Py.get issue "location" (Py.VDict []);
  line ←! Py.get location "line" Py.VNone;
  issue_line ←! (if Py.truthy line then Py.Ok line
                 else Py.get issue "lineNumber" Py.VNone);
  if Py.truthy issue_line then
    hit ←! in_lines issue_line changed_lines;
    if hit then Py.Ok (affected ++ [issue])
    else
      near ←! near_change issue_line changed_lines;
      Py.Ok (if near then affected ++ [issue] else affected)
  else Py.Ok (affected ++ [issue]).

Fixpoint filter_affected_loop (changed_lines : gset nat)
    (affected : list Py.val) (issues : list Py.val) : Py.result (list Py.val) :=
  match issues with
  | [] => Py.Ok affected
  | issue :: issues =>
      affected ←! filter_affected_step changed_lines affected issue;
      filter_affected_loop changed_lines affected issues
  end.

(** [filter_affected_issues(issues, changeset)] *)
Definition filter_affected_issues (issues : Py.val) (changeset : ChangeSet)
    : Py.result (list Py.val) :=
  let changed_lines :=
    added_lines changeset ∪ modified_lines changeset ∪ removed_lines changeset in
  issues ←! Py.iter issues;
  filter_affected_loop changed_lines [] issues.

(** [d.get(k, [])] on a report. *)
Definition get_list (d : Py.dict) (k : string) : Py.val :=
  default (Py.VList []) (Py.dict_lookup d (Py.KStr k)).

(** [list(set(cached + fresh))]: [+] needs a list on the right. *)
Definition merge_lists (cached : list Py.val) (fresh : Py.val) : Py.result (list Py.val) :=
  match fresh with
  | Py.VList l => Py.set_of_list (cached ++ l) []
  | _ => Py.Raise Py.TypeError
  end.

(** [sum(1 for v in vulnerabilities if v.get("severity") == severity)] *)
Fixpoint count_severity (severity : string) (vs : list Py.val) : Py.result Z :=
  match vs with
  | [] => Py.Ok 0%Z
  | v :: vs =>
      s ←! Py.get v "severity" Py.VNone;
      n ←! count_severity severity vs;
      Py.Ok (if Py.py_eq s (Py.VStr severity) then (1 + n)%Z else n)
  end.

(** [merge_analysis_results(cached_result, new_result, changeset)].  The
    dictionary under ["metadata"] is the one of [new_result], updated in
    place. *)
Definition merge_analysis_results (cached_result new_result : Py.dict)
    (changeset : ChangeSet) : Py.result Py.dict :=
  cached_vulns ←! filter_affected_issues (get_list cached_result "vulnerabilities") changeset;
  cached_gas ←! filter_affected_issues (get_list cached_result "gasOptimizations") changeset;
  cached_quality ←! filter_affected_issues (get_list cached_result "codeQuality") changeset;
  vulnerabilities ←! merge_lists cached_vulns (get_list new_result "vulnerabilities");
  gas ←! merge_lists cached_gas (get_list new_result "gasOptimizations");
  quality ←! merge_lists cached_quality (get_list new_result "codeQuality");
  high ←! count_severity "HIGH" vulnerabilities;
  medium ←! count_severity "MEDIUM" vulnerabilities;
  low ←! count_severity "LOW" vulnerabilities;
  let summary :=
    [ (Py.KStr "totalVulnerabilities", Py.VInt (Z.of_nat (length vulnerabilities)));
      (Py.KStr "highSeverity", Py.VInt high);
      (Py.KStr "mediumSeverity", Py.VInt medium);
      (Py.KStr "lowSeverity", Py.VInt low);
      (Py.KStr "gasOptimizations", Py.VInt (Z.of_nat (length gas)));
      (Py.KStr "codeQualityIssues", Py.VInt (Z.of_nat (length quality))) ] in
  match default (Py.VDict []) (Py.dict_lookup new_result (Py.KStr "metadata")) with
  | Py.VDict metadata =>
      let metadata := Py.dict_set metadata (Py.KStr "incremental") (Py.VBool true) in
      let metadata :=
        Py.dict_set metadata (Py.KStr "changeset")
          (Py.VDict
             [ (Py.KStr "added", Py.VInt (Z.of_nat (size (added_lines changeset))));
               (Py.KStr "modified", Py.VInt (Z.of_nat (size (modified_lines changeset))));
               (Py.KStr "removed", Py.VInt (Z.of_nat (size (removed_lines changeset)))) ]) in
      Py.Ok [ (Py.KStr "summary", Py.VDict summary);
              (Py.KStr "vulnerabilities", Py.VList vulnerabilities);
              (Py.KStr "gasOptimizations", Py.VList gas);
              (Py.KStr "codeQuality", Py.VList quality);
              (Py.KStr "metadata", Py.VDict metadata) ]
  | _ => Py.Raise Py.TypeError
  end.

(** *** Choosing between incremental and full analysis *)

(** [should_analyze_incrementally(old_code, new_code)]: [old_code] is
    [None] or a string.  The quotient of the two ints is compared with 0.5
    in exact arithmetic (the float of the source is the quotient rounded to
    53 bits, which compares with 0.5 in the same way for any text of fewer
    than 2^53 lines). *)
Definition should_analyze_incrementally (old_code : option string)
    (new_code : string) : option bool :=
  match old_code with
  | None => Some false
  | Some old_code =>
      if bool_decide (old_code = EmptyString) then Some false
      else
        changeset ← compute_changeset old_code new_code;
        let total_changes :=
          size (added_lines changeset) + size (modified_lines changeset)
          + size (removed_lines changeset) in
        let total_lines :=
          length (split_lines old_code) `max` length (split_lines new_code) in
        let change_ratio :=
          if bool_decide (0 < total_lines)
          then Qmake (Z.of_nat total_changes) (Pos.of_nat total_lines)
          else 1%Q in
        Some (negb (Qle_bool (1 # 2) change_ratio))
  end.

End IncrementalAnalyzer.

(** ** [multi_file_analyzer.py]: ordering files by their imports *)
Module MultiFileAnalyzer.

(** The dependency graph [Dict[str, List[str]]], in insertion order: a file
    name with the import paths of that file.  An edge [u → v] says that
    [u] imports (depends on) [v]. *)
Definition Graph := list (string * list string).

(** [graph.get(node, [])] *)
Definition neighbors (graph : Graph) (node : string) : list string :=
  match list_find (fun kv => kv.1 = node) graph with
  | Some (_, (_, ns)) => ns
  | None => []
  end.

(** [in_degree[k]] of the [defaultdict(int)], and [in_degree.get(k, 0)]. *)
Definition degree (in_degree : gmap string Z) (k : string) : Z :=
  default 0%Z (in_degree !! k).

(** The two loops that fill [in_degree]. *)
Definition count_in_degrees (graph : Graph) : gmap string Z :=
  let zeroed := foldl (fun m kv => <[kv.1 := 0%Z]> m) ∅ graph in
  foldl (fun m kv =>
           foldl (fun m neighbor => <[neighbor := (degree m neighbor + 1)%Z]> m)
                 m (neighbors graph kv.1))
        zeroed graph.

(** One pass of "Remove edges from this node"; the state is
    [(in_degree, queue)]. *)
Definition relax (st : gmap string Z * list string) (neighbor : string)
    : gmap string Z * list string :=
  let '(in_degree, queue) := st in
  let in_degree := <[neighbor := (degree in_degree neighbor - 1)%Z]> in_degree in
  if decide (degree in_degree neighbor = 0%Z) then (in_degree, queue ++ [neighbor])
  else (in_degree, queue).

(** [while queue: ...]; [None] when the fuel runs out. *)
Fixpoint drain (graph : Graph) (fuel : nat) (in_degree : gmap string Z)
    (queue result : list string) : option (list string) :=
  match fuel with
  | O => None
  | S fuel' =>
      match queue with
      | [] => Some result
      | node :: queue =>
          let result := result ++ [node] in
          let '(in_degree, queue) :=
            foldl relax (in_degree, queue) (neighbors graph node) in
          drain graph fuel' in_degree queue result
      end
  end.

(** "Add remaining nodes (circular dependencies)". *)
Definition add_remaining (graph : Graph) (result : list string) : list string :=
  foldl (fun result kv =>
           if decide (kv.1 ∈ result) then result else result ++ [kv.1])
        result graph.

(** [topological_sort(graph)].  Every pass of the [while] loop moves one
    more name into [result], so one more pass than there are names in
    [in_degree] is enough fuel ([topological_sort_total]). *)
Definition topological_sort (graph : Graph) : option (list string) :=
  let in_degree := count_in_degrees graph in
  let queue := filter (fun node => degree in_degree node = 0%Z) graph.*1 in
  result ← drain graph (S (size in_degree)) in_degree queue [];
  Some (add_remaining graph result).

(** [u] imports [v]. *)
Definition edge (graph : Graph) (u v : string) : Prop :=
  ∃ ns, (u, ns) ∈ graph ∧ v ∈ ns.

Definition acyclic (graph : Graph) : Prop :=
  ∀ u, ¬ tc (edge graph) u u.

(** [u] stands before [v] in [order]. *)
Definition before (order : list string) (u v : string) : Prop :=
  ∃ i j, order !! i = Some u ∧ order !! j = Some v ∧ i < j.

(** *** Building the graph and merging the files *)

(** One element of the list [extract_imports] returns: the dictionary with
    the keys ["path"], ["alias"], ["line"] and ["statement"]. *)
Record ImportStatement := mkImport {
  path : string;
  alias : option string;
  line : nat;
  statement : string
}.

(** The state of the analyzer: [import_cache] and [file_map]. *)
Record Analyzer := mkAnalyzer {
  import_cache : list (string * string);
  file_map : list (string * string)
}.

(** [files[name]] and [name in files], for [files: Dict[str, str]] in
    insertion order. *)
Definition lookup_file (files : list (string * string)) (name : string)
    : option string :=
  match list_find (fun kv => kv.1 = name) files with
  | Some (_, (_, content)) => Some content
  | None => None
  end.

(** [graph[filename]] of the [defaultdict(list)]: reading a missing key
    inserts it with the empty list. *)
Definition touch (graph : Graph) (filename : string) : Graph :=
  if decide (filename ∈ graph.*1) then graph else graph ++ [(filename, [])].

(** [graph[filename].append(import_path)] *)
Definition append_import (graph : Graph) (filename import_path : string) : Graph :=
  (fun kv => if decide (kv.1 = filename) then (kv.1, kv.2 ++ [import_path]) else kv)
    <$> graph.

(** One pass of the inner loop of [build_dependency_graph]. *)
Definition add_import (graph : Graph) (filename import_path : string) : Graph :=
  let graph := touch graph filename in
  if decide (import_path ∈ neighbors graph filename) then graph
  else append_import graph filename import_path.

Definition nl : string := String "010" EmptyString.

(** The three f-strings of [merge_files]. *)
Definition imported_block (import_path content : string) : string :=
  nl +:+ "// Imported from " +:+ import_path +:+ nl +:+ content +:+ nl.

Definition main_block (main_file content : string) : string :=
  nl +:+ "// Main file: " +:+ main_file +:+ nl +:+ content.

Definition file_block (filename content : string) : string :=
  nl +:+ "// File: " +:+ filename +:+ nl +:+ content +:+ nl.

(** [s.replace(old, "", 1)]: the first occurrence of [old] is cut out. *)
Definition replace_first (s old : string) : string :=
  match index 0 old s with
  | Some i =>
      substring 0 i s
      +:+ substring (i + String.length old)
            (String.length s - (i + String.length old)) s
  | None => s
  end.

Section imports.
(** [extract_imports] finds the import statements of a file with a regular
    expression; the functions below only use its result. *)
Variable extract_imports : string → list ImportStatement.

(** The loops of [build_dependency_graph]. *)
Definition dependency_graph (files : list (string * string)) : Graph :=
  foldl (fun graph kv =>
           foldl (fun graph imp => add_import graph kv.1 (path imp))
                 graph (extract_imports kv.2))
        [] files.

(** [build_dependency_graph(files)]: the graph, and the analyzer with
    [file_map] set. *)
Definition build_dependency_graph (self : Analyzer) (files : list (string * string))
    : Graph * Analyzer :=
  (dependency_graph files, mkAnalyzer (import_cache self) files).

(** One pass of the loop over the imports of an imported file; the state is
    [(processed_imports, merged_content)]. *)
Definition merge_sub_import (files : list (string * string))
    (st : gset string * list string) (sub_imp : ImportStatement)
    : gset string * list string :=
  let '(processed_imports, merged_content) := st in
  let sub_path := path sub_imp in
  match lookup_file files sub_path with
  | Some content =>
      if decide (sub_path ∉ processed_imports)
      then ({[sub_path]} ∪ processed_imports,
            imported_block sub_path content :: merged_content)
      else st
  | None => st
  end.

(** One pass of the loop over the imports of the main file. *)
Definition merge_import (files : list (string * string))
    (st : gset string * list string) (imp : ImportStatement)
    : gset string * list string :=
  let '(processed_imports, merged_content) := st in
  let import_path := path imp in
  if decide (import_path ∉ processed_imports) then
    match lookup_file files import_path with
    | Some import_content =>
        let '(processed_imports, merged_content) :=
          foldl (merge_sub_import files) (processed_imports, merged_content)
                (extract_imports import_content) in
        ({[import_path]} ∪ processed_imports,
         imported_block import_path import_content :: merged_content)
    | None => st
    end
  else st.

(** The list [merged_content] that [merge_files] joins. *)
Definition merged_content (files : list (string * string)) (main_file : string)
    (sorted_files : list string) : list string :=
  match lookup_file files main_file with
  | Some content =>
      let imports := extract_imports content in
      let '(_, merged_content) :=
        foldl (merge_import files) (∅, []) (reverse imports) in
      let content :=
        foldl (fun content imp => replace_first content (statement imp))
              content (reverse imports) in
      merged_content ++ [main_block main_file content]
  | None =>
      foldl (fun merged_content filename =>
               match lookup_file files filename with
               | Some content => merged_content ++ [file_block filename content]
               | None => merged_content
               end)
            [] sorted_files
  end.

(** [merge_files(files, main_file)]: the merged text, and the analyzer
    ([build_dependency_graph] has set its [file_map]). *)
Definition merge_files (self : Analyzer) (files : list (string * string))
    (main_file : string) : option (string * Analyzer) :=
  let '(graph, self) := build_dependency_graph self files in
  sorted_files ← topological_sort graph;
  Some (String.concat nl (merged_content files main_file sorted_files), self).

End imports.

End MultiFileAnalyzer.

(** ** [false_positive_handler.py]: reports, learning and suppression *)
Module FalsePositiveHandler.
Import Py.

(** The dataclass [FalsePositiveReport].  A dataclass does not check its
    annotations, and [import_false_positives] fills the fields with
    whatever the JSON holds, so every field is a value. *)
Record FalsePositiveReport := mkReport {
  issue_id : val;
  issue_type : val;
  contract_hash : val;
  location : val;
  reason : val;
  reported_by : val;
  reported_at : val;
  verified : val
}.

(** The handler's stores: [false_positives] (a [defaultdict(list)] keyed by
    ["type:hash"]), [issue_patterns] (whatever the last import assigned;
    otherwise a dictionary per issue type) and [learning_data]. *)
Record Handler := mkHandler {
  false_positives : list (key * list FalsePositiveReport);
  issue_patterns : val;
  learning_data : list (key * list val)
}.

(** [FalsePositiveHandler()] *)
Definition new_handler : Handler := mkHandler [] (VDict []) [].

Definition with_verified (r : FalsePositiveReport) (v : val) : FalsePositiveReport :=
  mkReport (issue_id r) (issue_type r) (contract_hash r) (location r)
           (reason r) (reported_by r) (reported_at r) v.

Definition opt_str (o : option string) : val :=
  match o with
  | Some s => VStr s
  | None => VNone
  end.

(** [report_false_positive]; [now] is [datetime.utcnow().isoformat()].
    Always returns [True]. *)
Definition report_false_positive (h : Handler)
    (issue_id issue_type contract_hash : string) (location : dict)
    (reason : string) (reported_by : option string) (now : string)
    : bool * Handler :=
  let report :=
    mkReport (VStr issue_id) (VStr issue_type) (VStr contract_hash)
             (VDict location) (VStr reason) (opt_str reported_by)
             (VStr now) (VBool false) in
  let key := KStr (issue_type +:+ ":" +:+ contract_hash) in
  let reports := default [] (dict_lookup (false_positives h) key) in
  let entry :=
    VDict [ (KStr "contract_hash", VStr contract_hash);
            (KStr "location", VDict location);
            (KStr "reason", VStr reason);
            (KStr "reported_at", VStr now) ] in
  let data := default [] (dict_lookup (learning_data h) (KStr issue_type)) in
  (true,
   mkHandler (dict_set (false_positives h) key (reports ++ [report]))
             (issue_patterns h)
             (dict_set (learning_data h) (KStr issue_type) (data ++ [entry]))).

(** [loc.get("line") or loc.get("lineNumber")] *)
Definition line_of (loc : val) : result val :=
  line ←! get loc "line" VNone;
  if truthy line then Ok line else get loc "lineNumber" VNone.

(** [abs(line1 - line2) <= 5]: a difference only between numbers. *)
Definition within5 (line1 line2 : val) : result bool :=
  match num line1, num line2 with
  | Some a, Some b => Ok (bool_decide (Z.abs (a - b) ≤ 5)%Z)
  | _, _ => Raise TypeError
  end.

(** [_location_matches], with both of its [if line1 and line2] tests. *)
Definition _location_matches (loc1 loc2 : val) : result bool :=
  line1 ←! line_of loc1;
  line2 ←! line_of loc2;
  if truthy line1 && truthy line2 then Ok (py_eq line1 line2)
  else if truthy line1 && truthy line2 then within5 line1 line2
  else Ok false.

(** The loop of [is_false_positive] over the reports of a key. *)
Fixpoint any_verified_match (reports : list FalsePositiveReport) (loc : val)
    : result bool :=
  match reports with
  | [] => Ok false
  | report :: reports =>
      if truthy (verified report) then
        m ←! _location_matches (location report) loc;
        if m then Ok true else any_verified_match reports loc
      else any_verified_match reports loc
  end.

Section formatting.
(** [repr] of lists and dictionaries, for the f-string of the key. *)
Variable repr : val → string.

Definition fp_key (issue_type : val) (contract_hash : string) : key :=
  KStr (str repr issue_type +:+ ":" +:+ contract_hash).

(** [is_false_positive] *)
Definition is_false_positive (h : Handler) (issue_type : val)
    (contract_hash : string) (loc : val) : result bool :=
  match dict_lookup (false_positives h) (fp_key issue_type contract_hash) with
  | None => Ok false
  | Some reports => any_verified_match reports loc
  end.

End formatting.

(** The loop of [_update_learning_pattern] that looks for a pattern with
    the same reason: the index and the pattern found, if any. *)
Fixpoint find_pattern (ps : list val) (reason : val) (i : nat)
    : result (option (nat * val)) :=
  match ps with
  | [] => Ok None
  | p :: ps =>
      r ←! get p "reason" VNone;
      if py_eq r reason then Ok (Some (i, p)) else find_pattern ps reason (S i)
  end.

(** Run a step on [issue_patterns]: when it raises, the store stays as it
    was before the step. *)
Definition commit (step : result val) (old : val)
    (next : val → result unit * val) : result unit * val :=
  match step with
  | Ok new => next new
  | Raise e => (Raise e, old)
  end.

(** [_update_learning_pattern(report)] on the store [issue_patterns]: the
    outcome and the store afterwards. *)
Definition _update_learning_pattern (patterns : val) (report : FalsePositiveReport)
    : result unit * val :=
  let t := issue_type report in
  commit
    (present ←! contains patterns t;
     if present then Ok patterns
     else setitem patterns t
            (VDict [ (KStr "false_positive_count", VInt 0);
                     (KStr "patterns", VList []) ]))
    patterns (fun patterns =>
  commit
    (entry ←! getitem patterns t;
     count ←! getitem entry (VStr "false_positive_count");
     count ←! add_one count;
     entry ←! setitem entry (VStr "false_positive_count") count;
     setitem patterns t entry)
    patterns (fun patterns =>
  commit
    (location_type ←! get (location report) "type" VNone;
     let pattern :=
       VDict [ (KStr "reason", reason report);
               (KStr "location_type", location_type);
               (KStr "count", VInt 1) ] in
     entry ←! getitem patterns t;
     ps ←! getitem entry (VStr "patterns");
     items ←! iter ps;
     existing ←! find_pattern items (reason report) 0;
     ps ←! match existing with
           | Some (i, p) =>
               if truthy p then
                 count ←! getitem p (VStr "count");
                 count ←! add_one count;
                 p ←! setitem p (VStr "count") count;
                 setitem ps (VInt (Z.of_nat i)) p
               else append ps pattern
           | None => append ps pattern
           end;
     entry ←! setitem entry (VStr "patterns") ps;
     setitem patterns t entry)
    patterns (fun patterns => (Ok tt, patterns)))).

(** The loop of [verify_false_positive]: the index of the first report
    whose location matches. *)
Fixpoint find_report (reports : list FalsePositiveReport) (loc : val) (i : nat)
    : result (option (nat * FalsePositiveReport)) :=
  match reports with
  | [] => Ok None
  | report :: reports =>
      m ←! _location_matches (location report) loc;
      if m then Ok (Some (i, report)) else find_report reports loc (S i)
  end.

(** [verify_false_positive]: the outcome and the handler afterwards. *)
Definition verify_false_positive (h : Handler)
    (issue_type contract_hash : string) (loc : dict) : result bool * Handler :=
  let key := KStr (issue_type +:+ ":" +:+ contract_hash) in
  match dict_lookup (false_positives h) key with
  | None => (Ok false, h)
  | Some reports =>
      match find_report reports (VDict loc) 0 with
      | Raise e => (Raise e, h)
      | Ok None => (Ok false, h)
      | Ok (Some (i, report)) =>
          let report := with_verified report (VBool true) in
          let fps := dict_set (false_positives h) key (<[i := report]> reports) in
          let '(outcome, patterns) :=
            _update_learning_pattern (issue_patterns h) report in
          (_ ←! outcome; Ok true, mkHandler fps patterns (learning_data h))
      end
  end.

(** [min(1.0, count / fp_count) >= confidence_threshold]: the quotient of
    the two ints is a float, [min] gives its second argument only when that
    is less than [1.0], and the threshold is a float (or an int), given by
    its value. *)
Definition confident (count fp_count : Z) (confidence_threshold : Q)
    : result bool :=
  ratio ←! true_div count fp_count;
  let confidence := if Qle_bool 1 ratio then 1%Q else ratio in
  Ok (Qle_bool confidence_threshold confidence).

(** The loop of [should_suppress_issue] over the patterns of a type. *)
Fixpoint any_confident_pattern (ps : list val) (location_type : val)
    (fp_count : Z) (confidence_threshold : Q) : result bool :=
  match ps with
  | [] => Ok false
  | p :: ps =>
      lt ←! get p "location_type" VNone;
      if py_eq lt location_type then
        count ←! get p "count" (VInt 0);
        match num count with
        | Some c =>
            sure ←! confident c fp_count confidence_threshold;
            if sure then Ok true
            else any_confident_pattern ps location_type fp_count confidence_threshold
        | None => Raise TypeError
        end
      else any_confident_pattern ps location_type fp_count confidence_threshold
  end.

(** The default [confidence_threshold], the float [0.7]: of all doubles
    the nearest to 7/10, which is 3152519739159347 / 2^52. *)
Definition default_threshold : Q := 3152519739159347 # 4503599627370496.

Section suppression.
Variable repr : val → string.

(** [should_suppress_issue] *)
Definition should_suppress_issue (h : Handler) (issue_type : val)
    (contract_hash : string) (loc : val) (confidence_threshold : Q)
    : result bool :=
  known ←! is_false_positive repr h issue_type contract_hash loc;
  if known then Ok true
  else
    present ←! contains (issue_patterns h) issue_type;
    if present then
      pattern ←! getitem (issue_patterns h) issue_type;
      fp_count ←! get pattern "false_positive_count" (VInt 0);
      enough ←! ge_int fp_count 3;
      if enough then
        location_type ←! get loc "type" VNone;
        ps ←! get pattern "patterns" (VList []);
        ps ←! iter ps;
        any_confident_pattern ps location_type
          (default 0%Z (num fp_count)) confidence_threshold
      else Ok false
    else Ok false.

(** The issue dictionaries live in a heap; a list of issues is a list of
    references into it, so that the flags [filter_false_positives] sets are
    seen by every holder of the dictionary. *)
Definition issue_of (heap : gmap nat dict) (ref : nat) : dict :=
  default [] (heap !! ref).

Definition suppression_args (issue : dict) : val * val :=
  let issue_type :=
    py_or (default VNone (dict_lookup issue (KStr "type")))
          (default VNone (dict_lookup issue (KStr "check"))) in
  let loc :=
    py_or (default VNone (dict_lookup issue (KStr "location")))
          (VDict [ (KStr "line", default VNone (dict_lookup issue (KStr "lineNumber")));
                   (KStr "type", VStr "line") ]) in
  (issue_type, loc).

Definition mark_suppressed (issue : dict) : dict :=
  dict_set (dict_set issue (KStr "suppressed") (VBool true))
           (KStr "suppression_reason") (VStr "Known false positive").

(** [filter_false_positives(issues, contract_hash)]: the returned list (or
    the exception) and the heap afterwards. *)
Fixpoint filter_loop (h : Handler) (contract_hash : string)
    (heap : gmap nat dict) (filtered issues : list nat)
    : result (list nat) * gmap nat dict :=
  match issues with
  | [] => (Ok filtered, heap)
  | ref :: issues =>
      let issue := issue_of heap ref in
      let '(issue_type, loc) := suppression_args issue in
      match should_suppress_issue h issue_type contract_hash loc default_threshold with
      | Raise e => (Raise e, heap)
      | Ok false => filter_loop h contract_hash heap (filtered ++ [ref]) issues
      | Ok true =>
          filter_loop h contract_hash (<[ref := mark_suppressed issue]> heap)
            filtered issues
      end
  end.

Definition filter_false_positives (h : Handler) (heap : gmap nat dict)
    (issues : list nat) (contract_hash : string)
    : result (list nat) * gmap nat dict :=
  filter_loop h contract_hash heap [] issues.

End suppression.

(** [asdict(report)] *)
Definition asdict (r : FalsePositiveReport) : val :=
  VDict [ (KStr "issue_id", issue_id r);
          (KStr "issue_type", issue_type r);
          (KStr "contract_hash", contract_hash r);
          (KStr "location", location r);
          (KStr "reason", reason r);
          (KStr "reported_by", reported_by r);
          (KStr "reported_at", reported_at r);
          (KStr "verified", verified r) ].

(** The document [export_false_positives] serializes. *)
Definition export_data (h : Handler) (now : string) : val :=
  VDict [ (KStr "false_positives",
           VDict ((fun kv => (kv.1, VList (asdict <$> kv.2))) <$> false_positives h));
          (KStr "learning_patterns", issue_patterns h);
          (KStr "exported_at", VStr now) ].

Definition field_names : list string :=
  [ "issue_id"; "issue_type"; "contract_hash"; "location"; "reason";
    "reported_by"; "reported_at"; "verified" ].

Definition is_field (k : key) : bool :=
  match k with
  | KStr s => bool_decide (s ∈ field_names)
  | _ => false
  end.

(** The constructor call of [FalsePositiveReport] with the entries of [r]
    as keyword arguments: [TypeError] unless [r] is a mapping whose keys
    are field names and which has the five fields without default. *)
Definition report_of (r : val) : result FalsePositiveReport :=
  match r with
  | VDict d =>
      if forallb is_field d.*1 then
        match dict_lookup d (KStr "issue_id"), dict_lookup d (KStr "issue_type"),
              dict_lookup d (KStr "contract_hash"), dict_lookup d (KStr "location"),
              dict_lookup d (KStr "reason") with
        | Some i, Some t, Some c, Some l, Some rs =>
            Ok (mkReport i t c l rs
                  (default VNone (dict_lookup d (KStr "reported_by")))
                  (default VNone (dict_lookup d (KStr "reported_at")))
                  (default (VBool false) (dict_lookup d (KStr "verified"))))
        | _, _, _, _, _ => Raise TypeError
        end
      else Raise TypeError
  | _ => Raise TypeError
  end.

(** The list comprehension that builds one report per element of
    [reports_data]. *)
Fixpoint reports_of (rs : list val) : result (list FalsePositiveReport) :=
  match rs with
  | [] => Ok []
  | r :: rs =>
      report ←! report_of r;
      reports ←! reports_of rs;
      Ok (report :: reports)
  end.

(** The loop of [import_false_positives] over the items of
    ["false_positives"]: the store is assigned key by key. *)
Fixpoint import_reports (fps : list (key * list FalsePositiveReport))
    (items : list (key * val))
    : result unit * list (key * list FalsePositiveReport) :=
  match items with
  | [] => (Ok tt, fps)
  | (k, reports_data) :: items =>
      match (rs ←! iter reports_data; reports_of rs) with
      | Raise e => (Raise e, fps)
      | Ok reports => import_reports (dict_set fps k reports) items
      end
  end.

Section json.
(** [json.dumps(data, indent=2)] and [json.loads]. *)
Variable json_dumps : val → string.
Variable json_loads : string → result val.

(** [export_false_positives]; [now] is [datetime.utcnow().isoformat()]. *)
Definition export_false_positives (h : Handler) (now : string) : string :=
  json_dumps (export_data h now).

(** [import_false_positives(json_data)]: what the call raises, if anything
    (the [except] clause logs and re-raises), and the handler afterwards. *)
Definition import_false_positives (h : Handler) (json_data : string)
    : result unit * Handler :=
  match json_loads json_data with
  | Raise e => (Raise e, h)
  | Ok data =>
      match get data "false_positives" (VDict []) with
      | Raise e => (Raise e, h)
      | Ok (VDict items) =>
          let '(outcome, fps) := import_reports (false_positives h) items in
          let h := mkHandler fps (issue_patterns h) (learning_data h) in
          match outcome with
          | Raise e => (Raise e, h)
          | Ok _ =>
              match get data "learning_patterns" (VDict []) with
              | Raise e => (Raise e, h)
              | Ok patterns => (Ok tt, mkHandler fps patterns (learning_data h))
              end
          end
      | Ok _ => (Raise AttributeError, h)
      end
  end.

End json.

(** *** Statistics *)

(** What [get_false_positive_statistics] can raise: the exceptions of the
    operations above, and the [ValueError] of [dict(...)]. *)
Inductive failure : Type :=
  | Exception (e : exn)
  | ValueError.

(** [key.split(":")[0]]: the text before the first colon; only a string
    has the method. *)
Fixpoint before_colon (s : string) : string :=
  match s with
  | EmptyString => EmptyString
  | String a rest =>
      if Ascii.eqb a ":" then EmptyString else String a (before_colon rest)
  end.

(** [sum(1 for r in reports if r.verified)] *)
Definition count_verified (reports : list FalsePositiveReport) : Z :=
  Z.of_nat (length (filter (fun r => truthy (verified r) = true) reports)).

(** One pass of the loop that fills [issue_type_counts], a
    [defaultdict(int)]. *)
Definition count_issue_type (counts : dict) (kv : key * list FalsePositiveReport)
    : failure + dict :=
  match kv.1 with
  | KStr key =>
      let issue_type := KStr (before_colon key) in
      let count := default 0%Z (num (default (VInt 0) (dict_lookup counts issue_type))) in
      inr (dict_set counts issue_type (VInt (count + Z.of_nat (length kv.2))))
  | _ => inl (Exception AttributeError)
  end.

Fixpoint count_issue_types (counts : dict)
    (fps : list (key * list FalsePositiveReport)) : failure + dict :=
  match fps with
  | [] => inr counts
  | kv :: fps =>
      match count_issue_type counts kv with
      | inr counts => count_issue_types counts fps
      | inl e => inl e
      end
  end.

(** One element of the sequence given to [dict(...)]: it must itself be a
    sequence of exactly two items, the first of them hashable. *)
Definition dict_item (item : val) : failure + key * val :=
  match item with
  | VList [k; v] =>
      match to_key k with
      | Ok k => inr (k, v)
      | Raise e => inl (Exception e)
      end
  | VStr (String a (String b EmptyString)) =>
      inr (KStr (String a EmptyString), VStr (String b EmptyString))
  | VDict [(k, _); (v, _)] => inr (k, val_of_key v)
  | VList _ | VStr _ | VDict _ => inl ValueError
  | VNone | VBool _ | VInt _ => inl (Exception TypeError)
  end.

Fixpoint dict_of_items (d : dict) (items : list val) : failure + dict :=
  match items with
  | [] => inr d
  | item :: items =>
      match dict_item item with
      | inr (k, v) => dict_of_items (dict_set d k v) items
      | inl e => inl e
      end
  end.

(** [dict(v)] *)
Definition py_dict (v : val) : failure + dict :=
  match v with
  | VDict d => inr d
  | VList items => dict_of_items [] items
  | VStr s =>
      dict_of_items []
        ((fun a => VStr (String a EmptyString)) <$> list_ascii_of_string s)
  | VNone | VBool _ | VInt _ => inl (Exception TypeError)
  end.

(** [get_false_positive_statistics()] *)
Definition get_false_positive_statistics (h : Handler) : failure + dict :=
  let total_reports :=
    foldr (fun kv total => (Z.of_nat (length kv.2) + total)%Z) 0%Z
          (false_positives h) in
  let verified_reports :=
    foldr (fun kv total => (count_verified kv.2 + total)%Z) 0%Z
          (false_positives h) in
  match count_issue_types [] (false_positives h) with
  | inl e => inl e
  | inr issue_type_counts =>
      match py_dict (issue_patterns h) with
      | inl e => inl e
      | inr learning_patterns =>
          inr [ (KStr "totalReports", VInt total_reports);
                (KStr "verifiedReports", VInt verified_reports);
                (KStr "issueTypeCounts", VDict issue_type_counts);
                (KStr "learningPatterns", VDict learning_patterns) ]
      end
  end.

End FalsePositiveHandler.

(* ===================================================================== *)
(** * Part I, continued: the vocabulary of the properties                 *)
(* ===================================================================== *)

(** ** Change sets *)
Section changeset_vocabulary.
Import IncrementalAnalyzer.

Section per_index.
Variables old_hashes new_hashes : list string.

(** What the second loop decides for index [i] of the new revision. *)
Definition is_added (i : nat) : Prop :=
  length old_hashes ≤ i
  ∨ (old_hashes !!! i ≠ new_hashes !!! i ∧ old_hashes !!! i ∉ new_hashes).

Definition is_modified (i : nat) : Prop :=
  i < length old_hashes
  ∧ old_hashes !!! i ≠ new_hashes !!! i ∧ old_hashes !!! i ∈ new_hashes.

Definition is_removed (i : nat) : Prop :=
  length new_hashes ≤ i ∨ old_hashes !!! i ∉ new_hashes.

(** The new revision ends before index [i], or has there the digest of the
    old one. *)
Definition same_or_past (i : nat) : Prop :=
  length new_hashes ≤ i ∨ new_hashes !!! i = old_hashes !!! i.

(** Both revisions have index [i], with the same digest. *)
Definition same_at (i : nat) : Prop :=
  i < length old_hashes ∧ i < length new_hashes
  ∧ new_hashes !!! i = old_hashes !!! i.

(** Index [i] lies in an unchanged region: one starts there, or one that
    could start at the index before goes on to it. *)
Definition in_unchanged (removed : gset nat) (i : nat) : Prop :=
  unchanged_at old_hashes new_hashes removed i = true
  ∨ (1 ≤ i ∧ unchanged_at old_hashes new_hashes removed (i - 1) = true
     ∧ same_or_past i).

End per_index.

(** Regions as sets of line numbers. *)
Definition covered (rs : list (nat * nat)) (n : nat) : Prop :=
  ∃ r, r ∈ rs ∧ IncrementalAnalyzer.in_region n r.

(** Each region ends before the next one starts. *)
Definition regions_sorted (rs : list (nat * nat)) : Prop :=
  ∀ j k r1 r2, j < k → rs !! j = Some r1 → rs !! k = Some r2 → r1.2 < r2.1.

Definition regions_below (rs : list (nat * nat)) (b : nat) : Prop :=
  ∀ r, r ∈ rs → r.2 ≤ b.

(** Exactly one of three propositions holds. *)
Definition exactly_one (A B C : Prop) : Prop :=
  (A ∧ ¬ B ∧ ¬ C) ∨ (¬ A ∧ B ∧ ¬ C) ∨ (¬ A ∧ ¬ B ∧ C).

(** The three sets of a change set are pairwise disjoint. *)
Definition pairwise_disjoint (cs : ChangeSet) : Prop :=
  added_lines cs ## modified_lines cs
  ∧ added_lines cs ## removed_lines cs
  ∧ modified_lines cs ## removed_lines cs.

(** Every line number of the new revision is in exactly one of [added],
    [modified] or an unchanged region, and in no two regions. *)
Definition new_lines_partitioned (new_code : string) (cs : ChangeSet) : Prop :=
  ∀ n, 1 ≤ n ≤ length (split_lines new_code) →
    exactly_one (n ∈ added_lines cs) (n ∈ modified_lines cs)
                (covered (unchanged_regions cs) n)
    ∧ ∀ j k r1 r2,
        unchanged_regions cs !! j = Some r1 →
        unchanged_regions cs !! k = Some r2 →
        in_region n r1 → in_region n r2 → j = k.

(** Every line of the new revision is added, none modified. *)
Definition all_lines_added (new_code : string) (cs : ChangeSet) : Prop :=
  ∀ n, 1 ≤ n ≤ length (split_lines new_code) →
    n ∈ added_lines cs ∧ n ∉ modified_lines cs.

End changeset_vocabulary.

(** ** Import graphs *)
Section toposort_vocabulary.
Import MultiFileAnalyzer.

(** Number of occurrences of [v] in an adjacency list. *)
Definition occ (v : string) (ns : list string) : nat :=
  length (filter (fun x => x = v) ns).

(** The edges into [v] from files not yet in [done], counted with
    repetition: what [in_degree[v]] holds during the loop. *)
Definition pending_in (g : Graph) (done : list string) (v : string) : nat :=
  sum_list_with
    (fun kv => if decide (kv.1 ∈ done) then 0 else occ v kv.2) g.

Section per_graph.
Variable graph : Graph.

(** Every name of the graph: the keys and the imported paths. *)
Definition nodes : gset string :=
  list_to_set graph.*1 ∪ list_to_set (mjoin graph.*2).

(** Every name already placed stands after all the files that import it. *)
Definition importers_first (result : list string) : Prop :=
  ∀ r1 v r2, result = r1 ++ v :: r2 → ∀ u, edge graph u v → u ∈ r1.

(** The loop invariant of Kahn's algorithm. *)
Definition kahn_inv (m : gmap string Z) (queue result : list string) : Prop :=
  NoDup (result ++ queue)
  ∧ (∀ v, degree m v = Z.of_nat (pending_in graph result v))
  ∧ dom m = nodes
  ∧ (∀ v, v ∈ result ++ queue ↔ v ∈ nodes ∧ pending_in graph result v = 0)
  ∧ importers_first result.

End per_graph.

(** The example of the specification: [main] imports [lib1], [lib1]
    imports [lib2]. *)
Definition example_graph : Graph :=
  [("main", ["lib1"]); ("lib1", ["lib2"])].

End toposort_vocabulary.

(** ** Reports, handlers and heaps of the examples *)
Section handler_vocabulary.
Import Py FalsePositiveHandler.

Definition issue_on_line (line : Z) : val :=
  VDict [ (KStr "type", VStr "reentrancy");
          (KStr "severity", VStr "HIGH");
          (KStr "lineNumber", VInt line) ].

(** One assignment [false_positives[key] = reports] of the import loop. *)
Definition assign (fps : list (key * list FalsePositiveReport))
    (kv : key * list FalsePositiveReport) : list (key * list FalsePositiveReport) :=
  dict_set fps kv.1 kv.2.

(** The reports that the import loop builds from one item of the document,
    one per element of its [reports_data]. *)
Definition built (item : key * val) : result (list FalsePositiveReport) :=
  rs ←! iter item.2; reports_of rs.

(** [kv] is the assignment the import loop makes for [item]. *)
Definition assigned_from (kv : key * list FalsePositiveReport)
    (item : key * val) : Prop :=
  kv.1 = item.1 ∧ built item = Ok kv.2.

(** The keys of a dictionary differ pairwise. *)
Fixpoint distinct_keys {A : Type} (d : list (key * A)) : bool :=
  match d with
  | [] => true
  | (k, _) :: d => forallb (fun kv => negb (key_eqb k kv.1)) d && distinct_keys d
  end.

(** The items of ["false_positives"] in a JSON text, if it has them. *)
Definition items_of (data : result val) : list (key * val) :=
  match data with
  | Ok data =>
      match get data "false_positives" (VDict []) with
      | Ok (VDict items) => items
      | _ => []
      end
  | Raise _ => []
  end.

(** JSON text written with apostrophes in place of double quotes. *)
Definition json_text (s : string) : string :=
  string_of_list_ascii
    ((fun a => if bool_decide (a = "'"%char) then Json.dquote else a)
       <$> list_ascii_of_string s).

(** A handler with one verified report of type ["reentrancy"] in unit
    ["abc"] at line 10. *)
Definition verified_handler : Handler :=
  let stored := [(KStr "line", VInt 10); (KStr "type", VStr "line")] in
  let h :=
    (report_false_positive new_handler "issue-1" "reentrancy" "abc" stored
       "guarded by a mutex" None "2024-01-01T00:00:00").2 in
  (verify_false_positive h "reentrancy" "abc" [(KStr "line", VInt 10)]).2.

(** A document whose first key is well formed and whose second key holds a
    report with an unknown field. *)
Definition half_valid_document : string :=
  json_text
    "{'false_positives': {'reentrancy:abc': [], 'other:def': [{'bogus': 1}]}}".

Definition exported_item (kv : key * list FalsePositiveReport) : key * val :=
  (kv.1, VList (asdict <$> kv.2)).

(** Stores and issues as the annotations of the source type them: stored
    locations are dictionaries, the learning patterns map an issue type to
    a dictionary with an integer count and a list of pattern dictionaries
    with integer counts, and an issue has a hashable type and a location
    that is a dictionary (or is missing).  The count of a pattern is below
    [2 ^ 1024] in absolute value, so that its quotient by a count of false
    positives is within the range of a float. *)
Definition is_number (v : option val) : bool :=
  match v with
  | Some w => bool_decide (is_Some (num w))
  | None => true
  end.

Definition is_count (v : option val) : bool :=
  match v with
  | Some w =>
      match num w with
      | Some z => bool_decide (Z.abs z < 2 ^ 1024)%Z
      | None => false
      end
  | None => true
  end.

Definition typed_pattern (p : val) : bool :=
  match p with
  | VDict d => is_count (dict_lookup d (KStr "count"))
  | _ => false
  end.

Definition typed_entry (e : val) : bool :=
  match e with
  | VDict d =>
      is_number (dict_lookup d (KStr "false_positive_count"))
      && match dict_lookup d (KStr "patterns") with
         | Some (VList ps) => forallb typed_pattern ps
         | Some _ => false
         | None => true
         end
  | _ => false
  end.

Definition is_dict (v : val) : bool :=
  match v with
  | VDict _ => true
  | _ => false
  end.

Definition typed_handler (h : Handler) : bool :=
  forallb (fun kv => forallb (fun r => is_dict (location r)) kv.2) (false_positives h)
  && match issue_patterns h with
     | VDict d => forallb (fun kv => typed_entry kv.2) d
     | _ => false
     end.

Definition typed_issue (issue : dict) : bool :=
  match to_key (suppression_args issue).1 with
  | Ok _ => is_dict (suppression_args issue).2
  | Raise _ => false
  end.

Section per_handler.
Variable repr : val → string.
Variable h : Handler.
Variable contract_hash : string.

(** What [should_suppress_issue] answers for an issue dictionary. *)
Definition judged (issue : dict) : result bool :=
  should_suppress_issue repr h (suppression_args issue).1 contract_hash
    (suppression_args issue).2 default_threshold.

End per_handler.

(** [repr] for the examples, whose issue types are all strings. *)
Definition no_repr : val → string := fun _ => EmptyString.

(** Two issues of unit ["abc"]: one at the line of the verified report of
    [verified_handler], one elsewhere. *)
Definition sample_heap : gmap nat dict :=
  {[ 0 := [ (KStr "type", VStr "reentrancy");
            (KStr "location", VDict [(KStr "line", VInt 10)]) ];
     1 := [ (KStr "type", VStr "overflow"); (KStr "lineNumber", VInt 20) ] ]}.

End handler_vocabulary.

(** ** The scenario of the suppression threshold *)
Section scenario_vocabulary.
Import Py FalsePositiveHandler.

(** The calls of the scenario: reports of one issue type with one reason,
    and verifications. *)
Inductive op : Type :=
  | OpReport (issue_id contract_hash : string) (loc : dict)
             (reported_by : option string) (now : string)
  | OpVerify (contract_hash : string) (loc : dict).

(** [location.get("type")] *)
Definition kind_of (loc : dict) : val :=
  default VNone (dict_lookup loc (KStr "type")).

Definition reported_units (ops : list op) : list string :=
  omap (fun o => match o with
                 | OpReport _ ch _ _ _ => Some ch
                 | OpVerify _ _ => None
                 end) ops.

(** Three reports in the units ["u1"], ["u2"], ["u3"], each verified. *)
Definition three_verified : list op :=
  let loc (line : Z) := [(KStr "line", VInt line); (KStr "type", VStr "function")] in
  [ OpReport "issue-1" "u1" (loc 5%Z) None "2024-01-01T00:00:00";
    OpVerify "u1" (loc 5%Z);
    OpReport "issue-2" "u2" (loc 6%Z) None "2024-01-02T00:00:00";
    OpVerify "u2" (loc 6%Z);
    OpReport "issue-3" "u3" (loc 7%Z) None "2024-01-03T00:00:00";
    OpVerify "u3" (loc 7%Z) ].

(** Two reports in the units ["u1"] and ["u2"], each verified, the first
    of them a second time. *)
Definition twice_verified : list op :=
  let loc (line : Z) := [(KStr "line", VInt line); (KStr "type", VStr "function")] in
  [ OpReport "issue-1" "u1" (loc 5%Z) None "2024-01-01T00:00:00";
    OpVerify "u1" (loc 5%Z);
    OpReport "issue-2" "u2" (loc 6%Z) None "2024-01-02T00:00:00";
    OpVerify "u2" (loc 6%Z);
    OpVerify "u1" (loc 5%Z) ].

(** The verified reports among some reports, and the numbers of stored and
    of verified reports of a handler. *)
Definition verified_among (reports : list FalsePositiveReport)
    : list FalsePositiveReport :=
  filter (fun r => truthy (verified r) = true) reports.

Definition stored_total (h : Handler) : nat :=
  sum_list ((fun kv => length kv.2) <$> false_positives h).

Definition verified_total (h : Handler) : nat :=
  sum_list ((fun kv => length (verified_among kv.2)) <$> false_positives h).

(** The issue type, the reason and the location kind of the scenario. *)
Variables (T R : string) (K : key).

Definition same_kind (o : op) : Prop :=
  match o with
  | OpReport _ _ loc _ _ => kind_of loc = val_of_key K
  | OpVerify _ _ => True
  end.

(** Run the calls; the number counts the verifications that returned
    [True]. *)
Fixpoint run (h : Handler) (ops : list op) : Handler * nat :=
  match ops with
  | [] => (h, 0)
  | OpReport issue_id ch loc reported_by now :: ops =>
      run (report_false_positive h issue_id T ch loc R reported_by now).2 ops
  | OpVerify ch loc :: ops =>
      let '(outcome, h) := verify_false_positive h T ch loc in
      let '(h, n) := run h ops in
      (h, (if decide (outcome = Ok true) then 1 else 0) + n)
  end.

(** The learning patterns after [n] verifications. *)
Definition patterns_after (n : nat) : val :=
  match n with
  | O => VDict []
  | S _ =>
      VDict
        [(KStr T,
          VDict
            [(KStr "false_positive_count", VInt (Z.of_nat n));
             (KStr "patterns",
              VList
                [VDict [(KStr "reason", VStr R);
                        (KStr "location_type", val_of_key K);
                        (KStr "count", VInt (Z.of_nat n))]])])]
  end.

Definition good_report (r : FalsePositiveReport) : Prop :=
  issue_type r = VStr T
  ∧ reason r = VStr R
  ∧ ∃ loc, location r = VDict loc ∧ kind_of loc = val_of_key K.

(** The state of the handler after some calls of the scenario, [n] of them
    successful verifications; [units] are the units reported so far. *)
Definition well_keyed (units : list string)
    (kv : key * list FalsePositiveReport) : Prop :=
  (∃ ch, ch ∈ units ∧ kv.1 = KStr (T +:+ ":" +:+ ch)) ∧ Forall good_report kv.2.

Definition scenario_inv (units : list string) (h : Handler) (n : nat) : Prop :=
  issue_patterns h = patterns_after n
  ∧ Forall (well_keyed units) (false_positives h).

End scenario_vocabulary.

(** Decide the comparisons of literal strings (and of a variable with
    itself) that evaluation leaves behind. *)
Ltac decide_literals :=
  repeat match goal with
         | |- context [bool_decide (?a = ?b)] =>
             first [ rewrite (bool_decide_eq_true_2 (a = b)) by done
                   | rewrite (bool_decide_eq_false_2 (a = b)) by done ]
         end.

Ltac py_eval := repeat (progress (cbn; decide_literals)).

(** ** JSON values and their text *)
Section json_vocabulary.
Import Py Json.

(** The characters of a text. *)
Definition chars (s : string) : list ascii := list_ascii_of_string s.

(** The values that JSON text can hold: every key of a dictionary is a
    string.  The keys of a dictionary differ, as they do in any Python
    dictionary. *)
Definition string_key (k : key) : bool :=
  match k with
  | KStr _ => true
  | _ => false
  end.

Fixpoint json_value (v : val) : bool :=
  match v with
  | VList l => forallb json_value l
  | VDict d =>
      forallb string_key d.*1 && distinct_keys d
      && forallb (fun kv => let '(_, w) := kv in json_value w) d
  | _ => true
  end.

(** The number of values in a value. *)
Fixpoint weight (v : val) : nat :=
  match v with
  | VList l => S (sum_list (map weight l))
  | VDict d => S (sum_list (map (fun kv => let '(_, w) := kv in weight w) d))
  | _ => 1
  end.

(** What may follow a number in a text: not a digit, and none of the
    characters that would continue the number. *)
Definition ends_number (rest : list ascii) : Prop :=
  match rest with
  | [] => True
  | a :: _ => digit_of a = None ∧ a ≠ "."%char ∧ a ≠ "e"%char ∧ a ≠ "E"%char
  end.

(** A handler whose stores JSON text can hold: the keys of
    [false_positives] are strings, and the fields of the reports and the
    learning patterns are such values. *)
Definition json_report (r : FalsePositiveHandler.FalsePositiveReport) : bool :=
  forallb json_value
    [ FalsePositiveHandler.issue_id r; FalsePositiveHandler.issue_type r;
      FalsePositiveHandler.contract_hash r; FalsePositiveHandler.location r;
      FalsePositiveHandler.reason r; FalsePositiveHandler.reported_by r;
      FalsePositiveHandler.reported_at r; FalsePositiveHandler.verified r ].

Definition json_handler (h : FalsePositiveHandler.Handler) : bool :=
  forallb string_key (FalsePositiveHandler.false_positives h).*1
  && distinct_keys (FalsePositiveHandler.false_positives h)
  && forallb (fun kv => forallb json_report kv.2)
       (FalsePositiveHandler.false_positives h)
  && json_value (FalsePositiveHandler.issue_patterns h).

(** A handler with one report whose location holds a dictionary with the
    int key [1]. *)
Definition int_keyed_handler : FalsePositiveHandler.Handler :=
  (FalsePositiveHandler.report_false_positive FalsePositiveHandler.new_handler
     "issue-1" "reentrancy" "abc"
     [(KStr "line", VInt 10); (KStr "columns", VDict [(KInt 1, VInt 80)])]
     "guarded by a mutex" None "2024-01-01T00:00:00").2.

End json_vocabulary.

(** ** Further vocabulary: change sets and affected issues *)
Section changeset_vocabulary_more.
Import Py IncrementalAnalyzer.

(** Both revisions have a line [n], with the same digest. *)
Definition same_digest (old_code new_code : string) (n : nat) : Prop :=
  1 ≤ n
  ∧ ∃ h, line_hashes (split_lines old_code) !! (n - 1) = Some h
         ∧ line_hashes (split_lines new_code) !! (n - 1) = Some h.

(** [code], a line break, and [more]. *)
Definition followed_by (code more : string) : string :=
  code +:+ String "010" more.

(** The line numbers [first], ..., [first + count - 1]. *)
Definition line_range (first count : nat) : gset nat := set_seq first count.

Definition changed_lines (cs : ChangeSet) : gset nat :=
  added_lines cs ∪ modified_lines cs ∪ removed_lines cs.

(** [issue.get('location', {}).get('line') or issue.get('lineNumber')] *)
Definition issue_line (issue : val) : result val :=
  location ←! get issue "location" (VDict []);
  line ←! get location "line" VNone;
  if truthy line then Ok line else get issue "lineNumber" VNone.

(** An issue dictionary whose location, if it has one, is a dictionary,
    and whose line, if it has one, is a number. *)
Definition located (issue : val) : bool :=
  match issue_line issue with
  | Ok line => negb (truthy line) || bool_decide (is_Some (num line))
  | Raise _ => false
  end.

(** The issue has no line, or a line at most 20 away from a changed one. *)
Definition is_affected (changed : gset nat) (issue : val) : bool :=
  match issue_line issue with
  | Ok line =>
      if truthy line then
        match num line with
        | Some z =>
            bool_decide (∃ c, c ∈ changed ∧ (Z.abs (z - Z.of_nat c) ≤ 20)%Z)
        | None => false
        end
      else true
  | Raise _ => false
  end.

(** The issue has no line number. *)
Definition lacks_line (issue : val) : bool :=
  match issue_line issue with
  | Ok line => negb (truthy line)
  | Raise _ => false
  end.

Definition hashable (v : val) : Prop := ∃ k, to_key v = Ok k.

End changeset_vocabulary_more.

(** ** Further vocabulary: projects of several files *)
Section toposort_vocabulary_more.
Import MultiFileAnalyzer.

(** Two files that import each other, one of which also imports a third
    name. *)
Definition cyclic_graph : Graph :=
  [("a", ["b"]); ("b", ["a"; "c"])].

(** The keys of the graph that no file imports, in the order of the
    graph. *)
Definition roots (graph : Graph) : list string :=
  filter (fun k => k ∉ mjoin graph.*2) graph.*1.

(** Distinct keys, and non-empty adjacency lists without repetition. *)
Definition graph_ok (graph : Graph) : Prop :=
  NoDup graph.*1 ∧ ∀ k ns, (k, ns) ∈ graph → NoDup ns ∧ ns ≠ [].

End toposort_vocabulary_more.

Section merge_vocabulary.
Import MultiFileAnalyzer.
Variable extract_imports : string → list ImportStatement.
Variable files : list (string * string).

(** The file [f] of the project has an import statement for [p]. *)
Definition imports_of (f p : string) : Prop :=
  ∃ content, (f, content) ∈ files ∧ p ∈ path <$> extract_imports content.

(** [f] has no import statement and no file of the project imports it. *)
Definition isolated (f : string) : Prop :=
  (∀ p, ¬ imports_of f p) ∧ (∀ g, ¬ imports_of g f).

(** [p] is imported by [main_file], or by a file that [main_file]
    imports. *)
Definition within_two_imports (main_file p : string) : Prop :=
  imports_of main_file p ∨ ∃ q, imports_of main_file q ∧ imports_of q p.

(** The block of an imported file of the project. *)
Definition block_of (p : string) : string :=
  imported_block p (default EmptyString (lookup_file files p)).

(** The text of the main file once its import statements are cut out. *)
Definition without_imports (content : string) : string :=
  foldl (fun content imp => replace_first content (statement imp))
        content (reverse (extract_imports content)).

End merge_vocabulary.

Section merge_examples.
Import MultiFileAnalyzer.

(** A project of three files: [main.sol] imports [lib.sol]; [extra.sol]
    imports nothing and is imported by no file. *)
Definition sample_files : list (string * string) :=
  [ ("main.sol", "import 'lib.sol'; contract Main {}");
    ("lib.sol", "library Lib {}");
    ("extra.sol", "contract Extra {}") ].

(** What [extract_imports] finds in the files of [sample_files]. *)
Definition sample_imports (content : string) : list ImportStatement :=
  if decide (content = "import 'lib.sol'; contract Main {}")
  then [mkImport "lib.sol" None 1 "import 'lib.sol';"]
  else [].

End merge_examples.

(** ** Further vocabulary: reports, verification and statistics *)
Section handler_vocabulary_more.
Import Py FalsePositiveHandler.

(** The arguments of one call of [report_false_positive]. *)
Record report_call := mkCall {
  call_issue_id : string;
  call_issue_type : string;
  call_contract_hash : string;
  call_location : dict;
  call_reason : string;
  call_reported_by : option string;
  call_now : string
}.

(** The handler after a series of reports. *)
Definition report_all (h : Handler) (calls : list report_call) : Handler :=
  foldl (fun h c =>
           (report_false_positive h (call_issue_id c) (call_issue_type c)
              (call_contract_hash c) (call_location c) (call_reason c)
              (call_reported_by c) (call_now c)).2)
        h calls.

(** No stored report is verified, and nothing has been learned. *)
Definition unverified (h : Handler) : Prop :=
  issue_patterns h = VDict []
  ∧ Forall (fun kv => Forall (fun r => verified r = VBool false) kv.2)
           (false_positives h).

(** A location without a line: neither ["line"] nor ["lineNumber"] holds
    a value that counts as true ([None], [0] and a missing key do not). *)
Definition lineless (loc : dict) : bool :=
  negb (truthy (default VNone (dict_lookup loc (KStr "line"))))
  && negb (truthy (default VNone (dict_lookup loc (KStr "lineNumber")))).

(** Every stored location is a dictionary. *)
Definition dict_locations (h : Handler) : bool :=
  forallb (fun kv => forallb (fun r => is_dict (location r)) kv.2)
          (false_positives h).

(** The reports stored for an issue type in a unit. *)
Definition reports_for (h : Handler) (issue_type contract_hash : string)
    : list FalsePositiveReport :=
  default [] (dict_lookup (false_positives h)
                (KStr (issue_type +:+ ":" +:+ contract_hash))).

(** A document with the reports of another unit and no learning
    patterns. *)
Definition other_unit_document : string :=
  json_text "{'false_positives': {'overflow:def': []}}".

Definition lineless_report (r : FalsePositiveReport) : bool :=
  match location r with
  | VDict loc => lineless loc
  | _ => false
  end.

End handler_vocabulary_more.

Section statistics_vocabulary.
Import Py FalsePositiveHandler.

(** The sum of the numbers a dictionary holds. *)
Definition sum_values (d : dict) : Z :=
  foldr (fun kv total => (default 0 (num kv.2) + total)%Z) 0%Z d.

(** The keys of [false_positives] are strings. *)
Definition string_keys (h : Handler) : bool :=
  forallb (fun kv => match kv.1 with KStr _ => true | _ => false end)
          (false_positives h).

(** The number under a key of the statistics. *)
Definition statistic (stats : dict) (k : string) : Z :=
  default 0%Z (num (default VNone (dict_lookup stats (KStr k)))).

End statistics_vocabulary.

Section learning_vocabulary.
Import Py FalsePositiveHandler.

(** A call of [report_false_positive] or of [verify_false_positive]. *)
Inductive call : Type :=
  | Report (c : report_call)
  | Verify (issue_type contract_hash : string) (loc : dict).

(** The handler after a series of calls. *)
Definition apply_calls (h : Handler) (calls : list call) : Handler :=
  foldl (fun h c =>
           match c with
           | Report c => report_all h [c]
           | Verify issue_type contract_hash loc =>
               (verify_false_positive h issue_type contract_hash loc).2
           end)
        h calls.

(** The ["count"] of a learned pattern. *)
Definition pattern_count (p : val) : Z :=
  match p with
  | VDict d => default 0%Z (num (default VNone (dict_lookup d (KStr "count"))))
  | _ => 0%Z
  end.

Definition sum_counts (ps : list val) : Z :=
  foldr (fun p total => (pattern_count p + total)%Z) 0%Z ps.

(** A pattern as [_update_learning_pattern] writes it, with a count of at
    least one. *)
Definition learned_pattern (p : val) : Prop :=
  ∃ reason location_type count,
    p = VDict [ (KStr "reason", reason);
                (KStr "location_type", location_type);
                (KStr "count", VInt count) ]
    ∧ (1 ≤ count)%Z.

(** The entry of an issue type: its ["false_positive_count"] is the sum of
    the counts of its patterns. *)
Definition learned_entry (e : val) : Prop :=
  ∃ ps,
    e = VDict [ (KStr "false_positive_count", VInt (sum_counts ps));
                (KStr "patterns", VList ps) ]
    ∧ Forall learned_pattern ps.

Definition learned (patterns : val) : Prop :=
  ∃ d, patterns = VDict d ∧ Forall (fun kv => learned_entry kv.2) d.

(** A report as [report_false_positive] stores it. *)
Definition stored_report (r : FalsePositiveReport) : Prop :=
  (∃ t, issue_type r = VStr t) ∧ ∃ loc, location r = VDict loc.

Definition learning_inv (h : Handler) : Prop :=
  learned (issue_patterns h)
  ∧ Forall (fun kv => Forall stored_report kv.2) (false_positives h).

(** One report of type ["reentrancy"] and one of type ["overflow"], the
    first verified twice. *)
Definition sample_calls : list call :=
  [ Report (mkCall "issue-1" "reentrancy" "abc" [(KStr "line", VInt 10)]
              "guarded by a mutex" None "2024-01-01T00:00:00");
    Report (mkCall "issue-2" "overflow" "abc" [(KStr "line", VInt 20)]
              "checked arithmetic" None "2024-01-02T00:00:00");
    Verify "reentrancy" "abc" [(KStr "line", VInt 10)];
    Verify "reentrancy" "abc" [(KStr "line", VInt 10)] ].

End learning_vocabulary.

(* ===================================================================== *)
(** * Part II: properties                                                 *)
(* ===================================================================== *)

(** ** The digest agrees with the published MD5 test vectors *)

Example md5_empty : Md5.hexdigest "" = "d41d8cd98f00b204e9800998ecf8427e".
Proof. vm_compute. reflexivity. Qed.

Example md5_message_digest :
  Md5.hexdigest "message digest" = "f96b697d7cb7938d525a2f31aaf161d0".
Proof. vm_compute. reflexivity. Qed.

(** ** Float division *)
Section floats.
Import Py.
Local Open Scope Z_scope.

(** A third, seven tenths and the quotient of V = 7 * 10^16 - 1 by 10^17,
    which rounds to the same double as seven tenths. *)
Example true_div_examples :
  true_div 1 3 = Ok (Qmake (6004799503160661 * 2 ^ 1020) (2 ^ 1074)%positive)
  ∧ true_div 7 10 = Ok (Qmake (3152519739159347 * 2 ^ 1022) (2 ^ 1074)%positive)
  ∧ true_div (7 * 10 ^ 16 - 1) (10 ^ 17) = true_div 7 10
  ∧ true_div 1 0 = Raise ZeroDivisionError
  ∧ true_div (10 ^ 400) 3 = Raise OverflowError
  ∧ true_div (2 ^ 1024 - 2 ^ 970) 1 = Raise OverflowError
  ∧ true_div (2 ^ 1024 - 2 ^ 970 - 1) 1
    = Ok (Qmake ((2 ^ 53 - 1) * 2 ^ 971 * 2 ^ 1074) (2 ^ 1074)%positive).
Proof. do 6 (split; [vm_compute; reflexivity|]). vm_compute. reflexivity. Qed.

(** The default threshold, the float [0.7], is what [7 / 10] gives. *)
Example default_threshold_value :
  ∃ q, true_div 7 10 = Ok q
       ∧ Qeq_bool q FalsePositiveHandler.default_threshold = true.
Proof. eexists. split; vm_compute; reflexivity. Qed.

Lemma round_half_even_bounds (n d : Z) :
  n / d ≤ round_half_even n d ≤ n / d + 1.
Proof.
  unfold round_half_even.
  destruct (2 * (n mod d) <? d); [lia|].
  destruct (2 * (n mod d) =? d); [|lia].
  destruct (Z.even (n / d)); lia.
Qed.

Lemma round_half_even_exact (q d : Z) :
  0 < d → round_half_even (d * q) d = q.
Proof.
  intros Hd. unfold round_half_even.
  rewrite (Z.mul_comm d q), Z.mod_mul, Z.div_mul by lia.
  destruct (2 * 0 <? d) eqn:E; [done|]. apply Z.ltb_ge in E. lia.
Qed.

Lemma double_units_same (c : Z) : 0 < c → double_units c c = 2 ^ 1074.
Proof.
  intros Hc. unfold double_units.
  rewrite (Z.mul_comm c (2 ^ 1074)), Z.div_mul by lia.
  rewrite Z.log2_pow2 by lia.
  change (Z.max (1074 - 52) 0) with 1022.
  replace (2 ^ 1074 * c) with (c * 2 ^ 1022 * 2 ^ 52).
  2:{ rewrite <- Z.mul_assoc, <- Z.pow_add_r by lia.
      change (1022 + 52) with 1074. lia. }
  rewrite round_half_even_exact by lia.
  rewrite <- Z.pow_add_r by lia. reflexivity.
Qed.

(** A positive int divided by itself is the float [1.0]. *)
Lemma true_div_same (c : Z) :
  0 < c → true_div c c = Ok (Qmake (2 ^ 1074) (2 ^ 1074)%positive).
Proof.
  intros Hc. unfold true_div.
  rewrite (proj2 (Z.eqb_neq c 0)) by lia.
  rewrite Z.abs_eq, double_units_same by lia.
  replace (2 ^ 2098 <=? 2 ^ 1074) with false by (vm_compute; reflexivity).
  rewrite Z.sgn_pos by done. rewrite !Z.mul_1_l. reflexivity.
Qed.

Lemma log2_div_bound (n b k : Z) :
  0 ≤ n → 0 < b → 0 ≤ k → n < b * 2 ^ k → Z.log2 (n / b) < k ∨ n / b = 0.
Proof.
  intros Hn Hb Hk Hlt.
  destruct (Z.eq_dec (n / b) 0) as [|Hne]; [by right|left].
  assert (0 < n / b) by (pose proof (Z.div_pos n b Hn Hb); lia).
  apply Z.log2_lt_pow2; [done|].
  apply Z.div_lt_upper_bound; lia.
Qed.

(** A quotient below [2 ^ k] units rounds to at most [2 ^ k] units. *)
Lemma double_units_bound (a b k : Z) :
  0 ≤ a → 0 < b → 52 ≤ k → a * 2 ^ 1074 < b * 2 ^ k →
  double_units a b ≤ 2 ^ k.
Proof.
  intros Ha Hb Hk Hlt. unfold double_units.
  set (n := a * 2 ^ 1074) in *.
  assert (0 ≤ n) as Hn by (unfold n; apply Z.mul_nonneg_nonneg; lia).
  set (s := n / b).
  assert (0 ≤ s) as Hs by (apply Z.div_pos; lia).
  assert (Z.log2 s < k) as HL.
  { destruct (log2_div_bound n b k Hn Hb ltac:(lia) Hlt) as [?|E]; [done|].
    fold s in E. rewrite E. change (Z.log2 0) with 0. lia. }
  assert (s < 2 ^ (Z.log2 s + 1)) as Hsl.
  { destruct (Z.eq_dec s 0) as [->|]; [vm_compute; reflexivity|].
    replace (Z.log2 s + 1) with (Z.succ (Z.log2 s)) by lia.
    apply Z.log2_spec. lia. }
  pose proof (Z.log2_nonneg s) as HL0.
  assert (n < b * 2 ^ (Z.log2 s + 1)) as Hnb.
  { assert (n < b * (s + 1)).
    { unfold s. pose proof (Z.mul_succ_div_gt n b Hb). lia. }
    assert (b * (s + 1) ≤ b * 2 ^ (Z.log2 s + 1)); [|lia].
    apply Z.mul_le_mono_nonneg_l; lia. }
  destruct (Z.max_spec (Z.log2 s - 52) 0) as [[Hcmp ->]|[Hcmp ->]].
  - rewrite Z.pow_0_r, !Z.mul_1_r. fold s.
    pose proof (round_half_even_bounds n b) as [_ Hr]. fold s in Hr.
    assert (2 ^ (Z.log2 s + 1) ≤ 2 ^ k) by (apply Z.pow_le_mono_r; lia).
    lia.
  - set (drop := Z.log2 s - 52) in *.
    assert (0 < 2 ^ drop) as Hp by (apply Z.pow_pos_nonneg; lia).
    assert (n / (b * 2 ^ drop) < 2 ^ 53) as Hq.
    { apply Z.div_lt_upper_bound; [lia|].
      rewrite <- Z.mul_assoc, <- Z.pow_add_r by lia.
      replace (drop + 53) with (Z.log2 s + 1) by (unfold drop; lia). done. }
    pose proof (round_half_even_bounds n (b * 2 ^ drop)) as [_ Hr].
    assert (round_half_even n (b * 2 ^ drop) * 2 ^ drop ≤ 2 ^ 53 * 2 ^ drop)
      as Hle by (apply Z.mul_le_mono_nonneg_r; lia).
    rewrite <- Z.pow_add_r in Hle by lia.
    assert (2 ^ (53 + drop) ≤ 2 ^ k); [|lia].
    apply Z.pow_le_mono_r; [lia|]. unfold drop. lia.
Qed.

(** An int below [2 ^ 1024] in absolute value divided by an int that is at
    least 2 is within the range of a float. *)
Lemma true_div_bounded (a b : Z) :
  2 ≤ b → Z.abs a < 2 ^ 1024 → ∃ q, true_div a b = Ok q.
Proof.
  intros Hb Ha. unfold true_div.
  rewrite (proj2 (Z.eqb_neq b 0)) by lia.
  rewrite (Z.abs_eq b) by lia.
  assert (double_units (Z.abs a) b ≤ 2 ^ 2097) as Hu.
  { apply double_units_bound; [lia..|].
    assert (Z.abs a * 2 ^ 1074 < 2 ^ 1024 * 2 ^ 1074).
    { apply Z.mul_lt_mono_pos_r; [vm_compute; reflexivity|done]. }
    assert (2 ^ 1024 * 2 ^ 1074 = 2 * 2 ^ 2097) as Heq by (vm_compute; reflexivity).
    assert (0 < 2 ^ 2097) by (vm_compute; reflexivity).
    assert (2 * 2 ^ 2097 ≤ b * 2 ^ 2097) by (apply Z.mul_le_mono_nonneg_r; lia).
    lia. }
  destruct (2 ^ 2098 <=? _) eqn:E; [|eauto].
  apply Z.leb_le in E.
  assert (2 ^ 2097 < 2 ^ 2098) by (vm_compute; reflexivity). lia.
Qed.

End floats.

(** ** Change sets *)
Section changeset_loops.
Import IncrementalAnalyzer.
Variables old_hashes new_hashes : list string.

Lemma classify_line_spec (A M : gset nat) (i : nat) :
  let r := classify_line old_hashes new_hashes (A, M) i in
  (∀ n, n ∈ r.1 ↔ n ∈ A ∨ (n = i + 1 ∧ is_added old_hashes new_hashes i))
  ∧ (∀ n, n ∈ r.2 ↔ n ∈ M ∨ (n = i + 1 ∧ is_modified old_hashes new_hashes i)).
Proof.
  unfold classify_line, is_added, is_modified.
  repeat case_decide; simpl; split; intros n;
    rewrite ?elem_of_union, ?elem_of_singleton; naive_solver lia.
Qed.

Lemma classify_fold (k : nat) (A M : gset nat) :
  let r := foldl (classify_line old_hashes new_hashes) (A, M) (seq 0 k) in
  (∀ n, n ∈ r.1 ↔ n ∈ A ∨ ∃ i, i < k ∧ n = i + 1 ∧ is_added old_hashes new_hashes i)
  ∧ (∀ n, n ∈ r.2 ↔ n ∈ M ∨ ∃ i, i < k ∧ n = i + 1 ∧ is_modified old_hashes new_hashes i).
Proof.
  induction k as [|k IH].
  - simpl. split; intros n; split; auto; intros [?|(i & ? & _)]; auto; lia.
  - rewrite seq_S, foldl_app. cbn [foldl Nat.add].
    destruct (foldl _ _ (seq 0 k)) as [A' M'] eqn:E.
    destruct IH as [IHa IHm]. cbn [fst snd] in IHa, IHm.
    destruct (classify_line_spec A' M' k) as [Sa Sm].
    cbn zeta in *. split; intros n.
    + rewrite Sa, IHa. split.
      * intros [[?|(i & ? & ? & ?)]|[-> ?]]; auto.
        -- right. exists i. auto with lia.
        -- right. exists k. auto with lia.
      * intros [?|(i & Hi & -> & Hc)]; auto.
        destruct (decide (i = k)) as [->|]; auto.
        left. right. exists i. auto with lia.
    + rewrite Sm, IHm. split.
      * intros [[?|(i & ? & ? & ?)]|[-> ?]]; auto.
        -- right. exists i. auto with lia.
        -- right. exists k. auto with lia.
      * intros [?|(i & Hi & -> & Hc)]; auto.
        destruct (decide (i = k)) as [->|]; auto.
        left. right. exists i. auto with lia.
Qed.

Lemma removed_fold (k : nat) (R : gset nat) (n : nat) :
  n ∈ foldl (mark_removed old_hashes new_hashes) R (seq 0 k)
  ↔ n ∈ R ∨ ∃ i, i < k ∧ n = i + 1 ∧ is_removed old_hashes new_hashes i.
Proof.
  induction k as [|k IH].
  - simpl. split; auto. intros [?|(i & ? & _)]; auto; lia.
  - rewrite seq_S, foldl_app. cbn [foldl Nat.add]. unfold mark_removed at 1.
    unfold is_removed in *. case_decide.
    + rewrite elem_of_union, elem_of_singleton, IH. split.
      * intros [->|[?|(i & ? & ? & ?)]]; auto.
        -- right. exists k. auto with lia.
        -- right. exists i. auto with lia.
      * intros [?|(i & Hi & -> & Hc)]; auto.
        destruct (decide (i = k)) as [->|]; auto.
        right. right. exists i. auto with lia.
    + rewrite IH. split.
      * intros [?|(i & ? & ? & ?)]; auto. right. exists i. auto with lia.
      * intros [?|(i & Hi & -> & Hc)]; auto.
        destruct (decide (i = k)) as [->|]; [tauto|].
        right. exists i. auto with lia.
Qed.

End changeset_loops.

Lemma regions_sorted_snoc rs b s e :
  regions_sorted rs → regions_below rs b → b < s →
  regions_sorted (rs ++ [(s, e)]).
Proof.
  intros Hs Hb Hlt j k r1 r2 Hjk H1 H2.
  destruct (decide (k < length rs)) as [Hk|Hk].
  - rewrite lookup_app_l in H1, H2 by lia. eauto.
  - assert (j < length rs) as Hj.
    { apply lookup_lt_Some in H1, H2. rewrite length_app in *. simpl in *. lia. }
    rewrite lookup_app_l in H1 by lia.
    rewrite lookup_app_r in H2 by lia.
    destruct (k - length rs) as [|?]; simpl in H2; [|done].
    inversion H2; subst; simpl.
    assert (r1.2 ≤ b); [|lia].
    apply Hb. eapply list_elem_of_lookup_2; eauto.
Qed.

Lemma covered_snoc rs s e n :
  covered (rs ++ [(s, e)]) n ↔ covered rs n ∨ s ≤ n ≤ e.
Proof.
  unfold covered, IncrementalAnalyzer.in_region. split.
  - intros (r & Hr & Hn). apply elem_of_app in Hr as [Hr|Hr]; [left; eauto|].
    apply list_elem_of_singleton in Hr as ->. right. done.
  - intros [(r & Hr & Hn)|Hn].
    + exists r. split; [apply elem_of_app; auto|done].
    + exists (s, e). split; [apply elem_of_app; right; apply list_elem_of_singleton; done|done].
Qed.

Lemma regions_sorted_unique rs n j k r1 r2 :
  regions_sorted rs →
  rs !! j = Some r1 → rs !! k = Some r2 →
  IncrementalAnalyzer.in_region n r1 → IncrementalAnalyzer.in_region n r2 →
  j = k.
Proof.
  unfold IncrementalAnalyzer.in_region. intros Hs H1 H2 [? ?] [? ?].
  destruct (lt_eq_lt_dec j k) as [[Hlt| ->]|Hlt]; [|done|].
  - pose proof (Hs _ _ _ _ Hlt H1 H2). lia.
  - pose proof (Hs _ _ _ _ Hlt H2 H1). lia.
Qed.

Section changeset_regions.
Import IncrementalAnalyzer.
Variables old_hashes new_hashes : list string.
Variable removed : gset nat.

Lemma unchanged_at_true (i : nat) :
  unchanged_at old_hashes new_hashes removed i = true
  ↔ (i + 1 ∉ removed) ∧ same_or_past old_hashes new_hashes i.
Proof.
  unfold unchanged_at, same_or_past.
  by rewrite andb_true_iff, orb_true_iff, !bool_decide_eq_true.
Qed.

Lemma extends_at_true (i : nat) :
  extends_at old_hashes new_hashes removed i = true
  ↔ i + 1 < length old_hashes ∧ (i + 1 ∉ removed)
    ∧ same_or_past old_hashes new_hashes (i + 1).
Proof.
  unfold extends_at, same_or_past.
  by rewrite !andb_true_iff, orb_true_iff, !bool_decide_eq_true.
Qed.

Lemma extend_region_spec (fuel i : nat) :
  i < length old_hashes → length old_hashes ≤ i + fuel →
  ∃ i', extend_region old_hashes new_hashes removed fuel i (i + 1) = Some (i', i' + 1)
        ∧ i ≤ i' < length old_hashes
        ∧ (∀ j, i ≤ j < i' → extends_at old_hashes new_hashes removed j = true)
        ∧ extends_at old_hashes new_hashes removed i' = false.
Proof.
  revert i. induction fuel as [|fuel IH]; intros i Hi Hfuel; [lia|].
  simpl. destruct (extends_at old_hashes new_hashes removed i) eqn:Hc.
  - pose proof Hc as (Hlt & _)%extends_at_true.
    destruct (IH (i + 1)) as (i' & Heq & Hr & Hall & Hstop); [lia..|].
    exists i'. split; [done|]. split; [lia|]. split; [|done].
    intros j Hj. destruct (decide (j = i)) as [->|]; [done|].
    apply Hall. lia.
  - exists i. split; [done|]. split; [lia|]. split; [intros; lia|done].
Qed.

(** The indices a region runs over, after its first, are in an unchanged
    region in the sense of [in_unchanged]. *)
Lemma extended_in_unchanged (i i' k : nat) :
  unchanged_at old_hashes new_hashes removed i = true →
  (∀ j, i ≤ j < i' → extends_at old_hashes new_hashes removed j = true) →
  i ≤ k ≤ i' →
  in_unchanged old_hashes new_hashes removed k.
Proof.
  intros Hu Hall Hk. destruct (decide (k = i)) as [->|Hne]; [by left|].
  right. split; [lia|].
  assert (extends_at old_hashes new_hashes removed (k - 1) = true) as He
    by (apply Hall; lia).
  apply extends_at_true in He as (_ & Hnr & Hsame).
  replace (k - 1 + 1) with k in * by lia. split; [|done].
  destruct (decide (k - 1 = i)) as [->|Hne']; [done|].
  assert (extends_at old_hashes new_hashes removed (k - 1 - 1) = true) as He'
    by (apply Hall; lia).
  apply extends_at_true in He' as (_ & _ & Hsame').
  replace (k - 1 - 1 + 1) with (k - 1) in * by lia.
  apply unchanged_at_true. by replace (k - 1 + 1) with k by lia.
Qed.

(** Where the scan starts a new pass of its outer loop, no region goes on
    from the index before. *)
Lemma not_continued (i : nat) :
  i < length old_hashes →
  i = 0 ∨ unchanged_at old_hashes new_hashes removed (i - 1) = false
  ∨ extends_at old_hashes new_hashes removed (i - 1) = false →
  unchanged_at old_hashes new_hashes removed i = false →
  ¬ in_unchanged old_hashes new_hashes removed i.
Proof.
  intros Hi Hinv Hu [Hu'|(Hpos & Hprev & Hsame)]; [congruence|].
  destruct Hinv as [->|[Hinv|Hinv]]; [lia|congruence|].
  apply unchanged_at_true in Hprev as [Hnr _].
  assert (extends_at old_hashes new_hashes removed (i - 1) = true); [|congruence].
  apply extends_at_true. replace (i - 1 + 1) with i in * by lia. done.
Qed.

Lemma scan_regions_spec (fuel i : nat) (regions : list (nat * nat)) :
  i ≤ length old_hashes → length old_hashes < i + fuel →
  regions_sorted regions → regions_below regions i →
  i = 0 ∨ unchanged_at old_hashes new_hashes removed (i - 1) = false
  ∨ extends_at old_hashes new_hashes removed (i - 1) = false →
  ∃ rs, scan_regions old_hashes new_hashes removed fuel i regions = Some rs
        ∧ regions_sorted rs
        ∧ ∀ n, covered rs n
               ↔ covered regions n
                 ∨ (i < n ≤ length old_hashes
                    ∧ in_unchanged old_hashes new_hashes removed (n - 1)).
Proof.
  revert i regions.
  induction fuel as [|fuel IH]; intros i regions Hi Hfuel Hsort Hbelow Hinv; [lia|].
  cbn [scan_regions]. case_bool_decide as Hlt.
  - destruct (unchanged_at old_hashes new_hashes removed i) eqn:Hu.
    + destruct (extend_region_spec (S (length old_hashes)) i)
        as (i' & -> & Hr & Hall & Hstop); [lia..|].
      rewrite bool_decide_eq_true_2 by lia.
      destruct (IH (i' + 1) (regions ++ [(i + 1, i' + 1)]))
        as (rs & -> & Hs' & Hcov); [lia..| | | |].
      * eapply regions_sorted_snoc; eauto. lia.
      * intros r Hr'. apply elem_of_app in Hr' as [Hr'|Hr'].
        -- apply Hbelow in Hr'. lia.
        -- apply list_elem_of_singleton in Hr' as ->. simpl. lia.
      * right; right. by replace (i' + 1 - 1) with i' by lia.
      * exists rs. split; [done|]. split; [done|].
        intros n. rewrite Hcov, covered_snoc. split.
        -- intros [[?|Hn]|Hn]; [by left| |right; split; [lia|tauto]].
           right. split; [lia|].
           apply (extended_in_unchanged i i'); [done..|lia].
        -- intros [?|[Hn Hun]]; [by left; left|].
           destruct (decide (n ≤ i' + 1)); [left; right; lia|right; split; [lia|done]].
    + destruct (IH (i + 1) regions) as (rs & -> & Hs' & Hcov); [lia..|done| | |].
      * intros r Hr'. apply Hbelow in Hr'. lia.
      * right; left. by replace (i + 1 - 1) with i by lia.
      * exists rs. split; [done|]. split; [done|].
        intros n. rewrite Hcov. split.
        -- intros [?|[Hn Hun]]; [by left|right; split; [lia|done]].
        -- intros [?|[Hn Hun]]; [by left|].
           destruct (decide (n = i + 1)) as [->|].
           { replace (i + 1 - 1) with i in Hun by lia.
             by apply not_continued in Hun. }
           right. split; [lia|done].
  - exists regions. split; [done|]. split; [done|].
    intros n. split; [by left|]. intros [?|[? _]]; [done|lia].
Qed.

End changeset_regions.

Section changeset_properties.
Import IncrementalAnalyzer.

(** Inside the old revision a region can start at an index exactly when
    both revisions have the same digest there. *)
Lemma unchanged_at_iff (oh nh : list string) (R : gset nat) (i : nat) :
  (∀ n, n ∈ R ↔ ∃ i, i < length oh ∧ n = i + 1 ∧ is_removed oh nh i) →
  i < length oh →
  unchanged_at oh nh R i = true ↔ i < length nh ∧ nh !!! i = oh !!! i.
Proof.
  intros HR Hi. unfold unchanged_at.
  rewrite andb_true_iff, orb_true_iff, !bool_decide_eq_true, HR.
  unfold is_removed. split.
  - intros [Hnr Hc].
    assert (i < length nh) as Hlt.
    { destruct (decide (i < length nh)); [done|].
      exfalso. apply Hnr. exists i. split; [done|]. split; [done|]. left. lia. }
    split; [done|]. destruct Hc; [lia|done].
  - intros [Hlt Heq]. split; [|by right].
    intros (j & Hj & Hij & Hc). assert (j = i) as -> by lia.
    destruct Hc as [?|Hc]; [lia|]. apply Hc. rewrite <- Heq.
    apply list_elem_of_lookup_total_2. done.
Qed.

(** The indices of the unchanged regions: those with the same digest in
    both revisions, and the first index past the end of the new revision
    when its last line has the same digest in both. *)
Lemma in_unchanged_iff (oh nh : list string) (R : gset nat) (i : nat) :
  (∀ n, n ∈ R ↔ ∃ i, i < length oh ∧ n = i + 1 ∧ is_removed oh nh i) →
  i < length oh → 0 < length nh →
  in_unchanged oh nh R i
  ↔ same_at oh nh i ∨ (i = length nh ∧ same_at oh nh (length nh - 1)).
Proof.
  intros HR Hi Hpos. unfold in_unchanged, same_at, same_or_past. split.
  - intros [Hu|(Hi1 & Hu & Hsame)].
    + apply (unchanged_at_iff _ _ _ _ HR Hi) in Hu. left. tauto.
    + apply (unchanged_at_iff _ _ _ _ HR) in Hu as [Hlt Heq]; [|lia].
      destruct (decide (i < length nh)) as [Hin|Hout].
      * left. split; [done|]. split; [done|]. destruct Hsame; [lia|done].
      * right. assert (i = length nh) as -> by lia.
        split; [done|]. split; [lia|]. done.
  - intros [(_ & Hlt & Heq)|(-> & Hlt' & Hlt & Heq)].
    + left. by apply (unchanged_at_iff _ _ _ _ HR Hi).
    + right. split; [lia|]. split; [|left; lia].
      apply (unchanged_at_iff _ _ _ _ HR); [lia|done].
Qed.

(** The result of [compute_changeset] in terms of the per-index tests. *)
Lemma compute_changeset_char (old_code new_code : string) :
  let oh := line_hashes (split_lines old_code) in
  let nh := line_hashes (split_lines new_code) in
  ∃ cs, compute_changeset old_code new_code = Some cs
    ∧ (∀ n, n ∈ added_lines cs ↔ ∃ i, i < length nh ∧ n = i + 1 ∧ is_added oh nh i)
    ∧ (∀ n, n ∈ modified_lines cs ↔ ∃ i, i < length nh ∧ n = i + 1 ∧ is_modified oh nh i)
    ∧ (∀ n, n ∈ removed_lines cs ↔ ∃ i, i < length oh ∧ n = i + 1 ∧ is_removed oh nh i)
    ∧ regions_sorted (unchanged_regions cs)
    ∧ (∀ n, covered (unchanged_regions cs) n
            ↔ 0 < n ≤ length oh
              ∧ (same_at oh nh (n - 1)
                 ∨ (n = length nh + 1 ∧ same_at oh nh (length nh - 1)))).
Proof.
  intros oh nh. unfold compute_changeset. fold oh nh.
  destruct (classify_fold oh nh (length (split_lines new_code)) ∅ ∅) as [Ha Hm].
  destruct (foldl (classify_line oh nh) _ _) as [A M]. cbn [fst snd] in Ha, Hm.
  set (R := foldl (mark_removed oh nh) ∅ (seq 0 (length (split_lines old_code)))).
  destruct (scan_regions_spec oh nh R (S (length (split_lines old_code))) 0 [])
    as (rs & Hscan & Hsorted & Hcov).
  { lia. }
  { unfold oh, line_hashes. rewrite length_fmap. lia. }
  { intros j k r1 r2 _ H. rewrite lookup_nil in H. done. }
  { intros r Hr. apply elem_of_nil in Hr. done. }
  { by left. }
  rewrite Hscan. simpl. eexists. split; [done|]. simpl.
  assert (Hln : length nh = length (split_lines new_code))
    by (unfold nh, line_hashes; apply length_fmap).
  assert (Hlo : length oh = length (split_lines old_code))
    by (unfold oh, line_hashes; apply length_fmap).
  assert (HR : ∀ n, n ∈ R ↔ ∃ i, i < length oh ∧ n = i + 1 ∧ is_removed oh nh i).
  { intros n. unfold R. rewrite removed_fold, Hlo. set_solver. }
  assert (Hpos : 0 < length nh).
  { rewrite Hln. clear. induction new_code as [|a s IH]; simpl; [lia|].
    destruct (Ascii.eqb a "010"); simpl; [lia|].
    destruct (split_lines s); simpl in *; lia. }
  split; [|split; [|split; [|split]]].
  - intros n. rewrite Ha, Hln. set_solver.
  - intros n. rewrite Hm, Hln. set_solver.
  - done.
  - done.
  - intros n. rewrite Hcov. split.
    + intros [(r & Hr & _)|[Hn Hin]]; [by apply elem_of_nil in Hr|].
      split; [lia|].
      apply (in_unchanged_iff oh nh R (n - 1) HR) in Hin; [|lia|done].
      destruct Hin as [?|[? ?]]; [by left|right; split; [lia|done]].
    + intros [Hn Hin]. right. split; [lia|].
      apply (in_unchanged_iff oh nh R (n - 1) HR); [lia|done|].
      destruct Hin as [?|[? ?]]; [by left|right; split; [lia|done]].
Qed.

End changeset_properties.

Section changeset_claims.
Import IncrementalAnalyzer.

Lemma split_lines_nonempty (s : string) : 0 < length (split_lines s).
Proof.
  induction s as [|a s IH]; simpl; [lia|].
  destruct (Ascii.eqb a "010"); simpl; [lia|].
  destruct (split_lines s); simpl in *; lia.
Qed.

(** No line number is both added and modified, or both modified and
    removed. *)
Lemma compute_changeset_disjoint (old_code new_code : string) (cs : ChangeSet) :
  compute_changeset old_code new_code = Some cs →
  added_lines cs ## modified_lines cs ∧ modified_lines cs ## removed_lines cs.
Proof.
  intros Heq.
  destruct (compute_changeset_char old_code new_code)
    as (cs' & Hcs & Ha & Hm & Hr & _).
  assert (cs' = cs) as -> by congruence.
  split.
  - intros n Hna Hnm. apply Ha in Hna as (i & _ & -> & Hi).
    apply Hm in Hnm as (j & _ & Hij & Hj). assert (j = i) as -> by lia.
    unfold is_added, is_modified in *. naive_solver lia.
  - intros n Hnm Hnr. apply Hm in Hnm as (i & Hlt & -> & Hi).
    apply Hr in Hnr as (j & _ & Hij & Hj). assert (j = i) as -> by lia.
    unfold is_removed, is_modified in *. naive_solver lia.
Qed.

(** C2, as stated, fails: replacing the only line ["a"] by ["b"] puts line 1
    in both [added_lines] and [removed_lines]. *)
Lemma compute_changeset_not_pairwise_disjoint :
  ∃ cs, compute_changeset "a" "b" = Some cs
        ∧ ¬ (pairwise_disjoint cs ∧ new_lines_partitioned "b" cs).
Proof.
  exists (mkChangeSet {[1]} ∅ {[1]} []). split; [vm_compute; reflexivity|].
  intros [(_ & H & _) _]. simpl in H. set_solver.
Qed.

(** C2 (amended): [compute_changeset] always returns; in its result
    [added_lines] and [modified_lines] are disjoint, [modified_lines] and
    [removed_lines] are disjoint, and every line number of the new revision
    is in exactly one of [added_lines], [modified_lines] or an unchanged
    region (and in only one region). *)
Theorem compute_changeset_partition (old_code new_code : string) :
  ∃ cs, compute_changeset old_code new_code = Some cs
    ∧ added_lines cs ## modified_lines cs
    ∧ modified_lines cs ## removed_lines cs
    ∧ new_lines_partitioned new_code cs.
Proof.
  destruct (compute_changeset_char old_code new_code)
    as (cs & Hcs & Ha & Hm & Hr & Hsorted & Hcov).
  set (oh := line_hashes (split_lines old_code)) in *.
  set (nh := line_hashes (split_lines new_code)) in *.
  assert (Hln : length nh = length (split_lines new_code))
    by (unfold nh, line_hashes; apply length_fmap).
  destruct (compute_changeset_disjoint _ _ _ Hcs) as [Hdam Hdmr].
  exists cs. split; [done|]. split; [done|]. split; [done|].
  intros n Hn.
  { split; [|intros; eapply regions_sorted_unique; eauto].
    assert (Hidx : ∀ P : nat → Prop,
               (∃ i, i < length nh ∧ n = i + 1 ∧ P i) ↔ P (n - 1)).
    { intros P. split.
      - intros (i & _ & -> & HP). by replace (i + 1 - 1) with i by lia.
      - intros HP. exists (n - 1). split; [lia|]. split; [lia|done]. }
    assert (Hsame : covered (unchanged_regions cs) n ↔ same_at oh nh (n - 1)).
    { rewrite Hcov. unfold same_at. split.
      - intros [_ [?|[? _]]]; [done|lia].
      - intros Hs. split; [lia|by left]. }
    unfold exactly_one. rewrite Ha, Hm, Hsame, !Hidx.
    unfold is_added, is_modified, same_at.
    destruct (decide (n - 1 < length oh)) as [Hlt|Hge].
    + destruct (decide (oh !!! (n - 1) = nh !!! (n - 1))) as [Heq|Hne].
      * right; right. rewrite Heq. split; [|split]; [naive_solver lia..|].
        split; [lia|]. split; [lia|done].
      * destruct (decide (oh !!! (n - 1) ∈ nh)).
        -- right; left. split; [|split]; [naive_solver lia|done|].
           intros (_ & _ & ?). congruence.
        -- left. split; [|split]; [by right|naive_solver|].
           intros (_ & _ & ?). congruence.
    + left. split; [|split].
      * left. lia.
      * intros (? & _). lia.
      * intros (? & _). lia. }
Qed.

(** With identical revisions every index is unchanged and the scan yields
    the single region [(1, number of lines)]. *)
Lemma scan_regions_identical (hs : list string) :
  0 < length hs →
  scan_regions hs hs ∅ (S (length hs)) 0 [] = Some [(1, length hs)].
Proof.
  intros Hpos.
  assert (Hu : ∀ j, unchanged_at hs hs ∅ j = true).
  { intros j. unfold unchanged_at.
    rewrite (bool_decide_eq_true_2 (j + 1 ∉ ∅)) by set_solver.
    rewrite (bool_decide_eq_true_2 (hs !!! j = hs !!! j)) by done.
    by rewrite orb_true_r. }
  cbn [scan_regions]. rewrite bool_decide_eq_true_2 by lia. rewrite Hu.
  destruct (extend_region_spec hs hs ∅ (S (length hs)) 0)
    as (i' & -> & Hr & _ & Hstop); [lia..|].
  assert (i' + 1 = length hs) as Hi'.
  { destruct (decide (i' + 1 < length hs)) as [Hlt|]; [|lia].
    assert (extends_at hs hs ∅ i' = true); [|congruence].
    apply extends_at_true. split; [done|]. split; [set_solver|by right]. }
  rewrite bool_decide_eq_true_2 by lia. rewrite Hi'. simpl.
  destruct (length hs) as [|m] eqn:E; [lia|].
  cbn [scan_regions]. rewrite E, bool_decide_eq_false_2 by lia. done.
Qed.

Lemma compute_changeset_identical (code : string) :
  compute_changeset code code
  = Some (mkChangeSet ∅ ∅ ∅ [(1, length (split_lines code))]).
Proof.
  unfold compute_changeset.
  set (hs := line_hashes (split_lines code)).
  assert (Hl : length hs = length (split_lines code))
    by (unfold hs, line_hashes; apply length_fmap).
  destruct (classify_fold hs hs (length (split_lines code)) ∅ ∅) as [Ha Hm].
  destruct (foldl (classify_line hs hs) _ _) as [A M]. cbn [fst snd] in Ha, Hm.
  assert (A = ∅) as ->.
  { apply set_eq. intros n. rewrite Ha. unfold is_added. split; [|set_solver].
    intros [?|(i & Hi & _ & [?|[? _]])]; [set_solver|lia|done]. }
  assert (M = ∅) as ->.
  { apply set_eq. intros n. rewrite Hm. unfold is_modified. split; [|set_solver].
    intros [?|(i & Hi & _ & _ & ? & _)]; [set_solver|done]. }
  assert (foldl (mark_removed hs hs) ∅ (seq 0 (length (split_lines code))) = ∅) as ->.
  { apply set_eq. intros n. rewrite removed_fold. unfold is_removed.
    split; [|set_solver].
    intros [?|(i & Hi & _ & [?|Hn])]; [set_solver|lia|].
    exfalso. apply Hn. apply list_elem_of_lookup_total_2. lia. }
  rewrite <- Hl. rewrite scan_regions_identical; [done|].
  rewrite Hl. apply split_lines_nonempty.
Qed.

(** C9, as stated, fails: with empty old content and the new content
    ["a\n"] (lines ["a"] and [""]), line 1 is classified as modified, not
    added. *)
Lemma compute_changeset_empty_old_modified :
  ∃ cs, compute_changeset "" (String "a" (String "010" EmptyString)) = Some cs
        ∧ 1 ∈ modified_lines cs
        ∧ ¬ all_lines_added (String "a" (String "010" EmptyString)) cs.
Proof.
  exists (mkChangeSet {[2]} {[1]} ∅ []). split; [vm_compute; reflexivity|].
  split; [simpl; set_solver|].
  intros Hall. destruct (Hall 1) as [_ Hnm]; [simpl; lia|].
  apply Hnm. simpl. set_solver.
Qed.

(** C9 (amended).  Empty old content is the single empty line: every line
    of the new content after the first is added and not modified; the first
    line is unchanged when its digest is that of the empty line, modified
    when it differs and some new line has the empty line's digest, and
    added otherwise.  Identical contents give empty [added_lines],
    [modified_lines] and [removed_lines] and the one unchanged region
    spanning all lines. *)
Theorem compute_changeset_edge_cases (code : string) :
  (∃ cs, compute_changeset "" code = Some cs
     ∧ (∀ n, 2 ≤ n ≤ length (split_lines code) →
             n ∈ added_lines cs ∧ n ∉ modified_lines cs)
     ∧ let h0 := Md5.hexdigest "" in
       let nh := line_hashes (split_lines code) in
       (nh !!! 0 = h0 →
          (1 ∉ added_lines cs) ∧ (1 ∉ modified_lines cs)
          ∧ covered (unchanged_regions cs) 1)
       ∧ (nh !!! 0 ≠ h0 → h0 ∈ nh →
          1 ∈ modified_lines cs ∧ 1 ∉ added_lines cs)
       ∧ (nh !!! 0 ≠ h0 → h0 ∉ nh →
          1 ∈ added_lines cs ∧ 1 ∉ modified_lines cs))
  ∧ compute_changeset code code
    = Some (mkChangeSet ∅ ∅ ∅ [(1, length (split_lines code))]).
Proof.
  split; [|apply compute_changeset_identical].
  destruct (compute_changeset_char "" code)
    as (cs & Hcs & Ha & Hm & Hr & Hsorted & Hcov).
  destruct (compute_changeset_disjoint _ _ _ Hcs) as [Hdam _].
  change (line_hashes (split_lines "")) with [Md5.hexdigest ""] in *.
  set (nh := line_hashes (split_lines code)) in *.
  assert (Hln : length nh = length (split_lines code))
    by (unfold nh, line_hashes; apply length_fmap).
  pose proof (split_lines_nonempty code) as Hpos.
  exists cs. split; [done|]. split.
  - intros n Hn. assert (n ∈ added_lines cs) as Hin.
    { apply Ha. exists (n - 1). split; [lia|]. split; [lia|]. left. simpl. lia. }
    split; [done|]. intros ?. by apply (Hdam n).
  - cbn zeta. unfold is_added, is_modified in *. simpl in *.
    split; [|split].
    + intros Heq. split; [|split].
      * intros (i & _ & Hi & [?|[Hne _]])%Ha; [lia|].
        assert (i = 0) as -> by lia. simpl in Hne. congruence.
      * intros (i & _ & Hi & _ & Hne & _)%Hm.
        assert (i = 0) as -> by lia. simpl in Hne. congruence.
      * apply Hcov. split; [simpl; lia|]. left. unfold same_at. simpl.
        split; [lia|]. split; [lia|done].
    + intros Hne Hin.
      assert (1 ∈ modified_lines cs) as H1.
      { apply Hm. exists 0. simpl. split; [lia|]. split; [lia|].
        split; [lia|]. split; [congruence|done]. }
      split; [done|]. intros ?. by apply (Hdam 1).
    + intros Hne Hnin.
      assert (1 ∈ added_lines cs) as H1.
      { apply Ha. exists 0. simpl. split; [lia|]. split; [lia|].
        right. split; [congruence|done]. }
      split; [done|]. intros ?. by apply (Hdam 1).
Qed.

End changeset_claims.

(** ** Topological order of the import graph *)
Section toposort.
Import MultiFileAnalyzer.

Lemma occ_nil v : occ v [] = 0.
Proof. done. Qed.

Lemma occ_cons v x ns :
  occ v (x :: ns) = (if decide (x = v) then 1 else 0) + occ v ns.
Proof. unfold occ. rewrite filter_cons. by case_decide. Qed.

Lemma occ_zero v ns : occ v ns = 0 ↔ v ∉ ns.
Proof.
  induction ns as [|x ns IH]; [rewrite occ_nil; set_solver|].
  rewrite occ_cons, not_elem_of_cons. case_decide; naive_solver lia.
Qed.

Lemma occ_pos v ns : 0 < occ v ns ↔ v ∈ ns.
Proof.
  destruct (decide (v ∈ ns)) as [Hin|Hnin].
  - split; [done|]. intros _. destruct (occ v ns) eqn:E; [|lia].
    apply occ_zero in E. done.
  - apply occ_zero in Hnin as E. rewrite E. split; [lia|done].
Qed.

Variable graph : Graph.
Hypothesis keys_unique : NoDup graph.*1.

Lemma neighbors_lookup u ns : (u, ns) ∈ graph → neighbors graph u = ns.
Proof.
  unfold neighbors. intros Hin.
  destruct (list_find _ graph) as [[i [u' ns']]|] eqn:E.
  - apply list_find_Some in E as (Hi & Hu & _). simpl in Hu. subst u'.
    apply list_elem_of_lookup in Hin as [j Hj].
    assert (i = j) as ->; [|congruence].
    eapply NoDup_lookup; [exact keys_unique| |].
    + rewrite list_lookup_fmap, Hi. done.
    + rewrite list_lookup_fmap, Hj. done.
  - apply list_find_None in E. rewrite Forall_forall in E.
    exfalso. by apply (E _ Hin).
Qed.

Lemma neighbors_not_key u : u ∉ graph.*1 → neighbors graph u = [].
Proof.
  unfold neighbors. intros Hnin.
  destruct (list_find _ graph) as [[i [u' ns']]|] eqn:E; [|done].
  apply list_find_Some in E as (Hi & Hu & _). simpl in Hu. subst u'.
  exfalso. apply Hnin. apply list_elem_of_fmap. exists (u, ns'). split; [done|].
  eapply list_elem_of_lookup_2; eauto.
Qed.

Lemma edge_neighbors u v : edge graph u v ↔ v ∈ neighbors graph u.
Proof.
  split.
  - intros (ns & Hin & Hv). by rewrite (neighbors_lookup _ _ Hin).
  - intros Hv. destruct (decide (u ∈ graph.*1)) as [Hk|Hk].
    + apply list_elem_of_fmap in Hk as ([u' ns] & -> & Hin). simpl in *.
      rewrite (neighbors_lookup _ _ Hin) in Hv. by exists ns.
    + rewrite neighbors_not_key in Hv by done. by apply elem_of_nil in Hv.
Qed.

Lemma edge_nodes u v : edge graph u v → u ∈ graph.*1 ∧ v ∈ (nodes graph).
Proof.
  intros (ns & Hin & Hv). split.
  - apply list_elem_of_fmap. by exists (u, ns).
  - unfold nodes. apply elem_of_union_r, elem_of_list_to_set.
    apply list_elem_of_join. exists ns. split; [done|].
    apply list_elem_of_fmap. by exists (u, ns).
Qed.

Lemma pending_in_nonzero g done v :
  pending_in g done v ≠ 0 → ∃ u ns, (u, ns) ∈ g ∧ v ∈ ns ∧ u ∉ done.
Proof.
  induction g as [|[u ns] g IH]; simpl; [done|].
  intros Hne. case_decide as Hd.
  - destruct IH as (u' & ns' & ? & ? & ?); [lia|].
    exists u', ns'. split; [by right|done].
  - destruct (decide (occ v ns = 0)) as [Hz|Hnz].
    + destruct IH as (u' & ns' & ? & ? & ?); [lia|].
      exists u', ns'. split; [by right|done].
    + exists u, ns. split; [by left|]. split; [|done]. apply occ_pos. lia.
Qed.

Lemma pending_in_zero g done v u ns :
  pending_in g done v = 0 → (u, ns) ∈ g → v ∈ ns → u ∈ done.
Proof.
  induction g as [|[u' ns'] g IH]; simpl; intros Hz Hin Hv.
  - by apply elem_of_nil in Hin.
  - apply elem_of_cons in Hin as [[= <- <-]|Hin].
    + case_decide; [done|]. apply occ_pos in Hv. lia.
    + apply IH; [lia|done..].
Qed.

Lemma pending_in_snoc_other g done node v :
  node ∉ g.*1 → pending_in g (done ++ [node]) v = pending_in g done v.
Proof.
  induction g as [|[u ns] g IH]; simpl; [done|].
  intros Hn. apply not_elem_of_cons in Hn as [Hne Hn].
  rewrite IH by done. f_equal.
  repeat case_decide; try done; set_solver.
Qed.

Lemma pending_in_snoc_key g done node ns v :
  NoDup g.*1 → (node, ns) ∈ g → node ∉ done →
  pending_in g (done ++ [node]) v + occ v ns = pending_in g done v.
Proof.
  induction g as [|[u ns'] g IH]; simpl; intros Hnd Hin Hdone.
  - by apply elem_of_nil in Hin.
  - apply NoDup_cons in Hnd as [Hu Hnd].
    apply elem_of_cons in Hin as [[= <- <-]|Hin].
    + rewrite pending_in_snoc_other by done.
      rewrite decide_True by set_solver. rewrite decide_False by done. lia.
    + assert (u ≠ node) as Hne.
      { intros ->. apply Hu. apply list_elem_of_fmap. by exists (node, ns). }
      rewrite <- (IH Hnd Hin Hdone).
      repeat case_decide; try lia; set_solver.
Qed.

Lemma pending_in_snoc done node v :
  node ∉ done →
  pending_in graph (done ++ [node]) v + occ v (neighbors graph node)
  = pending_in graph done v.
Proof.
  intros Hdone. destruct (decide (node ∈ graph.*1)) as [Hk|Hk].
  - apply list_elem_of_fmap in Hk as ([u ns] & -> & Hin). simpl.
    rewrite (neighbors_lookup _ _ Hin).
    by apply pending_in_snoc_key.
  - rewrite neighbors_not_key, occ_nil, pending_in_snoc_other by done. lia.
Qed.

(** *** The [in_degree] table *)

Lemma degree_insert (m : gmap string Z) k z v :
  degree (<[k := z]> m) v = if decide (k = v) then z else degree m v.
Proof.
  unfold degree. case_decide as Hk.
  - subst. by rewrite lookup_insert_eq.
  - by rewrite lookup_insert_ne.
Qed.

Lemma increment_fold (ns : list string) (m : gmap string Z) :
  let m' := foldl (fun m n => <[n := (degree m n + 1)%Z]> m) m ns in
  (∀ v, degree m' v = (degree m v + Z.of_nat (occ v ns))%Z)
  ∧ dom m' = dom m ∪ list_to_set ns.
Proof.
  revert m. induction ns as [|n ns IH]; intros m; simpl.
  - split; [intros v; rewrite occ_nil; lia|set_solver].
  - destruct (IH (<[n := (degree m n + 1)%Z]> m)) as [Hd Hdom].
    cbn zeta in *. split.
    + intros v. rewrite Hd, degree_insert, occ_cons. case_decide; subst; lia.
    + rewrite Hdom, dom_insert_L. set_solver.
Qed.

Lemma zero_fold (l : Graph) (m : gmap string Z) :
  let m' := foldl (fun m kv => <[kv.1 := 0%Z]> m) m l in
  ((∀ v, degree m v = 0%Z) → ∀ v, degree m' v = 0%Z)
  ∧ dom m' = dom m ∪ list_to_set l.*1.
Proof.
  revert m. induction l as [|kv l IH]; intros m; simpl.
  - split; [done|set_solver].
  - destruct (IH (<[kv.1 := 0%Z]> m)) as [Hd Hdom]. cbn zeta in *. split.
    + intros Hz. apply Hd. intros v. rewrite degree_insert. by case_decide.
    + rewrite Hdom, dom_insert_L. set_solver.
Qed.

Lemma count_fold (l : Graph) (m : gmap string Z) :
  Forall (fun kv => neighbors graph kv.1 = kv.2) l →
  let m' :=
    foldl (fun m kv =>
             foldl (fun m n => <[n := (degree m n + 1)%Z]> m) m
                   (neighbors graph kv.1)) m l in
  (∀ v, degree m' v = (degree m v + Z.of_nat (pending_in l [] v))%Z)
  ∧ dom m' = dom m ∪ list_to_set (mjoin l.*2).
Proof.
  revert m. induction l as [|[u ns] l IH]; intros m Hall; simpl.
  - split; [intros; lia|set_solver].
  - apply Forall_cons in Hall as [Hu Hall]. simpl in Hu. rewrite Hu.
    destruct (increment_fold ns m) as [Hd1 Hdom1].
    destruct (IH (foldl (fun m n => <[n := (degree m n + 1)%Z]> m) m ns) Hall)
      as [Hd2 Hdom2].
    cbn zeta in *. split.
    + intros v. rewrite Hd2, Hd1. lia.
    + rewrite Hdom2, Hdom1, list_to_set_app_L. set_solver.
Qed.

Lemma count_in_degrees_spec :
  (∀ v, degree (count_in_degrees graph) v = Z.of_nat (pending_in graph [] v))
  ∧ dom (count_in_degrees graph) = (nodes graph).
Proof.
  unfold count_in_degrees.
  destruct (zero_fold graph ∅) as [Hz Hzd].
  destruct (count_fold graph (foldl (fun m kv => <[kv.1 := 0%Z]> m) ∅ graph))
    as [Hd Hdom].
  { apply Forall_forall. intros [u ns] Hin. by apply neighbors_lookup. }
  cbn zeta in *. split.
  - intros v. rewrite Hd, Hz; [lia|]. intros w. unfold degree.
    by rewrite lookup_empty.
  - rewrite Hdom, Hzd. unfold nodes. set_solver.
Qed.

(** *** One pass of the [while] loop *)

Lemma relax_fold (ns : list string) (m : gmap string Z) (q : list string) :
  (∀ v, (Z.of_nat (occ v ns) ≤ degree m v)%Z) →
  ∃ m' extra,
    foldl relax (m, q) ns = (m', q ++ extra)
    ∧ (∀ v, degree m' v = (degree m v - Z.of_nat (occ v ns))%Z)
    ∧ dom m' = dom m ∪ list_to_set ns
    ∧ NoDup extra
    ∧ (∀ v, v ∈ extra ↔ v ∈ ns ∧ degree m v = Z.of_nat (occ v ns)).
Proof.
  revert m q. induction ns as [|n ns IH]; intros m q Hle.
  - exists m, []. simpl. rewrite app_nil_r. split; [done|].
    split; [intros v; rewrite occ_nil; lia|]. split; [set_solver|].
    split; [constructor|]. intros v. set_solver.
  - cbn [foldl]. unfold relax at 2.
    set (m1 := <[n := (degree m n - 1)%Z]> m).
    assert (Hd1 : ∀ v, degree m1 v
                       = if decide (n = v) then (degree m n - 1)%Z else degree m v).
    { intros v. unfold m1. apply degree_insert. }
    assert (Hle1 : ∀ v, (Z.of_nat (occ v ns) ≤ degree m1 v)%Z).
    { intros v. specialize (Hle v). rewrite occ_cons in Hle. rewrite Hd1.
      case_decide; subst; lia. }
    assert (Hdeg : ∀ m' v,
               (∀ v, degree m' v = (degree m1 v - Z.of_nat (occ v ns))%Z) →
               degree m' v = (degree m v - Z.of_nat (occ v (n :: ns)))%Z).
    { intros m' v ->. rewrite Hd1, occ_cons. case_decide; subst; lia. }
    assert (Hdom1 : dom m1 = dom m ∪ {[n]}).
    { unfold m1. rewrite dom_insert_L. set_solver. }
    pose proof (Hd1 n) as Hn. rewrite decide_True in Hn by done.
    pose proof (Hle1 n) as Hlen.
    case_decide as Hz.
    + destruct (IH m1 (q ++ [n]) Hle1) as (m' & extra & -> & Hd & Hdom & Hnd & Hex).
      exists m', (n :: extra). rewrite <- app_assoc. split; [done|].
      split; [intros v; by apply Hdeg|].
      split; [rewrite Hdom, Hdom1; set_solver|].
      assert (occ n ns = 0) as Hocc by lia.
      split.
      * apply NoDup_cons. split; [|done]. rewrite Hex. intros [Hin _].
        apply occ_zero in Hocc. done.
      * intros v. rewrite elem_of_cons, Hex, Hd1, occ_cons, (elem_of_cons _ v n).
        case_decide; subst.
        -- split; [intros _; split; [by left|lia]|by left].
        -- split.
           ++ intros [?|[? ?]]; [congruence|]. split; [by right|lia].
           ++ intros [[?|?] ?]; [congruence|]. right. split; [done|lia].
    + destruct (IH m1 q Hle1) as (m' & extra & -> & Hd & Hdom & Hnd & Hex).
      exists m', extra. split; [done|].
      split; [intros v; by apply Hdeg|].
      split; [rewrite Hdom, Hdom1; set_solver|].
      split; [done|].
      intros v. rewrite Hex, Hd1, occ_cons, (elem_of_cons _ v n).
      case_decide; subst.
      * split.
        -- intros [? ?]. split; [by left|lia].
        -- intros [_ ?]. assert (occ v ns ≠ 0) as Hne by lia.
           split; [|lia]. apply occ_pos. lia.
      * split.
        -- intros [? ?]. split; [by right|lia].
        -- intros [[?|?] ?]; [congruence|]. split; [done|lia].
Qed.

Lemma importers_first_snoc result node :
  importers_first graph result →
  (∀ u, edge graph u node → u ∈ result) →
  importers_first graph (result ++ [node]).
Proof.
  intros Hres Hnode r1 v r2 Heq u Hedge.
  destruct (decide (r2 = [])) as [->|Hne].
  - apply app_inj_tail in Heq as [-> ->]. by apply Hnode.
  - destruct (exists_last Hne) as (r2' & x & ->).
    rewrite app_comm_cons, app_assoc in Heq.
    apply app_inj_tail in Heq as [-> ->].
    eapply Hres; eauto.
Qed.

Lemma kahn_inv_init :
  let m := count_in_degrees graph in
  kahn_inv graph m (filter (fun node => degree m node = 0%Z) graph.*1) [].
Proof.
  destruct count_in_degrees_spec as [Hd Hdom]. cbn zeta.
  split; [|split; [|split; [|split]]]; simpl.
  - by apply NoDup_filter.
  - done.
  - done.
  - intros v. rewrite list_elem_of_filter, Hd. split.
    + intros [Hz Hk]. split; [|lia]. unfold nodes.
      apply elem_of_union_l, elem_of_list_to_set. done.
    + intros [Hn Hz]. split; [lia|].
      unfold nodes in Hn. apply elem_of_union in Hn as [Hn|Hn].
      * by apply elem_of_list_to_set in Hn.
      * apply elem_of_list_to_set, list_elem_of_join in Hn as (ns & Hv & Hns).
        apply list_elem_of_fmap in Hns as ([u ns'] & -> & Hin). simpl in Hv.
        pose proof (pending_in_zero _ _ _ _ _ Hz Hin Hv) as Hu.
        by apply elem_of_nil in Hu.
  - intros r1 v r2 Heq. by destruct r1.
Qed.

Lemma kahn_inv_step m node queue result :
  kahn_inv graph m (node :: queue) result →
  ∃ m' queue',
    foldl relax (m, queue) (neighbors graph node) = (m', queue')
    ∧ kahn_inv graph m' queue' (result ++ [node]).
Proof.
  intros (Hnd & Hdeg & Hdom & Hmem & Hord).
  assert (node ∉ result) as Hfresh.
  { apply NoDup_app in Hnd as (_ & Hdisj & _). intros Hin.
    apply (Hdisj _ Hin). by left. }
  assert (Hpend : ∀ v, pending_in graph (result ++ [node]) v
                        + occ v (neighbors graph node)
                        = pending_in graph result v)
    by (intros v; by apply pending_in_snoc).
  destruct (relax_fold (neighbors graph node) m queue)
    as (m' & extra & Hfold & Hdeg' & Hdom' & Hnde & Hex).
  { intros v. rewrite Hdeg. specialize (Hpend v). lia. }
  exists m', (queue ++ extra). split; [done|].
  assert (Hex' : ∀ v, v ∈ extra ↔
            v ∈ neighbors graph node
            ∧ pending_in graph result v = occ v (neighbors graph node)).
  { intros v. rewrite Hex, Hdeg. split; intros [? ?]; split; auto; lia. }
  assert (Hnb : ∀ v, v ∈ neighbors graph node → v ∈ (nodes graph)).
  { intros v Hv. apply edge_neighbors in Hv. by apply edge_nodes in Hv as [_ ?]. }
  split; [|split; [|split; [|split]]].
  - replace ((result ++ [node]) ++ queue ++ extra)
      with ((result ++ node :: queue) ++ extra)
      by (by rewrite <- !app_assoc).
    apply NoDup_app. split; [|split].
    + done.
    + intros v Hv Hve. apply Hex' in Hve as [Hin Heq].
      apply Hmem in Hv as [_ Hz]. apply occ_pos in Hin. lia.
    + done.
  - intros v. rewrite Hdeg', Hdeg. specialize (Hpend v). lia.
  - rewrite Hdom', Hdom. apply set_eq. intros v.
    rewrite elem_of_union, elem_of_list_to_set. naive_solver.
  - intros v. specialize (Hpend v).
    replace ((result ++ [node]) ++ queue ++ extra)
      with ((result ++ node :: queue) ++ extra)
      by (by rewrite <- !app_assoc).
    rewrite elem_of_app, Hmem, Hex'. split.
    + intros [[? ?]|[Hin ?]]; (split; [auto|lia]).
    + intros [Hn Hz].
      destruct (decide (occ v (neighbors graph node) = 0)) as [Ho|Ho].
      * left. split; [done|lia].
      * right. split; [apply occ_pos; lia|lia].
  - apply importers_first_snoc; [done|].
    intros u (ns & Hin & Hv).
    assert (node ∈ result ++ node :: queue) as Hq by set_solver.
    apply Hmem in Hq as [_ Hz].
    eapply pending_in_zero; eauto.
Qed.

Lemma NoDup_length_le_size (l : list string) (X : gset string) :
  NoDup l → (∀ x, x ∈ l → x ∈ X) → length l ≤ size X.
Proof.
  intros Hnd Hsub. rewrite <- (size_list_to_set (C := gset string) l) by done.
  apply subseteq_size. intros x Hx. apply elem_of_list_to_set in Hx. auto.
Qed.

(** The [while] loop ends within the fuel and keeps the invariant. *)
Lemma drain_spec (fuel : nat) m queue result :
  kahn_inv graph m queue result →
  size (nodes graph) < length result + fuel →
  ∃ r m', drain graph fuel m queue result = Some r ∧ kahn_inv graph m' [] r.
Proof.
  revert m queue result.
  induction fuel as [|fuel IH]; intros m queue result Hinv Hfuel.
  - exfalso. destruct Hinv as (Hnd & _ & _ & Hmem & _).
    assert (length (result ++ queue) ≤ size (nodes graph)) as Hle.
    { apply NoDup_length_le_size; [done|]. intros x Hx. by apply Hmem in Hx as [? _]. }
    rewrite length_app in Hle. lia.
  - destruct queue as [|node queue]; simpl.
    + exists result, m. done.
    + destruct (kahn_inv_step _ _ _ _ Hinv) as (m' & queue' & -> & Hinv').
      apply IH in Hinv' as (r & m'' & -> & Hr); [by exists r, m''|].
      rewrite length_app. simpl. lia.
Qed.

Lemma drain_from_start :
  ∃ r m',
    drain graph (S (size (count_in_degrees graph))) (count_in_degrees graph)
      (filter (fun node => degree (count_in_degrees graph) node = 0%Z) graph.*1) []
    = Some r
    ∧ kahn_inv graph m' [] r.
Proof.
  apply drain_spec; [apply kahn_inv_init|].
  destruct count_in_degrees_spec as [_ Hdom].
  rewrite <- Hdom, size_dom. simpl. lia.
Qed.

Lemma add_remaining_placed (l : Graph) (result : list string) :
  (∀ k, k ∈ l.*1 → k ∈ result) → add_remaining l result = result.
Proof.
  unfold add_remaining. induction l as [|kv l IH]; intros Hall; simpl; [done|].
  rewrite decide_True by (apply Hall; by left).
  apply IH. intros k Hk. apply Hall. by right.
Qed.

(** *** Acyclic graphs: the loop places every name *)

Lemma tc_flip_edge u v : tc (flip (edge graph)) u v → tc (edge graph) v u.
Proof.
  induction 1 as [x y Hxy|x y z Hxy _ IH].
  - by apply tc_once.
  - eapply tc_r; eauto.
Qed.

Lemma importers_wf : acyclic graph → ∀ v, Acc (edge graph) v.
Proof.
  intros Hac v.
  change (Acc (flip (flip (edge graph))) v).
  apply (tc_finite_sn (R := flip (edge graph))).
  - intros x Hx. apply tc_flip_edge in Hx. by apply (Hac x).
  - exists graph.*1. intros u Hu. apply tc_flip_edge in Hu.
    destruct Hu as [? ? He|? ? ? He _]; by apply edge_nodes in He as [? _].
Qed.

Lemma kahn_all_placed m r :
  acyclic graph → kahn_inv graph m [] r → ∀ v, v ∈ (nodes graph) → v ∈ r.
Proof.
  intros Hac (_ & _ & _ & Hmem & _) v.
  induction (importers_wf Hac v) as [v _ IH]. intros Hv.
  destruct (decide (pending_in graph r v = 0)) as [Hz|Hnz].
  - assert (v ∈ r ++ []) as Hin by (apply Hmem; done).
    by rewrite app_nil_r in Hin.
  - exfalso. apply pending_in_nonzero in Hnz as (u & ns & Hin & Hvns & Hu).
    apply Hu. apply IH.
    + by exists ns.
    + unfold nodes. apply elem_of_union_l, elem_of_list_to_set.
      apply list_elem_of_fmap. by exists (u, ns).
Qed.

(** X1: [topological_sort] returns a list for every graph whose keys are
    distinct (as the keys of a dictionary are): the [while] loop ends,
    cyclic graph or not. *)
Lemma topological_sort_total : is_Some (topological_sort graph).
Proof.
  unfold topological_sort.
  destruct drain_from_start as (r & m' & -> & _). simpl. eauto.
Qed.

(** In an acyclic graph every file is placed before the files it imports. *)
Lemma topological_sort_acyclic :
  acyclic graph →
  ∃ order, topological_sort graph = Some order
           ∧ ∀ u v, edge graph u v → before order u v.
Proof.
  intros Hac. unfold topological_sort.
  destruct drain_from_start as (r & m' & -> & Hinv). simpl.
  pose proof (kahn_all_placed _ _ Hac Hinv) as Hall.
  rewrite add_remaining_placed.
  2:{ intros k Hk. apply Hall. unfold nodes.
      by apply elem_of_union_l, elem_of_list_to_set. }
  exists r. split; [done|]. intros u v Hedge.
  destruct Hinv as (Hnd & _ & _ & _ & Hord).
  rewrite app_nil_r in Hnd.
  assert (v ∈ r) as Hv by (apply Hall; by apply edge_nodes in Hedge as [_ ?]).
  apply list_elem_of_split in Hv as (r1 & r2 & ->).
  pose proof (Hord r1 v r2 eq_refl u Hedge) as Hu.
  apply list_elem_of_lookup in Hu as [i Hi].
  exists i, (length r1). split; [|split].
  - by apply lookup_app_l_Some.
  - by rewrite list_lookup_middle.
  - by apply lookup_lt_Some in Hi.
Qed.

End toposort.

(** A graph whose edges all increase some rank has no cycle. *)
Lemma acyclic_by_rank (graph : MultiFileAnalyzer.Graph) (rank : string → nat) :
  (∀ u v, MultiFileAnalyzer.edge graph u v → rank u < rank v) →
  MultiFileAnalyzer.acyclic graph.
Proof.
  intros Hrank u Hu.
  assert (∀ x y, tc (MultiFileAnalyzer.edge graph) x y → rank x < rank y) as H.
  { induction 1 as [x y Hxy|x y z Hxy _ IH]; [by apply Hrank|].
    apply Hrank in Hxy. lia. }
  apply H in Hu. lia.
Qed.

Section toposort_claim.
Import MultiFileAnalyzer.

Lemma example_graph_acyclic : acyclic example_graph.
Proof.
  apply (acyclic_by_rank _
           (fun s => if decide (s = "main") then 0
                     else if decide (s = "lib1") then 1 else 2)).
  intros u v (ns & Hin & Hv). unfold example_graph in Hin.
  repeat (apply elem_of_cons in Hin as [Hin|Hin]; [inversion Hin; subst; clear Hin|]).
  - apply list_elem_of_singleton in Hv as ->. simpl. lia.
  - apply list_elem_of_singleton in Hv as ->. simpl. lia.
  - by apply elem_of_nil in Hin.
Qed.

Lemma example_graph_keys : NoDup example_graph.*1.
Proof. simpl. apply NoDup_cons. split; [set_solver|]. apply NoDup_singleton. Qed.

Lemma topological_sort_total_witness : is_Some (topological_sort example_graph).
Proof. exact (topological_sort_total example_graph example_graph_keys). Defined.

(** C3: the code does not do what the claim says.  On the specification's
    own example (an acyclic graph) the order is [main, lib1, lib2], not
    [lib2, lib1, main]: [main], which imports [lib1], does not come after
    [lib1]. *)
Lemma topological_sort_not_dependency_first :
  acyclic example_graph
  ∧ ∃ order, topological_sort example_graph = Some order
             ∧ order ≠ ["lib2"; "lib1"; "main"]
             ∧ edge example_graph "main" "lib1"
             ∧ ¬ before order "lib1" "main".
Proof.
  split; [apply example_graph_acyclic|].
  exists ["main"; "lib1"; "lib2"]. split; [vm_compute; reflexivity|].
  split; [done|]. split.
  - exists ["lib1"]. split; [by left|by left].
  - intros (i & j & Hi & Hj & Hlt).
    destruct j as [|[|[|j]]]; simpl in Hj; try done. lia.
Qed.

(** What the code does instead: for every acyclic graph (with the distinct
    keys of a dictionary) [topological_sort] returns an order in which, for
    every edge u→v (u imports v), u appears before v (importer first); the
    graph with edges {main→lib1, lib1→lib2} yields [main, lib1, lib2]. *)
Theorem topological_sort_importer_first :
  (∀ graph : Graph,
     NoDup graph.*1 → acyclic graph →
     ∃ order, topological_sort graph = Some order
              ∧ ∀ u v, edge graph u v → before order u v)
  ∧ topological_sort example_graph = Some ["main"; "lib1"; "lib2"].
Proof.
  split; [|vm_compute; reflexivity].
  intros graph Hkeys Hac. by apply topological_sort_acyclic.
Qed.

Lemma topological_sort_importer_first_witness :
  ∃ order, topological_sort example_graph = Some order
           ∧ ∀ u v, edge example_graph u v → before order u v.
Proof.
  exact (proj1 topological_sort_importer_first example_graph
           example_graph_keys example_graph_acyclic).
Defined.

End toposort_claim.


(** ** Merged reports *)
Section merge_claims.
Import Py IncrementalAnalyzer.

(** A set cannot hold a dictionary: [set(...)] over a list with an issue in
    it raises. *)
Lemma set_of_list_dict (l : list val) (seen : list key) (d : dict) :
  VDict d ∈ l → set_of_list l seen = Raise TypeError.
Proof.
  revert seen. induction l as [|v l IH]; intros seen Hin.
  - by apply elem_of_nil in Hin.
  - apply elem_of_cons in Hin as [<-|Hin]; [done|].
    destruct v; simpl; try done;
      (destruct (existsb _ seen); [by apply IH|by rewrite IH]).
Qed.

Lemma merge_lists_issue (cached : list val) (fresh : val) (d : dict) :
  VDict d ∈ cached ∨ (∃ l, fresh = VList l ∧ VDict d ∈ l) →
  merge_lists cached fresh = Raise TypeError.
Proof.
  intros [Hin|(l & -> & Hin)].
  - destruct fresh; try done. simpl.
    apply (set_of_list_dict _ _ d). apply elem_of_app. by left.
  - simpl. apply (set_of_list_dict _ _ d). apply elem_of_app. by right.
Qed.

(** C1: the code does not do what the claim says.  With line 3 changed, a
    fresh report with one vulnerability and an empty cache make
    [merge_analysis_results] raise [TypeError] (the issue, a dictionary,
    cannot be put into a set); so does a cached vulnerability on line 3
    with an empty fresh report; and of two cached issues the filter hands
    to the merge the one on the changed line, not the one 97 lines away
    that is still valid. *)
Theorem merge_analysis_results_raises :
  let changeset := mkChangeSet {[3]} ∅ ∅ [] in
  merge_analysis_results
    [] [(KStr "vulnerabilities", VList [issue_on_line 3])] changeset
  = Raise TypeError
  ∧ merge_analysis_results
      [(KStr "vulnerabilities", VList [issue_on_line 3])] [] changeset
    = Raise TypeError
  ∧ filter_affected_issues (VList [issue_on_line 3; issue_on_line 100]) changeset
    = Ok [issue_on_line 3].
Proof. repeat split; vm_compute; reflexivity. Qed.

End merge_claims.

(** ** False positives: matching and verification *)
Section verification_claims.
Import Py FalsePositiveHandler.

Lemma key_eqb_str (k : key) (s : string) :
  key_eqb k (KStr s) = true ↔ k = KStr s.
Proof.
  destruct k as [|b|z|t]; simpl; try (split; [done|congruence]).
  rewrite bool_decide_eq_true. split; congruence.
Qed.

Lemma key_eqb_str_refl (s : string) : key_eqb (KStr s) (KStr s) = true.
Proof. by apply key_eqb_str. Qed.

Lemma key_eqb_str_ne (s t : string) : s ≠ t → key_eqb (KStr s) (KStr t) = false.
Proof. intros Hne. simpl. by apply bool_decide_eq_false. Qed.

(** Two locations with different (non-zero) integer lines never match: the
    test for lines within 5 of each other is never reached. *)
Lemma _location_matches_lines (l1 l2 : Z) (d1 d2 : dict) :
  dict_lookup d1 (KStr "line") = Some (VInt l1) →
  dict_lookup d2 (KStr "line") = Some (VInt l2) →
  l1 ≠ 0%Z → l2 ≠ 0%Z → l1 ≠ l2 →
  _location_matches (VDict d1) (VDict d2) = Ok false.
Proof.
  intros H1 H2 Hz1 Hz2 Hne. unfold _location_matches, line_of, get.
  rewrite H1, H2. simpl.
  apply Z.eqb_neq in Hz1, Hz2. rewrite Hz1, Hz2. simpl. rewrite Hz1, Hz2. simpl.
  f_equal. by apply bool_decide_eq_false.
Qed.

(** C6: the code does not do what the claim says.  A report stored at line
    10 is not matched by a verify call at line 12 (2 lines away): the call
    returns [False] and leaves the report unverified and the learning
    patterns untouched. *)
Theorem verify_false_positive_misses_nearby_line :
  let stored := [(KStr "line", VInt 10); (KStr "type", VStr "line")] in
  let h :=
    (report_false_positive new_handler "issue-1" "reentrancy" "abc" stored
       "guarded by a mutex" None "2024-01-01T00:00:00").2 in
  verify_false_positive h "reentrancy" "abc" [(KStr "line", VInt 12)]
  = (Ok false, h)
  ∧ verify_false_positive h "reentrancy" "abc" [(KStr "line", VInt 10)]
    = (Ok true,
       mkHandler
         [(KStr "reentrancy:abc",
           [mkReport (VStr "issue-1") (VStr "reentrancy") (VStr "abc")
              (VDict stored) (VStr "guarded by a mutex") VNone
              (VStr "2024-01-01T00:00:00") (VBool true)])]
         (VDict
            [(KStr "reentrancy",
              VDict
                [(KStr "false_positive_count", VInt 1);
                 (KStr "patterns",
                  VList
                    [VDict [(KStr "reason", VStr "guarded by a mutex");
                            (KStr "location_type", VStr "line");
                            (KStr "count", VInt 1)]])])])
         (learning_data h)).
Proof. split; vm_compute; reflexivity. Qed.

End verification_claims.

(** ** Export and import *)
Section import_export.
Import Py FalsePositiveHandler.

Lemma import_reports_prefix fps items outcome fps' :
  import_reports fps items = (outcome, fps') →
  ∃ assigned,
    fps' = foldl assign fps assigned
    ∧ assigned.*1 `prefix_of` items.*1
    ∧ (outcome = Ok tt → length assigned = length items)
    ∧ (∀ e, outcome = Raise e → length assigned < length items).
Proof.
  revert fps. induction items as [|[k v] items IH]; intros fps Heq; simpl in Heq.
  - inversion Heq; subst. exists []. split; [done|]. split; [done|].
    split; [done|]. intros e [=].
  - destruct (rs ←! iter v; reports_of rs) as [reports|e] eqn:E.
    + apply IH in Heq as (assigned & -> & Hpre & Hok & Hfail).
      exists ((k, reports) :: assigned). split; [done|]. simpl.
      split; [by apply prefix_cons|].
      split; [intros ?; f_equal; auto|]. intros e He. apply Hfail in He. lia.
    + inversion Heq; subst. exists []. split; [done|].
      split; [apply prefix_nil|]. split; [done|]. intros; simpl; lia.
Qed.

(** C7, as stated, fails: the import of [half_valid_document] raises, yet
    the reports stored under ["reentrancy:abc"] have already been replaced
    by the empty list of the document. *)
Lemma import_false_positives_not_atomic :
  ∃ e h',
    import_false_positives Json.loads verified_handler half_valid_document
    = (Raise e, h')
    ∧ false_positives h' = [(KStr "reentrancy:abc", [])]
    ∧ false_positives h' ≠ false_positives verified_handler.
Proof.
  eexists _, _. split; [vm_compute; reflexivity|]. split; [done|].
  vm_compute. discriminate.
Qed.

(** The import loop assigns the items in order and stops at the first one
    from which no reports can be built. *)
Lemma import_reports_stops fps items e fps' :
  import_reports fps items = (Raise e, fps') →
  ∃ assigned done item rest,
    items = done ++ item :: rest
    ∧ Forall2 assigned_from assigned done
    ∧ built item = Raise e
    ∧ fps' = foldl assign fps assigned.
Proof.
  revert fps. induction items as [|[k v] items IH]; intros fps Heq;
    cbn [import_reports] in Heq; [done|].
  destruct (rs ←! iter v; reports_of rs) as [reports|e'] eqn:E.
  - apply IH in Heq as (assigned & done & item & rest & -> & Hall & Hitem & ->).
    exists ((k, reports) :: assigned), ((k, v) :: done), item, rest.
    split; [done|]. split; [|done]. constructor; [|done]. by split.
  - injection Heq as <- <-. exists [], [], (k, v), items. by repeat split.
Qed.

(** C7 (amended): when [import_false_positives] fails, the exception
    reaches the caller and the learning patterns (and the learning data)
    are exactly as before.  The keyed reports are the old store with the
    reports of a leading part of the document's keys assigned: the items
    of the document before the first one from which no reports can be
    built, whose exception is the one raised.  The handler is unchanged
    when the failure comes before the first assignment: when that item is
    the first of the document, when the text cannot be parsed ([json.loads]
    raises: that exception is the one raised), or when it holds no
    dictionary of reports. *)
Theorem import_failure_effect (json_loads : string → result val)
    (h : Handler) (s : string) (e : exn) (h' : Handler) :
  import_false_positives json_loads h s = (Raise e, h') →
  issue_patterns h' = issue_patterns h
  ∧ learning_data h' = learning_data h
  ∧ (∀ e', json_loads s = Raise e' → e' = e ∧ h' = h)
  ∧ ∃ assigned done rest,
      items_of (json_loads s) = done ++ rest
      ∧ Forall2 assigned_from assigned done
      ∧ false_positives h' = foldl assign (false_positives h) assigned
      ∧ (done = [] → h' = h)
      ∧ match rest with
        | item :: _ => built item = Raise e
        | [] => h' = h
        end.
Proof.
  unfold import_false_positives, items_of. intros Heq.
  assert (Hnone : h' = h →
            ∃ (assigned : list (key * list FalsePositiveReport))
              (done rest : list (key * val)),
              [] = done ++ rest
              ∧ Forall2 assigned_from assigned done
              ∧ false_positives h' = foldl assign (false_positives h) assigned
              ∧ (done = [] → h' = h)
              ∧ match rest with
                | item :: _ => built item = Raise e
                | [] => h' = h
                end).
  { intros ->. exists [], [], []. repeat split; constructor. }
  destruct (json_loads s) as [data|e0] eqn:Hload.
  2:{ injection Heq as <- <-. split; [done|]. split; [done|].
      split; [|by apply Hnone]. by intros e' [= ->]. }
  destruct (get data "false_positives" (VDict [])) as [fp|e1] eqn:Hget.
  2:{ injection Heq as <- <-. split; [done|]. split; [done|].
      split; [done|by apply Hnone]. }
  destruct fp as [| | | | |items];
    try (injection Heq as <- <-; split; [done|]; split; [done|];
         split; [done|by apply Hnone]).
  clear Hnone.
  destruct (import_reports (false_positives h) items) as [out fps] eqn:Himp.
  destruct out as [[]|e2].
  - destruct (get data "learning_patterns" (VDict [])) as [pats|e3] eqn:Hpat;
      [done|]. destruct data; simpl in Hget, Hpat; congruence.
  - injection Heq as <- <-. cbn [issue_patterns learning_data false_positives].
    split; [done|]. split; [done|]. split; [done|].
    apply import_reports_stops in Himp
      as (assigned & done & item & rest & -> & Hall & Hitem & ->).
    exists assigned, done, (item :: rest). split; [done|]. split; [done|].
    split; [done|]. split; [|done].
    intros ->. apply Forall2_nil_inv_r in Hall as ->. by destruct h.
Qed.

Lemma import_failure_effect_witness :
  issue_patterns
    (import_false_positives Json.loads verified_handler half_valid_document).2
  = issue_patterns verified_handler.
Proof.
  refine (proj1 (import_failure_effect Json.loads verified_handler
                   half_valid_document TypeError
                   (import_false_positives Json.loads verified_handler
                      half_valid_document).2 _)).
  vm_compute. reflexivity.
Defined.

(** *** Round trip *)

Lemma report_of_asdict (r : FalsePositiveReport) : report_of (asdict r) = Ok r.
Proof. destruct r. vm_compute. reflexivity. Qed.

Lemma reports_of_asdict (rs : list FalsePositiveReport) :
  reports_of (asdict <$> rs) = Ok rs.
Proof.
  induction rs as [|r rs IH]; [done|].
  rewrite fmap_cons. cbn [reports_of]. rewrite report_of_asdict, IH. done.
Qed.

Lemma dict_set_fresh {A : Type} (d : list (key * A)) (k : key) (v : A) :
  forallb (fun kv => negb (key_eqb kv.1 k)) d = true →
  dict_set d k v = d ++ [(k, v)].
Proof.
  induction d as [|[k' v'] d IH]; simpl; [done|].
  intros [Hk Hd]%andb_true_iff. apply negb_true_iff in Hk. rewrite Hk.
  by rewrite IH.
Qed.

Lemma distinct_keys_snoc {A : Type} (d : list (key * A)) (kv : key * A)
    (rest : list (key * A)) :
  distinct_keys (d ++ kv :: rest) = true →
  forallb (fun kv' => negb (key_eqb kv'.1 kv.1)) d = true.
Proof.
  induction d as [|[k v] d IH]; simpl; [done|].
  intros [Hk Hd]%andb_true_iff. rewrite forallb_app in Hk. simpl in Hk.
  apply andb_true_iff in Hk as [_ [Hk _]%andb_true_iff].
  rewrite Hk. simpl. by apply IH.
Qed.

Lemma import_reports_exported (items acc : list (key * list FalsePositiveReport)) :
  distinct_keys (acc ++ items) = true →
  import_reports acc (exported_item <$> items) = (Ok tt, acc ++ items).
Proof.
  revert acc. induction items as [|[k rs] items IH]; intros acc Hd.
  - simpl. by rewrite app_nil_r.
  - rewrite fmap_cons. cbn [import_reports exported_item fst snd iter bind].
    rewrite reports_of_asdict.
    rewrite dict_set_fresh by (by apply (distinct_keys_snoc _ (k, rs) items)).
    rewrite IH; rewrite <- app_assoc; done.
Qed.

(** Given that the JSON module reads back the document it wrote, a fresh
    handler that imports what [export_false_positives] wrote holds the same
    keyed reports and the same learning patterns. *)
Lemma import_of_export (json_dumps : val → string)
    (json_loads : string → result val) (h : Handler) (now : string) :
  json_loads (json_dumps (export_data h now)) = Ok (export_data h now) →
  distinct_keys (false_positives h) = true →
  ∃ h',
    import_false_positives json_loads new_handler
      (export_false_positives json_dumps h now) = (Ok tt, h')
    ∧ false_positives h' = false_positives h
    ∧ issue_patterns h' = issue_patterns h.
Proof.
  intros Hjson Hkeys.
  unfold import_false_positives, export_false_positives. rewrite Hjson.
  unfold export_data at 1 2. unfold get. cbn [dict_lookup].
  rewrite !key_eqb_str_refl.
  change ((fun kv : key * list FalsePositiveReport =>
             (kv.1, VList (asdict <$> kv.2))) <$> false_positives h)
    with (exported_item <$> false_positives h).
  cbn [default from_option id].
  change (false_positives new_handler) with (@nil (key * list FalsePositiveReport)).
  rewrite (import_reports_exported (false_positives h) []) by done.
  rewrite (key_eqb_str_ne "false_positives" "learning_patterns") by done.
  eexists. split; [done|]. done.
Qed.

End import_export.

(** ** The text of a value is read back as the value *)
Section json_roundtrip.
Import Py Json.

Lemma chars_app (s t : string) : chars (s +:+ t) = chars s ++ chars t.
Proof.
  induction s as [|a s IH]; [done|].
  change (String a s +:+ t) with (String a (s +:+ t)).
  unfold chars in *. simpl. by rewrite IH.
Qed.

Lemma chars_cons (a : ascii) (s : string) : chars (String a s) = a :: chars s.
Proof. done. Qed.

(** *** Numbers *)

Lemma string_app_assoc (a b c : string) : (a +:+ b) +:+ c = a +:+ (b +:+ c).
Proof.
  induction a as [|x a IH]; [done|].
  change ((String x a +:+ b) +:+ c) with (String x ((a +:+ b) +:+ c)).
  change (String x a +:+ (b +:+ c)) with (String x (a +:+ (b +:+ c))).
  by rewrite IH.
Qed.

Lemma pretty_N_go_app (x : N) (s : string) :
  pretty_N_go x s = pretty_N_go x "" +:+ s.
Proof.
  revert s. induction (N.lt_wf_0 x) as [x _ IH]; intros s.
  destruct (decide (x = 0)%N) as [->|Hx]; [by rewrite !pretty_N_go_0|].
  assert (x `div` 10 < x)%N as Hlt by (apply N.div_lt; lia).
  rewrite !(pretty_N_go_step x) by lia.
  rewrite (IH _ Hlt (String _ s)), (IH _ Hlt (String _ "")).
  by rewrite string_app_assoc.
Qed.

(** The decimal digits of a positive number. *)
Lemma chars_pretty_N_go (x : N) :
  (0 < x)%N →
  chars (pretty_N_go x "")
  = chars (pretty_N_go (x `div` 10)%N "") ++ [pretty_N_char (x `mod` 10)%N].
Proof.
  intros Hx. rewrite (pretty_N_go_step x) by done.
  by rewrite pretty_N_go_app, chars_app.
Qed.

Lemma digit_of_pretty_N_char (d : N) :
  (d < 10)%N → digit_of (pretty_N_char d) = Some (Z.of_N d).
Proof.
  intros Hd.
  assert (d = 0 ∨ d = 1 ∨ d = 2 ∨ d = 3 ∨ d = 4 ∨ d = 5 ∨ d = 6 ∨ d = 7
          ∨ d = 8 ∨ d = 9)%N as Hcases by lia.
  repeat (destruct Hcases as [->|Hcases]; [vm_compute; reflexivity|]).
  subst. vm_compute. reflexivity.
Qed.

Lemma digits_app (l rest : list ascii) (acc : Z) (x : Z) :
  digits l acc = (x, []) → digits (l ++ rest) acc = digits rest x.
Proof.
  revert acc. induction l as [|a l IH]; intros acc; simpl.
  - intros [= ->]. by destruct rest.
  - destruct (digit_of a) as [d|]; [apply IH|done].
Qed.

Lemma digits_pretty_N_go (x : N) (acc : Z) :
  ∃ k : nat,
    digits (chars (pretty_N_go x "")) acc = ((acc * 10 ^ Z.of_nat k + Z.of_N x)%Z, []).
Proof.
  revert acc. induction (N.lt_wf_0 x) as [x _ IH]; intros acc.
  destruct (decide (x = 0)%N) as [->|Hx].
  { exists 0. rewrite pretty_N_go_0. simpl. f_equal. lia. }
  assert (x `div` 10 < x)%N as Hlt by (apply N.div_lt; lia).
  destruct (IH _ Hlt acc) as [k Hk].
  exists (S k). rewrite chars_pretty_N_go by lia.
  rewrite (digits_app _ _ _ _ Hk). cbn [digits].
  rewrite digit_of_pretty_N_char by (apply N.mod_lt; lia).
  f_equal. rewrite Nat2Z.inj_succ, Z.pow_succ_r by lia.
  pose proof (N.div_mod x 10 ltac:(lia)) as Hdm. lia.
Qed.

Lemma digits_end (rest : list ascii) (acc : Z) :
  ends_number rest → digits rest acc = (acc, rest).
Proof.
  destruct rest as [|a rest]; [done|]. intros (Hd & _). simpl. by rewrite Hd.
Qed.

(** The first digit of a positive number is not zero. *)
Lemma pretty_N_go_first (x : N) :
  (0 < x)%N →
  ∃ d t, chars (pretty_N_go x "") = pretty_N_char d :: t ∧ (0 < d < 10)%N.
Proof.
  induction (N.lt_wf_0 x) as [x _ IH]. intros Hx.
  rewrite chars_pretty_N_go by done.
  destruct (decide (x `div` 10 = 0)%N) as [E|E].
  - rewrite E, pretty_N_go_0. exists (x `mod` 10)%N, [].
    split; [done|]. pose proof (N.div_mod x 10 ltac:(lia)).
    pose proof (N.mod_lt x 10 ltac:(lia)). lia.
  - assert (x `div` 10 < x)%N as Hlt by (apply N.div_lt; lia).
    assert (0 < x `div` 10)%N as Hpos by (apply N.neq_0_lt_0; exact E).
    destruct (IH _ Hlt Hpos) as (d & t & -> & Hd). eauto.
Qed.

Lemma parse_int_digits (c : ascii) (t rest : list ascii) (d x : Z) :
  digit_of c = Some d → d ≠ 0%Z → digits t d = (x, []) → ends_number rest →
  parse_int (c :: t ++ rest) = Some (x, rest).
Proof.
  intros Hc Hd Ht Hrest.
  assert (digits (t ++ rest) d = (x, rest)) as Happ
    by (rewrite (digits_app _ _ _ _ Ht); by apply digits_end).
  assert (match rest with
          | "."%char :: _ | "e"%char :: _ | "E"%char :: _ => @None (Z * list ascii)
          | _ => Some (x, rest)
          end = Some (x, rest)) as Hend.
  { destruct rest as [|a rest]; [done|]. destruct Hrest as (_ & H1 & H2 & H3).
    destruct a as [[] [] [] [] [] [] [] []]; done. }
  destruct c as [[] [] [] [] [] [] [] []];
    try (vm_compute in Hc; discriminate Hc);
    vm_compute in Hc; injection Hc as <-;
    try done;
    unfold parse_int; simpl;
    match goal with
    | H : digits ?l ?d = _ |- context [digits ?l ?z] => change z with d; rewrite H
    end;
    exact Hend.
Qed.

Lemma parse_int_neg_digits (c : ascii) (t rest : list ascii) (d x : Z) :
  digit_of c = Some d → d ≠ 0%Z → digits t d = (x, []) → ends_number rest →
  parse_int ("-"%char :: c :: t ++ rest) = Some ((- x)%Z, rest).
Proof.
  intros Hc Hd Ht Hrest.
  assert (digits (t ++ rest) d = (x, rest)) as Happ
    by (rewrite (digits_app _ _ _ _ Ht); by apply digits_end).
  unfold parse_int. cbn -[digit_of digits bool_decide].
  rewrite Hc, bool_decide_eq_false_2, Happ by done.
  destruct rest as [|a rest]; [done|]. destruct Hrest as (_ & H1 & H2 & H3).
  destruct a as [[] [] [] [] [] [] [] []]; done.
Qed.

Lemma parse_int_pretty (z : Z) (rest : list ascii) :
  ends_number rest → parse_int (chars (pretty z) ++ rest) = Some (z, rest).
Proof.
  intros Hrest.
  assert (Hpos : ∀ p, ∃ c t d,
            chars (pretty (Z.pos p)) = c :: t
            ∧ digit_of c = Some d ∧ d ≠ 0%Z ∧ digits t d = (Z.pos p, [])).
  { intros p. change (pretty (Z.pos p)) with (pretty_N_go (N.pos p) "").
    destruct (pretty_N_go_first (N.pos p)) as (d & t & Ht & Hd); [lia|].
    destruct (digits_pretty_N_go (N.pos p) 0) as [k Hk].
    rewrite Ht in *. cbn [digits] in Hk.
    rewrite digit_of_pretty_N_char in Hk by lia.
    replace (10 * 0 + Z.of_N d)%Z with (Z.of_N d) in Hk by lia.
    exists (pretty_N_char d), t, (Z.of_N d). split; [done|].
    split; [apply digit_of_pretty_N_char; lia|]. split; [lia|].
    rewrite Hk. done. }
  destruct z as [|p|p].
  - change (chars (pretty 0%Z)) with ["0"%char].
    destruct rest as [|a rest]; [done|]. destruct Hrest as (_ & H1 & H2 & H3).
    destruct a as [[] [] [] [] [] [] [] []]; done.
  - destruct (Hpos p) as (c & t & d & -> & Hc & Hd & Ht).
    by apply (parse_int_digits c t rest d).
  - change (pretty (Z.neg p)) with ("-" +:+ pretty (Z.pos p)).
    change (chars ("-" +:+ pretty (Z.pos p)))
      with ("-"%char :: chars (pretty (Z.pos p))).
    destruct (Hpos p) as (c & t & d & -> & Hc & Hd & Ht).
    change (Z.neg p) with (- Z.pos p)%Z.
    by apply (parse_int_neg_digits c t rest d (Z.pos p)).
Qed.

(** A number starts with a digit or a minus sign. *)
Lemma pretty_Z_first (z : Z) :
  ∃ c t, chars (pretty z) = c :: t
         ∧ (c = "-"%char ∨ is_Some (digit_of c)).
Proof.
  destruct z as [|p|p].
  - exists "0"%char, []. split; [done|]. right. by eexists.
  - change (pretty (Z.pos p)) with (pretty_N_go (N.pos p) "").
    destruct (pretty_N_go_first (N.pos p)) as (d & t & -> & Hd); [lia|].
    eexists _, _. split; [done|]. right.
    rewrite digit_of_pretty_N_char by lia. by eexists.
  - change (pretty (Z.neg p)) with ("-" +:+ pretty (Z.pos p)).
    eexists _, _. split; [done|]. by left.
Qed.

(** *** Strings *)

Lemma string_app_nil_r (s : string) : s +:+ "" = s.
Proof.
  induction s as [|a s IH]; [done|].
  change (String a s +:+ "") with (String a (s +:+ "")). by rewrite IH.
Qed.

Lemma escape_cons (a : ascii) (s : string) :
  escape (String a s) = escape (String a "") +:+ escape s.
Proof.
  cbn [escape]. by rewrite string_app_nil_r.
Qed.

Lemma parse_string_escaped_char (a : ascii) (r : list ascii) (t : string)
    (rest : list ascii) :
  parse_string r = Some (t, rest) →
  parse_string (chars (escape (String a "")) ++ r) = Some (String a t, rest).
Proof.
  intros H.
  destruct a as [[] [] [] [] [] [] [] []];
    match goal with
    | |- parse_string (chars ?e ++ r) = _ =>
        let l := eval vm_compute in (chars e) in
        change (chars e) with l
    end;
    cbn [app parse_string]; cbv -[parse_string]; rewrite H; reflexivity.
Qed.

Lemma parse_string_escape (s : string) (rest : list ascii) :
  parse_string (chars (escape s) ++ dquote :: rest) = Some (s, rest).
Proof.
  induction s as [|a s IH].
  - vm_compute. reflexivity.
  - rewrite escape_cons, chars_app, <- app_assoc.
    by apply parse_string_escaped_char.
Qed.

(** *** Whitespace *)

Lemma skip_ws_spaces (n : nat) (r : list ascii) :
  skip_ws (chars (String.concat "" (replicate n " ")) ++ r) = skip_ws r.
Proof.
  induction n as [|n IH]; [done|].
  cbn [replicate String.concat]. destruct n as [|n]; [done|].
  cbn [replicate] in *. rewrite !chars_app, <- !app_assoc.
  change (chars " " ++ chars "" ++ ?l) with (" "%char :: l).
  cbn [skip_ws]. change (is_ws " ") with true. cbn iota. exact IH.
Qed.

Lemma skip_ws_newline (level : nat) (r : list ascii) :
  skip_ws (chars (newline level) ++ r) = skip_ws r.
Proof.
  unfold newline. rewrite chars_cons. cbn [app skip_ws].
  change (is_ws "010") with true. cbn iota. apply skip_ws_spaces.
Qed.

Lemma skip_ws_stop (a : ascii) (r : list ascii) :
  is_ws a = false → skip_ws (a :: r) = a :: r.
Proof. intros H. cbn [skip_ws]. by rewrite H. Qed.

Lemma parse_value_newline (fuel level : nat) (r : list ascii) :
  parse_value fuel (chars (newline level) ++ r) = parse_value fuel r.
Proof. destruct fuel; [done|]. cbn [parse_value]. by rewrite skip_ws_newline. Qed.

Lemma parse_value_space (fuel : nat) (r : list ascii) :
  parse_value fuel (" "%char :: r) = parse_value fuel r.
Proof. destruct fuel; [done|]. reflexivity. Qed.

Lemma ends_number_newline (level : nat) (r : list ascii) :
  ends_number (chars (newline level) ++ r).
Proof. unfold newline. rewrite chars_cons. cbn [app ends_number]. done. Qed.

(** *** The cases of [parse_value] *)

Lemma parse_value_array (fuel : nat) (r : list ascii) :
  parse_value (S fuel) ("["%char :: r)
  = match skip_ws r with
    | "]"%char :: rest => Some (VList [], rest)
    | _ => parse_items (parse_value fuel) fuel r []
    end.
Proof. reflexivity. Qed.

Lemma parse_value_object (fuel : nat) (r : list ascii) :
  parse_value (S fuel) ("{"%char :: r)
  = match skip_ws r with
    | "}"%char :: rest => Some (VDict [], rest)
    | _ => parse_members (parse_value fuel) fuel r []
    end.
Proof. reflexivity. Qed.

Lemma parse_value_string (fuel : nat) (r : list ascii) :
  parse_value (S fuel) (dquote :: r)
  = match parse_string r with
    | Some (t, rest) => Some (VStr t, rest)
    | None => None
    end.
Proof. reflexivity. Qed.

Lemma parse_value_number (fuel : nat) (c : ascii) (r : list ascii) :
  c = "-"%char ∨ is_Some (digit_of c) →
  parse_value (S fuel) (c :: r)
  = match parse_int (c :: r) with
    | Some (z, rest) => Some (VInt z, rest)
    | None => None
    end.
Proof.
  intros [->|[d Hd]]; [reflexivity|].
  destruct c as [[] [] [] [] [] [] [] []];
    try (vm_compute in Hd; discriminate Hd); reflexivity.
Qed.

(** *** Arrays and objects *)

Lemma concat_cons2 {A : Type} (sep : string) (g : A → string) (x y : A)
    (l : list A) :
  String.concat sep (map g (x :: y :: l))
  = g x +:+ sep +:+ String.concat sep (map g (y :: l)).
Proof. done. Qed.

Section loops.
Variables (f level : nat).
Hypothesis parse_inner :
  ∀ v rest, json_value v = true → weight v ≤ f → ends_number rest →
    parse_value f (chars (dumps_at (S level) v) ++ rest) = Some (v, rest).

Lemma parse_items_dumps (l : list val) (acc : list val) (n : nat)
    (rest : list ascii) :
  l ≠ [] → forallb json_value l = true →
  sum_list (map weight l) ≤ f → length l ≤ n →
  parse_items (parse_value f) n
    (chars (newline (S level))
     ++ chars (String.concat ("," +:+ newline (S level))
                 (map (dumps_at (S level)) l))
     ++ chars (newline level) ++ "]"%char :: rest) acc
  = Some (VList (acc ++ l), rest).
Proof.
  revert acc n. induction l as [|x l IH]; [done|].
  intros acc n _ [Hx Hl]%andb_true_iff Hw Hn.
  simpl in Hw. cbn [length] in Hn.
  destruct n as [|n]; [lia|]. cbn [parse_items].
  rewrite parse_value_newline.
  destruct l as [|y l]; simpl in Hw.
  - cbn [map String.concat].
    rewrite parse_inner; [|done|lia|apply ends_number_newline].
    rewrite skip_ws_newline. rewrite skip_ws_stop by done. done.
  - rewrite concat_cons2, !chars_app, <- !app_assoc.
    change (chars "," ++ ?r) with (","%char :: r).
    rewrite parse_inner; [|done|lia|done].
    rewrite skip_ws_stop by done.
    rewrite (IH (acc ++ [x]) n); [|done|done|simpl in *; lia|
                                   cbn [length] in *; lia].
    by rewrite <- app_assoc.
Qed.

Lemma parse_members_dumps (d : dict) (acc : dict) (n : nat)
    (rest : list ascii) :
  d ≠ [] → forallb string_key d.*1 = true → distinct_keys (acc ++ d) = true →
  forallb (fun kv => let '(_, w) := kv in json_value w) d = true →
  sum_list (map (fun kv => let '(_, w) := kv in weight w) d) ≤ f →
  length d ≤ n →
  parse_members (parse_value f) n
    (chars (newline (S level))
     ++ chars (String.concat ("," +:+ newline (S level))
                 (map (fun kv => let '(k, w) := kv in
                                 quote (key_text k) +:+ ": "
                                 +:+ dumps_at (S level) w) d))
     ++ chars (newline level) ++ "}"%char :: rest) acc
  = Some (VDict (acc ++ d), rest).
Proof.
  revert acc n. induction d as [|[k w] d IH]; [done|].
  intros acc n _ [Hk Hks]%andb_true_iff Hdist [Hw Hws]%andb_true_iff Hsum Hn.
  destruct k as [| | |k]; try done.
  simpl in Hsum. cbn [length] in Hn.
  destruct n as [|n]; [lia|]. cbn [parse_members].
  rewrite skip_ws_newline.
  assert (Hset : dict_set acc (KStr k) w = acc ++ [(KStr k, w)]).
  { apply dict_set_fresh. by apply (distinct_keys_snoc _ (KStr k, w) d). }
  assert (Hmember : ∀ r,
            chars (quote (key_text (KStr k)) +:+ ": " +:+ dumps_at (S level) w) ++ r
            = dquote :: chars (escape k)
                        ++ dquote :: ":"%char :: " "%char
                                  :: chars (dumps_at (S level) w) ++ r).
  { intros r. unfold quote. cbn [key_text].
    rewrite chars_app, chars_cons, chars_app, chars_app.
    cbn [app]. rewrite <- !app_assoc. done. }
  destruct d as [|kv d]; simpl in Hsum.
  - cbn [map String.concat]. rewrite Hmember.
    rewrite skip_ws_stop by done.
    rewrite bool_decide_eq_true_2 by done.
    rewrite parse_string_escape. rewrite skip_ws_stop by done.
    rewrite parse_value_space.
    rewrite parse_inner; [|done|lia|apply ends_number_newline].
    cbn zeta. rewrite skip_ws_newline. rewrite skip_ws_stop by done.
    by rewrite Hset.
  - rewrite concat_cons2, chars_app, <- app_assoc, Hmember.
    rewrite !chars_app, <- !app_assoc.
    change (chars "," ++ ?r) with (","%char :: r).
    rewrite skip_ws_stop by done.
    rewrite bool_decide_eq_true_2 by done.
    rewrite parse_string_escape. rewrite skip_ws_stop by done.
    rewrite parse_value_space.
    rewrite parse_inner; [|done|lia|done].
    cbn zeta. rewrite skip_ws_stop by done. rewrite Hset.
    rewrite (IH (acc ++ [(KStr k, w)]) n); [|done|done| |done|
                                             simpl in *; lia|
                                             cbn [length] in *; lia].
    + by rewrite <- app_assoc.
    + by rewrite <- app_assoc.
Qed.

End loops.

(** The first character of a value's text is no whitespace and closes
    neither an array nor an object. *)
Lemma dumps_at_first (level : nat) (v : val) :
  ∃ a t, chars (dumps_at level v) = a :: t
         ∧ is_ws a = false ∧ a ≠ "]"%char ∧ a ≠ "}"%char.
Proof.
  destruct v as [|[]|z|s|[|x l]|[|kv d]];
    try (eexists _, _; split; [reflexivity|]; done).
  destruct (pretty_Z_first z) as (c & t & Hc & Hfirst).
  exists c, t. split; [done|].
  destruct Hfirst as [->|[d Hd]]; [done|].
  destruct c as [[] [] [] [] [] [] [] []];
    try (vm_compute in Hd; discriminate Hd); done.
Qed.

Lemma concat_map_first {A : Type} (sep : string) (g : A → string) (x : A)
    (l : list A) :
  ∃ t, chars (String.concat sep (map g (x :: l))) = chars (g x) ++ t.
Proof.
  destruct l as [|y l].
  - exists []. by rewrite app_nil_r.
  - rewrite concat_cons2, chars_app. eauto.
Qed.

Lemma weight_pos (v : val) : 0 < weight v.
Proof. destruct v; simpl; lia. Qed.

Lemma sum_weights_length (l : list val) : length l ≤ sum_list (map weight l).
Proof.
  induction l as [|x l IH]; simpl; [lia|]. pose proof (weight_pos x). lia.
Qed.

Lemma sum_member_weights_length (d : dict) :
  length d ≤ sum_list (map (fun kv => let '(_, w) := kv in weight w) d).
Proof.
  induction d as [|[k w] d IH]; simpl; [lia|]. pose proof (weight_pos w). lia.
Qed.

(** Reading what was written gives the value back, with enough fuel. *)
Lemma parse_value_dumps (fuel : nat) (v : val) (level : nat) (rest : list ascii) :
  json_value v = true → weight v ≤ fuel → ends_number rest →
  parse_value fuel (chars (dumps_at level v) ++ rest) = Some (v, rest).
Proof.
  revert v level rest.
  induction fuel as [|f IH]; intros v level rest Hj Hw Hrest.
  { pose proof (weight_pos v). lia. }
  destruct v as [|b|z|s|l|d].
  - reflexivity.
  - destruct b; reflexivity.
  - destruct (pretty_Z_first z) as (c & t & Hc & Hfirst).
    cbn [dumps_at]. rewrite Hc. cbn [app]. rewrite parse_value_number by done.
    change (c :: t ++ rest) with ((c :: t) ++ rest). rewrite <- Hc.
    by rewrite parse_int_pretty.
  - cbn [dumps_at]. unfold quote. rewrite chars_cons, chars_app.
    cbn [app]. rewrite <- app_assoc.
    change (chars (String dquote "") ++ rest) with (dquote :: rest).
    by rewrite parse_value_string, parse_string_escape.
  - destruct l as [|x l]; [reflexivity|].
    cbn [json_value] in Hj. cbn [weight] in Hw.
    cbn [dumps_at].
    change (chars ("[" +:+ ?X)) with ("["%char :: chars X).
    rewrite !chars_app. cbn [app]. rewrite <- !app_assoc.
    change (chars "]" ++ rest) with ("]"%char :: rest).
    rewrite parse_value_array.
    match goal with
    | |- match skip_ws ?r with _ => _ end = _ =>
        assert (∃ a t, skip_ws r = a :: t ∧ a ≠ "]"%char) as (a & t & -> & Ha)
    end.
    { rewrite skip_ws_newline.
      destruct (concat_map_first ("," +:+ newline (S level))
                  (dumps_at (S level)) x l) as [t ->].
      destruct (dumps_at_first (S level) x) as (a & u & -> & Hws & Ha & _).
      cbn [app]. rewrite skip_ws_stop by done. eauto. }
    assert (∀ X Y : option (val * list ascii),
              match a :: t with
              | "]"%char :: _ => X
              | _ => Y
              end = Y) as Hmatch.
    { intros X Y. destruct a as [[] [] [] [] [] [] [] []]; done. }
    etrans; [|apply (parse_items_dumps f level (fun v rest => IH v (S level) rest)
                       (x :: l) [] f rest); [done|done|lia|]].
    + destruct a as [[] [] [] [] [] [] [] []]; done.
    + pose proof (sum_weights_length (x :: l)). lia.
  - destruct d as [|[k w] d]; [reflexivity|].
    cbn [json_value] in Hj.
    apply andb_true_iff in Hj as [[Hkeys Hdist]%andb_true_iff Hvals].
    cbn [weight] in Hw.
    cbn [dumps_at].
    change (chars ("{" +:+ ?X)) with ("{"%char :: chars X).
    rewrite !chars_app. cbn [app]. rewrite <- !app_assoc.
    change (chars "}" ++ rest) with ("}"%char :: rest).
    rewrite parse_value_object.
    match goal with
    | |- match skip_ws ?r with _ => _ end = _ =>
        assert (∃ t, skip_ws r = dquote :: t) as (t & ->)
    end.
    { rewrite skip_ws_newline.
      destruct (concat_map_first ("," +:+ newline (S level))
                  (fun kv : key * val =>
                     let '(k, w) := kv in
                     quote (key_text k) +:+ ": " +:+ dumps_at (S level) w)
                  (k, w) d) as [t ->].
      cbn beta iota. unfold quote. rewrite chars_app, chars_cons. cbn [app].
      rewrite skip_ws_stop by done. eauto. }
    change (match dquote :: t with
            | "}"%char :: rest0 => Some (VDict [], rest0)
            | _ => ?Y
            end) with Y.
    apply (parse_members_dumps f level (fun v rest => IH v (S level) rest)
             ((k, w) :: d) [] f rest); [done|done|done|done|lia|].
    pose proof (sum_member_weights_length ((k, w) :: d)). lia.
Qed.

Lemma concat_length {A : Type} (sep : string) (g : A → string) (w : A → nat)
    (l : list A) :
  (∀ x, x ∈ l → w x ≤ length (chars (g x))) →
  sum_list (map w l) ≤ length (chars (String.concat sep (map g l))).
Proof.
  induction l as [|x l IH]; intros Hall; [simpl; lia|].
  assert (w x ≤ length (chars (g x))) as Hx by (apply Hall; left).
  assert (sum_list (map w l) ≤ length (chars (String.concat sep (map g l))))
    as Hl by (apply IH; intros y Hy; apply Hall; by right).
  destruct l as [|y l]; [simpl in *; lia|].
  rewrite concat_cons2, !chars_app, !length_app.
  change (sum_list (map w (x :: y :: l)))
    with (w x + sum_list (map w (y :: l))). lia.
Qed.

Lemma elem_sum_le {A : Type} (w : A → nat) (l : list A) (x : A) :
  x ∈ l → w x ≤ sum_list (map w l).
Proof. induction 1; simpl; lia. Qed.

(** The text of a value has at least as many characters as the value has
    parts. *)
Lemma weight_le_text (n : nat) (v : val) (level : nat) :
  weight v ≤ n → weight v ≤ length (chars (dumps_at level v)).
Proof.
  revert v level. induction n as [|n IH]; intros v level Hn.
  { pose proof (weight_pos v). lia. }
  destruct v as [|b|z|s|l|d].
  - simpl. lia.
  - destruct b; simpl; lia.
  - destruct (pretty_Z_first z) as (c & t & Hc & _).
    cbn [dumps_at weight]. rewrite Hc. simpl. lia.
  - cbn [dumps_at weight]. unfold quote. rewrite chars_cons. simpl. lia.
  - destruct l as [|x l]; [simpl; lia|].
    cbn [weight] in *. cbn [dumps_at].
    change (chars ("[" +:+ ?X)) with ("["%char :: chars X).
    rewrite !chars_app. cbn [length]. rewrite !length_app.
    pose proof (concat_length ("," +:+ newline (S level)) (dumps_at (S level))
                  weight (x :: l)) as Hsum.
    assert (∀ y, y ∈ x :: l → weight y ≤ length (chars (dumps_at (S level) y)))
      as Hall.
    { intros y Hy. apply IH.
      pose proof (elem_sum_le weight _ _ Hy). lia. }
    specialize (Hsum Hall). lia.
  - destruct d as [|[k w] d]; [simpl; lia|].
    cbn [weight] in *. cbn [dumps_at].
    change (chars ("{" +:+ ?X)) with ("{"%char :: chars X).
    rewrite !chars_app. cbn [length]. rewrite !length_app.
    pose proof (concat_length ("," +:+ newline (S level))
                  (fun kv : key * val =>
                     let '(k, w) := kv in
                     quote (key_text k) +:+ ": " +:+ dumps_at (S level) w)
                  (fun kv : key * val => let '(_, w) := kv in weight w)
                  ((k, w) :: d)) as Hsum.
    assert (∀ kv : key * val, kv ∈ (k, w) :: d →
              (let '(_, w) := kv in weight w)
              ≤ length (chars (let '(k, w) := kv in
                               quote (key_text k) +:+ ": "
                               +:+ dumps_at (S level) w))) as Hall.
    { intros [k' w'] Hy. rewrite !chars_app, !length_app.
      assert (weight w' ≤ length (chars (dumps_at (S level) w'))); [|lia].
      apply IH.
      assert (weight w'
              ≤ sum_list (map (fun kv : key * val => let '(_, w) := kv in weight w)
                            ((k, w) :: d))); [|lia].
      apply (elem_sum_le (fun kv : key * val => let '(_, w) := kv in weight w)
               _ _ Hy). }
    specialize (Hsum Hall). lia.
Qed.

(** [json.loads] reads back the value that [json.dumps] wrote. *)
Lemma loads_dumps (v : val) : json_value v = true → loads (dumps v) = Ok v.
Proof.
  intros Hj. unfold loads, dumps.
  fold (chars (dumps_at 0 v)).
  pose proof (parse_value_dumps (S (length (chars (dumps_at 0 v)))) v 0 [] Hj)
    as Hparse.
  rewrite app_nil_r in Hparse. rewrite Hparse; [done| |done].
  pose proof (weight_le_text (weight v) v 0 ltac:(lia)). lia.
Qed.

End json_roundtrip.

Section roundtrip_claim.
Import Py Json FalsePositiveHandler.

Lemma distinct_keys_fmap {A B : Type} (g : A → B) (d : list (key * A)) :
  distinct_keys ((fun kv => (kv.1, g kv.2)) <$> d) = distinct_keys d.
Proof.
  induction d as [|[k v] d IH]; [done|].
  rewrite fmap_cons. cbn [distinct_keys fst snd]. rewrite IH. f_equal.
  clear. induction d as [|[k' v'] d IH]; [done|].
  rewrite fmap_cons. cbn [forallb fst snd]. by rewrite IH.
Qed.

Lemma json_value_asdict (r : FalsePositiveReport) :
  json_report r = true → json_value (asdict r) = true.
Proof.
  unfold json_report. cbn [forallb]. rewrite !andb_true_iff.
  intros (? & ? & ? & ? & ? & ? & ? & ? & _).
  unfold asdict. cbn [json_value forallb fmap list_fmap fst].
  rewrite !andb_true_iff. repeat split; try done.
Qed.

(** The document that [export_false_positives] serializes is a value that
    JSON text can hold. *)
Lemma json_value_export_data (h : Handler) (now : string) :
  json_handler h = true → json_value (export_data h now) = true.
Proof.
  unfold json_handler. rewrite !andb_true_iff.
  intros [[[Hkeys Hdist] Hreports] Hpatterns].
  unfold export_data. cbn [json_value forallb fmap list_fmap fst].
  rewrite !andb_true_iff.
  split; [split; [done|]|].
  { vm_compute. reflexivity. }
  split; [|split; [done|done]].
  split; [split|].
  - rewrite <- list_fmap_compose.
    assert ((fst ∘ (fun kv : key * list FalsePositiveReport =>
                      (kv.1, VList (asdict <$> kv.2)))) <$> false_positives h
            = (false_positives h).*1) as ->; [|done].
    by apply list_fmap_ext.
  - by rewrite (distinct_keys_fmap (fun rs => VList (asdict <$> rs))).
  - clear -Hreports. induction (false_positives h) as [|[k rs] fps IH]; [done|].
    cbn [forallb snd] in Hreports. apply andb_true_iff in Hreports as [Hrs Hfps].
    rewrite fmap_cons. cbn [forallb fst snd]. rewrite IH by done.
    rewrite andb_true_r. cbn [json_value].
    clear -Hrs. induction rs as [|r rs IH]; [done|].
    cbn [forallb] in Hrs. apply andb_true_iff in Hrs as [Hr Hrs].
    rewrite fmap_cons. cbn [forallb]. rewrite json_value_asdict by done.
    by apply IH.
Qed.




End roundtrip_claim.



(** ** Filtering a list of issues *)
Section filtering.
Import Py FalsePositiveHandler.

Lemma dict_lookup_set_other {A : Type} (d : list (key * A)) (s t : string) (v : A) :
  s ≠ t →
  dict_lookup (dict_set d (KStr s) v) (KStr t) = dict_lookup d (KStr t).
Proof.
  intros Hne. induction d as [|[k w] d IH]; simpl.
  - by rewrite bool_decide_eq_false_2.
  - destruct (key_eqb k (KStr s)) eqn:Hk; simpl.
    + apply key_eqb_str in Hk as ->. simpl. by rewrite bool_decide_eq_false_2.
    + by rewrite IH.
Qed.

Lemma dict_lookup_set_same {A : Type} (d : list (key * A)) (s : string) (v : A) :
  dict_lookup (dict_set d (KStr s) v) (KStr s) = Some v.
Proof.
  induction d as [|[k w] d IH]; simpl.
  - by rewrite bool_decide_eq_true_2.
  - destruct (key_eqb k (KStr s)) eqn:Hk; simpl; by rewrite Hk.
Qed.

Lemma dict_set_present {A : Type} (d : list (key * A)) (s : string) (v : A) :
  dict_lookup d (KStr s) = Some v → dict_set d (KStr s) v = d.
Proof.
  induction d as [|[k w] d IH]; simpl; [done|].
  destruct (key_eqb k (KStr s)) eqn:Hk; [congruence|].
  intros H. by rewrite IH.
Qed.

Lemma mark_suppressed_lookup (issue : dict) :
  dict_lookup (mark_suppressed issue) (KStr "suppressed") = Some (VBool true)
  ∧ dict_lookup (mark_suppressed issue) (KStr "suppression_reason")
    = Some (VStr "Known false positive").
Proof.
  unfold mark_suppressed. split.
  - rewrite dict_lookup_set_other by done. apply dict_lookup_set_same.
  - apply dict_lookup_set_same.
Qed.

Lemma mark_suppressed_idem (issue : dict) :
  mark_suppressed (mark_suppressed issue) = mark_suppressed issue.
Proof.
  destruct (mark_suppressed_lookup issue) as [H1 H2].
  unfold mark_suppressed at 1.
  rewrite (dict_set_present _ "suppressed") by done.
  by rewrite dict_set_present.
Qed.

(** The flags do not change what the filter reads from an issue. *)
Lemma suppression_args_marked (issue : dict) :
  suppression_args (mark_suppressed issue) = suppression_args issue.
Proof.
  unfold suppression_args, mark_suppressed.
  by rewrite !dict_lookup_set_other by done.
Qed.

Variable repr : val → string.
Variable h : Handler.
Variable contract_hash : string.

Lemma judged_marked (issue : dict) : judged repr h contract_hash (mark_suppressed issue) = judged repr h contract_hash issue.
Proof. unfold judged. by rewrite suppression_args_marked. Qed.

Lemma issue_of_insert (heap : gmap nat dict) (ref ref' : nat) (d : dict) :
  issue_of (<[ref := d]> heap) ref'
  = if decide (ref = ref') then d else issue_of heap ref'.
Proof.
  unfold issue_of. case_decide.
  - subst. by rewrite lookup_insert_eq.
  - by rewrite lookup_insert_ne.
Qed.

Lemma filter_loop_spec (issues : list nat) (heap : gmap nat dict) (filtered : list nat) :
  (∀ ref, ref ∈ issues → ∃ b, judged repr h contract_hash (issue_of heap ref) = Ok b) →
  ∃ heap',
    filter_loop repr h contract_hash heap filtered issues
    = (Ok (filtered
           ++ filter (fun ref => judged repr h contract_hash (issue_of heap ref) = Ok false) issues),
       heap')
    ∧ ∀ ref,
        heap' !! ref
        = if decide (ref ∈ issues ∧ judged repr h contract_hash (issue_of heap ref) = Ok true)
          then Some (mark_suppressed (issue_of heap ref))
          else heap !! ref.
Proof.
  revert heap filtered.
  induction issues as [|ref issues IH]; intros heap filtered Hall.
  - exists heap. split; [simpl; by rewrite app_nil_r|].
    intros ref. case_decide as Hd; [|done].
    destruct Hd as [Hin _]. by apply elem_of_nil in Hin.
  - destruct (Hall ref) as [b Hb]; [by left|].
    cbn [filter_loop].
    destruct (suppression_args (issue_of heap ref)) as [t loc] eqn:Eargs.
    assert (should_suppress_issue repr h t contract_hash loc default_threshold = Ok b)
      as Hb' by (unfold judged in Hb; by rewrite Eargs in Hb).
    rewrite Hb'. destruct b.
    + set (heap1 := <[ref := mark_suppressed (issue_of heap ref)]> heap).
      assert (Hj : ∀ r, judged repr h contract_hash (issue_of heap1 r) = judged repr h contract_hash (issue_of heap r)).
      { intros r. unfold heap1. rewrite issue_of_insert.
        case_decide; subst; [apply judged_marked|done]. }
      destruct (IH heap1 filtered) as (heap' & -> & Hheap).
      { intros r Hr. rewrite Hj. apply Hall. by right. }
      exists heap'. split.
      * assert (filter (fun r => judged repr h contract_hash (issue_of heap r) = Ok false) (ref :: issues)
                = filter (fun r => judged repr h contract_hash (issue_of heap r) = Ok false) issues) as ->
          by (apply filter_cons_False; congruence).
        do 3 f_equal. apply list_filter_iff. intros r. by rewrite Hj.
      * intros r. rewrite Hheap. clear Hheap.
        pose proof (issue_of_insert heap ref r (mark_suppressed (issue_of heap ref)))
          as Hi. fold heap1 in Hi.
        destruct (decide (r ∈ issues ∧ judged repr h contract_hash (issue_of heap1 r) = Ok true))
          as [[Hin Hjr]|Hn];
          destruct (decide (r ∈ ref :: issues ∧ judged repr h contract_hash (issue_of heap r) = Ok true))
            as [[Hin' Hjr']|Hn'].
        -- rewrite Hi. case_decide; subst; [by rewrite mark_suppressed_idem|done].
        -- exfalso. apply Hn'. split; [by right|by rewrite <- Hj].
        -- unfold heap1. destruct (decide (ref = r)) as [->|Hne].
           ++ by rewrite lookup_insert_eq.
           ++ exfalso. apply Hn. split; [|by rewrite Hj].
              apply elem_of_cons in Hin' as [?|?]; [congruence|done].
        -- unfold heap1. rewrite lookup_insert_ne; [done|].
           intros ->. apply Hn'. split; [by left|done].
    + destruct (IH heap (filtered ++ [ref])) as (heap' & -> & Hheap).
      { intros r Hr. apply Hall. by right. }
      exists heap'. split.
      * assert (filter (fun r => judged repr h contract_hash (issue_of heap r) = Ok false) (ref :: issues)
                = ref :: filter (fun r => judged repr h contract_hash (issue_of heap r) = Ok false) issues)
          as -> by (by apply filter_cons_True).
        by rewrite <- app_assoc.
      * intros r. rewrite Hheap. clear Hheap.
        destruct (decide (r ∈ issues ∧ judged repr h contract_hash (issue_of heap r) = Ok true))
          as [[Hin Hjr]|Hn];
          destruct (decide (r ∈ ref :: issues ∧ judged repr h contract_hash (issue_of heap r) = Ok true))
            as [[Hin' Hjr']|Hn']; try done.
        -- exfalso. apply Hn'. split; [by right|done].
        -- exfalso. apply Hn. split; [|done].
           apply elem_of_cons in Hin' as [->|?]; [congruence|done].
Qed.

End filtering.

Section filtering_claims.
Import Py FalsePositiveHandler.

Lemma sample_heap_judged (ref : nat) :
  ref ∈ [0; 1] →
  ∃ b, judged no_repr verified_handler "abc" (issue_of sample_heap ref) = Ok b.
Proof.
  intros Hin.
  apply elem_of_cons in Hin as [->|Hin]; [exists true; vm_compute; reflexivity|].
  apply list_elem_of_singleton in Hin as ->. exists false. vm_compute. reflexivity.
Qed.

(** C4, as stated, fails: the issue that [should_suppress_issue] accepts is
    not in the returned list. *)
Lemma filter_false_positives_drops_issue :
  judged no_repr verified_handler "abc" (issue_of sample_heap 0) = Ok true
  ∧ ∃ filtered,
      (filter_false_positives no_repr verified_handler sample_heap [0; 1] "abc").1
      = Ok filtered
      ∧ 0 ∉ filtered.
Proof.
  split; [vm_compute; reflexivity|].
  exists [1]. split; [vm_compute; reflexivity|].
  intros Hin. apply list_elem_of_singleton in Hin. done.
Qed.

(** C4 (amended): when [should_suppress_issue] answers for every issue,
    [filter_false_positives] returns, in their order, exactly the issues
    for which it does not hold, unchanged; an issue for which it holds is
    left out of the returned list, and is flagged as suppressed with a
    suppression reason in the caller's dictionary. *)
Theorem filter_false_positives_drops_suppressed (repr : val → string)
    (h : Handler) (heap : gmap nat dict) (issues : list nat) (ch : string) :
  (∀ ref, ref ∈ issues → ∃ b, judged repr h ch (issue_of heap ref) = Ok b) →
  ∃ filtered heap',
    filter_false_positives repr h heap issues ch = (Ok filtered, heap')
    ∧ filtered
      = filter (fun ref => judged repr h ch (issue_of heap ref) = Ok false) issues
    ∧ (∀ ref, ref ∈ filtered → issue_of heap' ref = issue_of heap ref)
    ∧ (∀ ref, ref ∈ issues → judged repr h ch (issue_of heap ref) = Ok true →
         (ref ∉ filtered)
         ∧ dict_lookup (issue_of heap' ref) (KStr "suppressed") = Some (VBool true)
         ∧ dict_lookup (issue_of heap' ref) (KStr "suppression_reason")
           = Some (VStr "Known false positive")).
Proof.
  intros Hall. unfold filter_false_positives.
  destruct (filter_loop_spec repr h ch issues heap [] Hall) as (heap' & -> & Hheap).
  eexists _, heap'. split; [done|]. split; [done|]. split.
  - intros ref [Hj Hin]%list_elem_of_filter. unfold issue_of. rewrite Hheap.
    rewrite decide_False; [done|]. intros [_ ?]. congruence.
  - intros ref Hin Hj. split.
    + intros [Hj' _]%list_elem_of_filter. congruence.
    + assert (issue_of heap' ref = mark_suppressed (issue_of heap ref)) as ->.
      { unfold issue_of at 1. rewrite Hheap. by rewrite decide_True. }
      apply mark_suppressed_lookup.
Qed.

Lemma filter_false_positives_drops_suppressed_witness :
  ∃ filtered heap',
    filter_false_positives no_repr verified_handler sample_heap [0; 1] "abc"
    = (Ok filtered, heap')
    ∧ filtered
      = filter (fun ref => judged no_repr verified_handler "abc"
                             (issue_of sample_heap ref) = Ok false) [0; 1]
    ∧ (∀ ref, ref ∈ filtered → issue_of heap' ref = issue_of sample_heap ref)
    ∧ (∀ ref, ref ∈ [0; 1] →
         judged no_repr verified_handler "abc" (issue_of sample_heap ref) = Ok true →
         (ref ∉ filtered)
         ∧ dict_lookup (issue_of heap' ref) (KStr "suppressed") = Some (VBool true)
         ∧ dict_lookup (issue_of heap' ref) (KStr "suppression_reason")
           = Some (VStr "Known false positive")).
Proof.
  exact (filter_false_positives_drops_suppressed no_repr verified_handler
           sample_heap [0; 1] "abc" sample_heap_judged).
Defined.



End filtering_claims.

(** ** The suppression threshold *)
Section suppression_threshold.
Import Py FalsePositiveHandler.

(** The issue type, the reason and the location kind of the scenario. *)
Variables (T R : string) (K : key).

Lemma update_learning_pattern_good (n : nat) (r : FalsePositiveReport) :
  good_report T R K r →
  _update_learning_pattern (patterns_after T R K n) r = (Ok tt, patterns_after T R K (S n)).
Proof.
  intros (Ht & Hr & loc & Hloc & Hk).
  unfold _update_learning_pattern, commit. rewrite Ht, Hr, Hloc.
  destruct n as [|n].
  - py_eval. fold (kind_of loc). rewrite Hk. done.
  - unfold patterns_after. py_eval.
    replace (Z.of_nat (S n) + 1)%Z with (Z.of_nat (S (S n))) by lia. done.
Qed.

(** Matching two dictionaries never raises. *)
Lemma _location_matches_dicts (a b : dict) :
  ∃ m, _location_matches (VDict a) (VDict b) = Ok m.
Proof.
  unfold _location_matches, line_of, get. cbn.
  destruct (truthy (default VNone (dict_lookup a (KStr "line"))));
    destruct (truthy (default VNone (dict_lookup b (KStr "line")))); cbn;
    repeat match goal with
           | |- context [truthy ?v && truthy ?w] =>
               destruct (truthy v), (truthy w); cbn
           end; eauto.
Qed.

Lemma find_report_good (reports : list FalsePositiveReport) (loc : dict) (i : nat) :
  Forall (good_report T R K) reports →
  (find_report reports (VDict loc) i = Ok None)
  ∨ ∃ j r, find_report reports (VDict loc) i = Ok (Some (i + j, r))
           ∧ reports !! j = Some r.
Proof.
  revert i. induction reports as [|r reports IH]; intros i Hall; [by left|].
  apply Forall_cons in Hall as [(_ & _ & l & Hl & _) Hall].
  cbn [find_report]. rewrite Hl.
  destruct (_location_matches_dicts l loc) as [m ->]. cbn.
  destruct m.
  - right. exists 0, r. by rewrite Nat.add_0_r.
  - destruct (IH (S i) Hall) as [->|(j & r' & -> & Hj)]; [by left|].
    right. exists (S j), r'. split; [|done]. do 3 f_equal. lia.
Qed.

Lemma dict_lookup_elem {A : Type} (d : list (key * A)) (k : key) (v : A) :
  dict_lookup d k = Some v → ∃ k', (k', v) ∈ d ∧ key_eqb k' k = true.
Proof.
  induction d as [|[k' w] d IH]; simpl; [done|].
  destruct (key_eqb k' k) eqn:Hk.
  - intros [= ->]. exists k'. split; [by left|done].
  - intros (k'' & Hin & Hk'')%IH. exists k''. split; [by right|done].
Qed.

Lemma Forall_dict_set {A : Type} (P : key * A → Prop) (d : list (key * A))
    (k : key) (v : A) :
  Forall P d → P (k, v) →
  (∀ k' w, P (k', w) → key_eqb k' k = true → P (k', v)) →
  Forall P (dict_set d k v).
Proof.
  intros Hall Hnew Hrep. induction Hall as [|[k' w] d Hkw Hall IH]; simpl.
  - by constructor.
  - destruct (key_eqb k' k) eqn:Hk; constructor; eauto.
Qed.

Lemma well_keyed_mono units units' kv :
  units ⊆ units' → well_keyed T R K units kv → well_keyed T R K units' kv.
Proof. intros Hsub [(ch & Hch & Hk) Hall]. split; [|done]. exists ch. auto. Qed.

Lemma report_inv units h n issue_id ch loc reported_by now :
  kind_of loc = val_of_key K →
  scenario_inv T R K units h n →
  scenario_inv T R K (units ++ [ch])
    (report_false_positive h issue_id T ch loc R reported_by now).2 n.
Proof.
  intros Hk [Hpat Hfps]. split; [done|]. cbn.
  assert (Forall (well_keyed T R K (units ++ [ch])) (false_positives h)) as Hfps'.
  { eapply Forall_impl; [done|]. intros kv.
    apply well_keyed_mono. set_solver. }
  assert (Forall (good_report T R K)
            (default [] (dict_lookup (false_positives h)
                           (KStr (T +:+ ":" +:+ ch))))) as Hold.
  { destruct (dict_lookup _ _) as [rs|] eqn:E; [|by constructor]. simpl.
    apply dict_lookup_elem in E as (k' & Hin & _).
    rewrite Forall_forall in Hfps. by apply (Hfps _ Hin). }
  assert (Forall (good_report T R K)
            (default [] (dict_lookup (false_positives h)
                           (KStr (T +:+ ":" +:+ ch)))
             ++ [mkReport (VStr issue_id) (VStr T) (VStr ch) (VDict loc) (VStr R)
                   (opt_str reported_by) (VStr now) (VBool false)])) as Hnew.
  { apply Forall_app. split; [done|]. constructor; [|constructor].
    split; [done|]. split; [done|]. by exists loc. }
  apply Forall_dict_set; [done| |].
  - split; [|done]. exists ch. split; [set_solver|done].
  - intros k' w [Hkey _] _. split; [done|]. done.
Qed.

Lemma verify_inv units h n ch loc outcome h' :
  scenario_inv T R K units h n →
  verify_false_positive h T ch loc = (outcome, h') →
  (outcome = Ok true ∧ scenario_inv T R K units h' (S n))
  ∨ (outcome = Ok false ∧ h' = h).
Proof.
  intros [Hpat Hfps]. unfold verify_false_positive.
  destruct (dict_lookup (false_positives h) (KStr (T +:+ ":" +:+ ch)))
    as [reports|] eqn:E; [|intros [= <- <-]; by right].
  assert (Forall (good_report T R K) reports) as Hgood.
  { apply dict_lookup_elem in E as (k' & Hin & _).
    rewrite Forall_forall in Hfps. by apply (Hfps _ Hin). }
  destruct (find_report_good reports loc 0 Hgood) as [->|(j & r & -> & Hj)];
    [intros [= <- <-]; by right|].
  cbn [Nat.add].
  assert (good_report T R K r) as Hr.
  { rewrite Forall_forall in Hgood. apply Hgood.
    eapply list_elem_of_lookup_2; eauto. }
  assert (good_report T R K (with_verified r (VBool true))) as Hr' by done.
  rewrite Hpat, (update_learning_pattern_good n _ Hr'). cbn.
  intros [= <- <-]. left. split; [done|]. split; [done|]. cbn.
  apply Forall_dict_set; [done| |].
  - split.
    + apply dict_lookup_elem in E as (k' & Hin & Hk').
      apply key_eqb_str in Hk' as ->.
      rewrite Forall_forall in Hfps. by destruct (Hfps _ Hin) as [? _].
    + by apply Forall_insert.
  - intros k' w [Hkey _] _. split; [done|]. by apply Forall_insert.
Qed.

Lemma run_inv (ops : list op) units h n0 h' n :
  scenario_inv T R K units h n0 →
  Forall (same_kind K) ops →
  run T R h ops = (h', n) →
  scenario_inv T R K (units ++ reported_units ops) h' (n0 + n).
Proof.
  revert units h n0 h' n.
  induction ops as [|o ops IH]; intros units h n0 h' n Hinv Hkind Hrun.
  - inversion Hrun; subst. rewrite app_nil_r, Nat.add_0_r. done.
  - apply Forall_cons in Hkind as [Hk Hkind].
    destruct o as [issue_id ch loc reported_by now|ch loc]; cbn in Hrun.
    + cbn [reported_units omap list_omap]. fold (reported_units ops).
      replace (units ++ ch :: reported_units ops)
        with ((units ++ [ch]) ++ reported_units ops) by (by rewrite <- app_assoc).
      eapply IH; [|done|done]. by apply report_inv.
    + cbn [reported_units omap list_omap]. fold (reported_units ops).
      destruct (verify_false_positive h T ch loc) as [outcome h1] eqn:Ev.
      destruct (run T R h1 ops) as [h2 m] eqn:Er.
      inversion Hrun; subst.
      destruct (verify_inv _ _ _ _ _ _ _ Hinv Ev) as [[-> Hinv']|[-> ->]].
      * rewrite decide_True by done.
        replace (n0 + (1 + m)) with (S n0 + m) by lia. eapply IH; eauto.
      * rewrite decide_False by done. eapply IH; eauto.
Qed.

Lemma append_inj_l (s a b : string) : s +:+ a = s +:+ b → a = b.
Proof. induction s as [|c s IH]; simpl; [done|]. intros [= H]. auto. Qed.

Lemma dict_lookup_absent {A : Type} (d : list (key * A)) (k : key) :
  Forall (fun kv => key_eqb kv.1 k = false) d → dict_lookup d k = None.
Proof.
  induction 1 as [|[k' v] d Hk _ IH]; simpl; [done|].
  simpl in Hk. by rewrite Hk.
Qed.

Lemma py_eq_key_refl (k : key) : py_eq (val_of_key k) (val_of_key k) = true.
Proof. destruct k; simpl; try done; by apply bool_decide_eq_true. Qed.

Lemma confident_all (c : Z) :
  (0 < c)%Z → confident c c default_threshold = Ok true.
Proof.
  intros Hc. unfold confident. rewrite true_div_same by done. cbn [bind].
  assert (Qle_bool 1 (2 ^ 1074 # 2 ^ 1074) = true) as ->
    by (vm_compute; reflexivity).
  vm_compute. reflexivity.
Qed.

(** What [should_suppress_issue] answers after the scenario for a new issue
    of the type in a unit without reports. *)
Lemma should_suppress_after (repr : val → string) units h n ch' loc' :
  scenario_inv T R K units h n →
  ch' ∉ units →
  kind_of loc' = val_of_key K →
  should_suppress_issue repr h (VStr T) ch' (VDict loc') default_threshold
  = Ok (bool_decide (3 ≤ n)).
Proof.
  intros [Hpat Hfps] Hch Hk.
  unfold should_suppress_issue, is_false_positive, fp_key. cbn [str].
  rewrite dict_lookup_absent.
  2:{ eapply Forall_impl; [exact Hfps|]. intros [k rs] [(ch & Hin & Hkey) _].
      simpl in *. subst k. simpl. apply bool_decide_eq_false.
      intros Heq. apply append_inj_l in Heq. cbn in Heq.
      injection Heq as Heq. apply (append_inj_l "") in Heq. subst. done. }
  rewrite Hpat. destruct n as [|n]; [done|].
  unfold patterns_after. py_eval.
  destruct (bool_decide (3 ≤ Z.of_nat (S n))%Z) eqn:E3.
  - apply bool_decide_eq_true in E3.
    rewrite (bool_decide_eq_true_2 (3 ≤ S n)) by lia.
    py_eval. fold (kind_of loc'). rewrite Hk, py_eq_key_refl.
    rewrite confident_all by lia. done.
  - apply bool_decide_eq_false in E3.
    rewrite (bool_decide_eq_false_2 (3 ≤ S n)) by lia. done.
Qed.

End suppression_threshold.

Section suppression_threshold_claim.
Import Py FalsePositiveHandler.

Lemma scenario_inv_new (T R : string) (K : key) :
  scenario_inv T R K [] new_handler 0.
Proof. split; [done|]. constructor. Qed.

Lemma verified_sum_dict_set (d : list (key * list FalsePositiveReport))
    (k : key) (v : list FalsePositiveReport) :
  sum_list ((fun kv => length (verified_among kv.2)) <$> dict_set d k v)
  + length (verified_among (default [] (dict_lookup d k)))
  = sum_list ((fun kv => length (verified_among kv.2)) <$> d)
    + length (verified_among v).
Proof.
  induction d as [|[k' w] d IH].
  - cbn [dict_set dict_lookup default from_option id fmap list_fmap sum_list snd].
    change (verified_among []) with (@nil FalsePositiveReport).
    simpl. lia.
  - cbn [dict_set dict_lookup].
    destruct (key_eqb k' k);
      cbn [default from_option id fmap list_fmap sum_list snd] in *; lia.
Qed.

Lemma verified_among_insert (reports : list FalsePositiveReport) (i : nat)
    (r : FalsePositiveReport) :
  length (verified_among (<[i := r]> reports))
  ≤ length (verified_among reports) + 1.
Proof.
  unfold verified_among. revert i.
  induction reports as [|r0 reports IH]; intros i; [simpl; lia|].
  destruct i as [|i].
  - change (<[0 := r]> (r0 :: reports)) with (r :: reports).
    rewrite !filter_cons. repeat case_decide; simpl; lia.
  - change (<[S i := r]> (r0 :: reports)) with (r0 :: <[i := r]> reports).
    rewrite !filter_cons. pose proof (IH i). case_decide; simpl; lia.
Qed.

(** A report adds no verified report. *)
Lemma report_verified_total (h : Handler) (issue_id T ch : string) (loc : dict)
    (R : string) (reported_by : option string) (now : string) :
  verified_total (report_false_positive h issue_id T ch loc R reported_by now).2
  = verified_total h.
Proof.
  unfold verified_total, report_false_positive. cbn [snd false_positives].
  pose proof (verified_sum_dict_set (false_positives h)
                (KStr (T +:+ ":" +:+ ch))
                (default [] (dict_lookup (false_positives h)
                               (KStr (T +:+ ":" +:+ ch)))
                 ++ [mkReport (VStr issue_id) (VStr T) (VStr ch) (VDict loc)
                       (VStr R) (opt_str reported_by) (VStr now)
                       (VBool false)])) as Hsum.
  unfold verified_among in Hsum at 4. rewrite filter_app in Hsum.
  rewrite filter_cons_False, filter_nil, app_nil_r in Hsum by done.
  fold (verified_among (default [] (dict_lookup (false_positives h)
                                      (KStr (T +:+ ":" +:+ ch))))) in Hsum.
  lia.
Qed.

(** A verification adds at most one verified report. *)
Lemma verify_verified_total (h h' : Handler) (T ch : string) (loc : dict)
    (outcome : result bool) :
  verify_false_positive h T ch loc = (outcome, h') →
  verified_total h' ≤ verified_total h + 1.
Proof.
  unfold verify_false_positive. intros Ev.
  destruct (dict_lookup (false_positives h) (KStr (T +:+ ":" +:+ ch)))
    as [reports|] eqn:E; [|injection Ev as <- <-; lia].
  destruct (find_report reports (VDict loc) 0) as [[[i r]|]|];
    [|injection Ev as <- <-; lia..].
  destruct (_update_learning_pattern _ _) as [updated patterns].
  injection Ev as <- <-.
  unfold verified_total. cbn [false_positives].
  pose proof (verified_sum_dict_set (false_positives h)
                (KStr (T +:+ ":" +:+ ch))
                (<[i := with_verified r (VBool true)]> reports)) as Hsum.
  rewrite E in Hsum. cbn [default from_option id] in Hsum.
  pose proof (verified_among_insert reports i (with_verified r (VBool true))).
  lia.
Qed.

(** In the scenario the number of verified reports is at most the number
    of verifications that succeeded. *)
Lemma run_verified_total (T R : string) (K : key) (ops : list op)
    (units : list string) (h h' : Handler) (n0 n : nat) :
  scenario_inv T R K units h n0 →
  Forall (same_kind K) ops →
  run T R h ops = (h', n) → verified_total h' ≤ verified_total h + n.
Proof.
  revert units h h' n0 n.
  induction ops as [|o ops IH]; intros units h h' n0 n Hinv Hkind Hrun.
  - injection Hrun as <- <-. lia.
  - apply Forall_cons in Hkind as [Hk Hkind].
    destruct o as [issue_id ch loc reported_by now|ch loc]; cbn [run] in Hrun.
    + eapply IH in Hrun; [|by apply report_inv|done].
      by rewrite report_verified_total in Hrun.
    + destruct (verify_false_positive h T ch loc) as [outcome h1] eqn:Ev.
      destruct (run T R h1 ops) as [h2 m] eqn:Er.
      injection Hrun as <- <-.
      pose proof (verify_verified_total _ _ _ _ _ _ Ev) as Hone.
      destruct (verify_inv _ _ _ _ _ _ _ _ _ _ Hinv Ev) as [[-> Hinv']|[-> ->]].
      * rewrite decide_True by done.
        eapply IH in Er; [|exact Hinv'|done]. lia.
      * rewrite decide_False by done.
        eapply IH in Er; [|exact Hinv|done]. lia.
Qed.

(** C5, as stated, fails.  Two false positives of one type with the same
    reason and location kind are reported, in the units ["u1"] and ["u2"],
    and each is verified, the first a second time: exactly two reports are
    stored and both are verified, and [should_suppress_issue] at the default
    threshold returns [True], not [False], for a new issue of the type with
    that location kind in a third unit. *)
Lemma suppression_counts_verifications :
  let h := (run "reentrancy" "guarded by a mutex" new_handler twice_verified).1 in
  stored_total h = 2
  ∧ verified_total h = 2
  ∧ should_suppress_issue no_repr h (VStr "reentrancy") "u4"
      (VDict [(KStr "line", VInt 40); (KStr "type", VStr "function")])
      default_threshold
    = Ok true.
Proof. vm_compute. done. Qed.

(** C5 (amended): start from a fresh handler and make any calls that report
    false positives of type [T] with reason [R] and location kind [K] and
    that verify reports of type [T]; let [n] be the number of verifications
    that returned [True].  For a new issue of type [T] with location kind
    [K] in a unit without reports, [should_suppress_issue] at the default
    threshold returns [True] exactly when [n] is at least 3 (the confidence
    is then n/n = 1.0, which is at least 0.7): so [False] after two reports
    that were verified once each, and [True] once a third was reported and
    verified.  Every successful verification counts, also one of a report
    that was verified before; the number of verified reports is at most
    [n]. *)
Theorem suppression_threshold (repr : val → string) (T R : string) (K : key)
    (ops : list op) (h : Handler) (n : nat) (ch' : string) (loc' : dict) :
  Forall (same_kind K) ops →
  run T R new_handler ops = (h, n) →
  ch' ∉ reported_units ops →
  kind_of loc' = val_of_key K →
  should_suppress_issue repr h (VStr T) ch' (VDict loc') default_threshold
  = Ok (bool_decide (3 ≤ n))
  ∧ verified_total h ≤ n.
Proof.
  intros Hkind Hrun Hch Hk.
  pose proof (run_inv T R K ops [] new_handler 0 h n
                (scenario_inv_new T R K) Hkind Hrun) as Hinv.
  split.
  - by rewrite (should_suppress_after T R K repr _ _ _ _ _ Hinv Hch Hk).
  - by apply (run_verified_total T R K ops [] new_handler h 0 n
                (scenario_inv_new T R K) Hkind Hrun).
Qed.

Lemma suppression_threshold_witness :
  should_suppress_issue no_repr
    (run "reentrancy" "guarded by a mutex" new_handler three_verified).1
    (VStr "reentrancy") "u4"
    (VDict [(KStr "line", VInt 40); (KStr "type", VStr "function")])
    default_threshold
  = Ok (bool_decide (3 ≤ 3)).
Proof.
  refine (proj1 (suppression_threshold no_repr "reentrancy" "guarded by a mutex"
                   (KStr "function") three_verified _ 3 "u4"
                   [(KStr "line", VInt 40); (KStr "type", VStr "function")]
                   _ _ _ _)).
  - repeat constructor.
  - vm_compute. reflexivity.
  - vm_compute. intros Hin. repeat (apply elem_of_cons in Hin as [Hin|Hin]; [done|]).
    by apply elem_of_nil in Hin.
  - reflexivity.
Defined.

End suppression_threshold_claim.

(** ** Typed stores: [should_suppress_issue] answers *)
Section typed_inputs.
Import Py FalsePositiveHandler.

Lemma any_verified_match_dicts (reports : list FalsePositiveReport) (loc : dict) :
  forallb (fun r => is_dict (location r)) reports = true →
  ∃ b, any_verified_match reports (VDict loc) = Ok b.
Proof.
  induction reports as [|r reports IH]; [by exists false|].
  intros [Hr Hrs]%andb_true_iff. cbn [any_verified_match].
  destruct (truthy (verified r)); [|by apply IH].
  destruct (location r) as [| | | | |l]; try done.
  destruct (_location_matches_dicts l loc) as [m ->]. cbn.
  destruct m; [by exists true|by apply IH].
Qed.

Lemma confident_typed (c fp : Z) (thr : Q) :
  (3 ≤ fp)%Z → (Z.abs c < 2 ^ 1024)%Z → ∃ b, confident c fp thr = Ok b.
Proof.
  intros Hfp Hc. unfold confident.
  destruct (true_div_bounded c fp) as [q ->]; [lia|done|]. cbn [bind]. eauto.
Qed.

Lemma any_confident_pattern_typed (ps : list val) (lt : val) (fp : Z) (thr : Q) :
  (3 ≤ fp)%Z →
  forallb typed_pattern ps = true →
  ∃ b, any_confident_pattern ps lt fp thr = Ok b.
Proof.
  intros Hfp. induction ps as [|p ps IH]; [by exists false|].
  intros [Hp Hps]%andb_true_iff. cbn [any_confident_pattern].
  destruct p as [| | | | |d]; try done. cbn [get bind].
  destruct (py_eq _ lt); [|by apply IH].
  unfold typed_pattern, is_count in Hp.
  assert (∃ z, num (default (VInt 0) (dict_lookup d (KStr "count"))) = Some z
               ∧ (Z.abs z < 2 ^ 1024)%Z) as (z & -> & Hz).
  { destruct (dict_lookup d (KStr "count")) as [c|]; cbn [default from_option id].
    - destruct (num c) as [z|]; [|done]. apply bool_decide_eq_true in Hp. eauto.
    - exists 0%Z. split; [done|]. vm_compute. reflexivity. }
  destruct (confident_typed z fp thr Hfp Hz) as [sure ->]. cbn [bind].
  destruct sure; [by exists true|by apply IH].
Qed.

Lemma forallb_dict_lookup {A : Type} (P : key * A → bool) (check : A → bool)
    (d : list (key * A)) (k : key) (v : A) :
  (∀ kv, P kv = check kv.2) →
  forallb P d = true → dict_lookup d k = Some v → check v = true.
Proof.
  intros HP Hall Hk. apply dict_lookup_elem in Hk as (k' & Hin & _).
  rewrite forallb_forall in Hall. apply list_elem_of_In in Hin.
  change (check (k', v).2 = true). rewrite <- HP. by apply Hall.
Qed.



End typed_inputs.

(** ** Change sets: regions, bounds, appended and removed lines *)
Section changeset_more.
Import IncrementalAnalyzer.

Lemma length_line_hashes (lines : list string) :
  length (line_hashes lines) = length lines.
Proof. apply length_fmap. Qed.

(** X10: the unchanged regions of [compute_changeset] are in ascending
    order and disjoint.  A line number lies in one of them exactly when both
    revisions have a line with that number and the two lines have the same
    MD5 digest, or when it is the number of the first old line past the end
    of the new revision and the last line of the new revision has the same
    digest in both.  A line number in a region is not in [added_lines] or
    [modified_lines]; it is in [removed_lines] only in the second case, so
    a region can end with one removed line. *)
Theorem compute_changeset_unchanged_regions (old_code new_code : string) :
  let old_len := length (split_lines old_code) in
  let new_len := length (split_lines new_code) in
  ∃ cs, compute_changeset old_code new_code = Some cs
    ∧ regions_sorted (unchanged_regions cs)
    ∧ (∀ n, covered (unchanged_regions cs) n
            ↔ same_digest old_code new_code n
              ∨ (n = new_len + 1 ∧ n ≤ old_len
                 ∧ same_digest old_code new_code new_len))
    ∧ (∀ n, covered (unchanged_regions cs) n →
            (n ∉ added_lines cs) ∧ (n ∉ modified_lines cs)
            ∧ (n ∈ removed_lines cs ↔ n = new_len + 1)).
Proof.
  intros old_len new_len.
  destruct (compute_changeset_char old_code new_code)
    as (cs & Hcs & Ha & Hm & Hr & Hsorted & Hcov).
  set (oh := line_hashes (split_lines old_code)) in *.
  set (nh := line_hashes (split_lines new_code)) in *.
  assert (Hlo : length oh = old_len) by apply length_line_hashes.
  assert (Hln : length nh = new_len) by apply length_line_hashes.
  assert (Hpos : 0 < new_len) by apply split_lines_nonempty.
  assert (Hsame : ∀ n, 1 ≤ n → same_at oh nh (n - 1) ↔ same_digest old_code new_code n).
  { intros n Hn. unfold same_at, same_digest. fold oh nh. split.
    - intros (Ho & Hnw & Heq). split; [done|].
      exists (oh !!! (n - 1)). split.
      + by apply list_lookup_lookup_total_lt.
      + rewrite <- Heq. by apply list_lookup_lookup_total_lt.
    - intros (_ & h & Ho & Hnw).
      split; [by eapply lookup_lt_Some|]. split; [by eapply lookup_lt_Some|].
      apply list_lookup_total_correct in Ho, Hnw. congruence. }
  assert (Hchar : ∀ n, covered (unchanged_regions cs) n
                       ↔ same_digest old_code new_code n
                         ∨ (n = new_len + 1 ∧ n ≤ old_len
                            ∧ same_digest old_code new_code new_len)).
  { intros n. rewrite Hcov, Hlo, Hln. split.
    - intros [Hn [Hs|[-> Hs]]].
      + left. apply Hsame; [lia|done].
      + right. split; [done|]. split; [lia|]. apply Hsame; [lia|done].
    - intros [Hs|(-> & Hle & Hs)].
      + pose proof Hs as [Hn _]. apply Hsame in Hs; [|done].
        split; [|by left]. destruct Hs as (Ho & _). lia.
      + split; [lia|]. right. split; [done|]. by apply Hsame. }
  exists cs. split; [done|]. split; [done|]. split; [done|].
  intros n Hn. apply Hcov in Hn as [Hn Hcase]. rewrite Hlo, Hln in *.
  destruct Hcase as [(Ho & Hnw & Heq)|(-> & _)].
  - split; [|split].
    + intros (i & _ & -> & Hi)%Ha. replace (i + 1 - 1) with i in * by lia.
      destruct Hi as [?|[? _]]; [lia|congruence].
    + intros (i & _ & -> & Hi)%Hm. replace (i + 1 - 1) with i in * by lia.
      destruct Hi as (_ & ? & _). congruence.
    + split; [|lia].
      intros (i & _ & -> & Hi)%Hr. replace (i + 1 - 1) with i in * by lia.
      destruct Hi as [?|Hi]; [lia|]. exfalso. apply Hi. rewrite <- Heq.
      by apply list_elem_of_lookup_total_2.
  - split; [|split].
    + intros (i & ? & ? & _)%Ha. lia.
    + intros (i & ? & ? & _)%Hm. lia.
    + split; [done|]. intros _. apply Hr. exists new_len.
      split; [lia|]. split; [done|]. left. lia.
Qed.

(** X11: line numbers stay within the revisions: [added_lines] and
    [modified_lines] hold line numbers of the new revision, and
    [removed_lines] of the old one.  Every line of the new revision past the
    end of the old one is added, and every line of the old revision past
    the end of the new one is removed. *)
Theorem compute_changeset_bounds (old_code new_code : string) :
  let old_len := length (split_lines old_code) in
  let new_len := length (split_lines new_code) in
  ∃ cs, compute_changeset old_code new_code = Some cs
    ∧ (∀ n, n ∈ added_lines cs ∪ modified_lines cs → 1 ≤ n ≤ new_len)
    ∧ (∀ n, n ∈ removed_lines cs → 1 ≤ n ≤ old_len)
    ∧ (∀ n, old_len < n ≤ new_len → n ∈ added_lines cs)
    ∧ (∀ n, new_len < n ≤ old_len → n ∈ removed_lines cs).
Proof.
  intros old_len new_len.
  destruct (compute_changeset_char old_code new_code)
    as (cs & Hcs & Ha & Hm & Hr & _).
  rewrite !length_line_hashes in *. fold old_len new_len in Ha, Hm, Hr.
  exists cs. split; [done|]. split; [|split; [|split]].
  - intros n [(i & ? & -> & _)%Ha|(i & ? & -> & _)%Hm]%elem_of_union; lia.
  - intros n (i & ? & -> & _)%Hr. lia.
  - intros n Hn. apply Ha. exists (n - 1). split; [lia|]. split; [lia|].
    left. rewrite length_line_hashes. fold old_len. lia.
  - intros n Hn. apply Hr. exists (n - 1). split; [lia|]. split; [lia|].
    left. rewrite length_line_hashes. fold new_len. lia.
Qed.


Lemma split_lines_followed_by (code more : string) :
  split_lines (followed_by code more) = split_lines code ++ split_lines more.
Proof.
  unfold followed_by. induction code as [|a code IH].
  - done.
  - change (String a code +:+ String "010" more)
      with (String a (code +:+ String "010" more)).
    cbn [split_lines]. rewrite IH.
    destruct (Ascii.eqb a "010"); [done|].
    pose proof (split_lines_nonempty code) as Hpos.
    destruct (split_lines code); [simpl in Hpos; lia|done].
Qed.

Section scan.
Variables old_hashes new_hashes : list string.
Variable removed : gset nat.

(** Past the last unchanged index the scan adds no region. *)
Lemma scan_regions_none (fuel i : nat) (regions : list (nat * nat)) :
  i ≤ length old_hashes → length old_hashes < i + fuel →
  (∀ j, i ≤ j < length old_hashes →
        unchanged_at old_hashes new_hashes removed j = false) →
  scan_regions old_hashes new_hashes removed fuel i regions = Some regions.
Proof.
  revert i. induction fuel as [|fuel IH]; intros i Hi Hfuel Hnone; [lia|].
  cbn [scan_regions]. case_bool_decide as Hlt; [|done].
  rewrite Hnone by lia. apply IH; [lia..|]. intros j Hj. apply Hnone. lia.
Qed.

(** When a region starts at the first index, goes on up to line [n] and
    no region can start after it, the scan yields the single region
    [(1, n)]. *)
Lemma scan_regions_prefix (n : nat) :
  0 < n ≤ length old_hashes →
  unchanged_at old_hashes new_hashes removed 0 = true →
  (∀ j, j + 1 < n → extends_at old_hashes new_hashes removed j = true) →
  extends_at old_hashes new_hashes removed (n - 1) = false →
  (∀ j, n ≤ j < length old_hashes →
        unchanged_at old_hashes new_hashes removed j = false) →
  scan_regions old_hashes new_hashes removed (S (length old_hashes)) 0 []
  = Some [(1, n)].
Proof.
  intros Hn Hstart Hyes Hstop Hno.
  cbn [scan_regions]. rewrite bool_decide_eq_true_2 by lia.
  rewrite Hstart.
  destruct (extend_region_spec old_hashes new_hashes removed
              (S (length old_hashes)) 0)
    as (i' & -> & Hr & Hall & Hend); [lia..|].
  assert (i' + 1 = n) as Hi'.
  { destruct (decide (i' + 1 < n)) as [Hlt|Hge].
    - rewrite Hyes in Hend by done. done.
    - destruct (decide (n - 1 < i')) as [Hlt|]; [|lia].
      rewrite Hall in Hstop by lia. done. }
  rewrite bool_decide_eq_true_2 by lia. rewrite Hi'. simpl.
  apply scan_regions_none; [lia..|]. intros j Hj. apply Hno. lia.
Qed.

End scan.

(** The change set from its three sets and its regions. *)
Lemma compute_changeset_intro (old_code new_code : string)
    (A M R : gset nat) (rs : list (nat * nat)) :
  let oh := line_hashes (split_lines old_code) in
  let nh := line_hashes (split_lines new_code) in
  (∀ n, n ∈ A ↔ ∃ i, i < length nh ∧ n = i + 1 ∧ is_added oh nh i) →
  (∀ n, n ∈ M ↔ ∃ i, i < length nh ∧ n = i + 1 ∧ is_modified oh nh i) →
  (∀ n, n ∈ R ↔ ∃ i, i < length oh ∧ n = i + 1 ∧ is_removed oh nh i) →
  scan_regions oh nh R (S (length oh)) 0 [] = Some rs →
  compute_changeset old_code new_code = Some (mkChangeSet A M R rs).
Proof.
  intros oh nh HA HM HR Hscan. unfold compute_changeset. fold oh nh.
  destruct (classify_fold oh nh (length (split_lines new_code)) ∅ ∅) as [Ha Hm].
  destruct (foldl (classify_line oh nh) _ _) as [A' M']. cbn [fst snd] in Ha, Hm.
  unfold oh, nh in *. rewrite !length_line_hashes in *.
  assert (A' = A) as ->.
  { apply set_eq. intros n. rewrite Ha, HA. set_solver. }
  assert (M' = M) as ->.
  { apply set_eq. intros n. rewrite Hm, HM. set_solver. }
  assert (foldl (mark_removed (line_hashes (split_lines old_code))
                   (line_hashes (split_lines new_code))) ∅
            (seq 0 (length (split_lines old_code))) = R) as ->.
  { apply set_eq. intros n. rewrite removed_fold, HR. set_solver. }
  rewrite Hscan. done.
Qed.

(** Lines appended to a revision. *)
Lemma compute_changeset_appended (code more : string) :
  let n := length (split_lines code) in
  compute_changeset code (followed_by code more)
  = Some (mkChangeSet (line_range (n + 1) (length (split_lines more))) ∅ ∅
            [(1, n)]).
Proof.
  intros n. apply compute_changeset_intro; cbn zeta;
    rewrite split_lines_followed_by; unfold line_hashes; rewrite fmap_app;
    fold (line_hashes (split_lines code)) (line_hashes (split_lines more));
    set (oh := line_hashes (split_lines code));
    set (eh := line_hashes (split_lines more));
    assert (Hn : length oh = n) by apply length_line_hashes;
    assert (Hk : length eh = length (split_lines more))
      by apply length_line_hashes;
    assert (Hsame : ∀ i, i < n → (oh ++ eh) !!! i = oh !!! i)
      by (intros i Hi; apply lookup_total_app_l; lia).
  - intros x. unfold line_range. rewrite elem_of_set_seq, length_app.
    unfold is_added. split.
    + intros Hx. exists (x - 1). split; [lia|]. split; [lia|]. left. lia.
    + intros (i & Hi & -> & [?|[Hne _]]); [lia|].
      destruct (decide (i < n)); [|lia]. rewrite Hsame in Hne by done. done.
  - intros x. unfold is_modified. split; [set_solver|].
    intros (i & _ & _ & Hi & Hne & _). rewrite Hsame in Hne by lia. done.
  - intros x. unfold is_removed. split; [set_solver|].
    intros (i & Hi & _ & [Hlen|Hnin]).
    + rewrite length_app in Hlen. lia.
    + exfalso. apply Hnin. apply elem_of_app. left.
      by apply list_elem_of_lookup_total_2.
  - pose proof (split_lines_nonempty code) as Hpos. fold n in Hpos.
    rewrite <- Hn. apply scan_regions_prefix.
    + lia.
    + apply unchanged_at_true. split; [set_solver|]. right. apply Hsame. lia.
    + intros j Hj. apply extends_at_true. split; [lia|].
      split; [set_solver|]. right. apply Hsame. lia.
    + apply not_true_is_false. intros (Hlt & _)%extends_at_true. lia.
    + intros j Hj. lia.
Qed.

(** Lines cut off the end of a revision: the region of the lines that
    remain goes on over the first line cut off. *)
Lemma compute_changeset_cut (code more : string) :
  let n := length (split_lines code) in
  compute_changeset (followed_by code more) code
  = Some (mkChangeSet ∅ ∅ (line_range (n + 1) (length (split_lines more)))
            [(1, n + 1)]).
Proof.
  intros n.
  set (R := line_range (n + 1) (length (split_lines more))).
  apply compute_changeset_intro; cbn zeta;
    rewrite split_lines_followed_by; unfold line_hashes; rewrite fmap_app;
    fold (line_hashes (split_lines code)) (line_hashes (split_lines more));
    set (nh := line_hashes (split_lines code));
    set (eh := line_hashes (split_lines more));
    assert (Hn : length nh = n) by apply length_line_hashes;
    assert (Hk : length eh = length (split_lines more))
      by apply length_line_hashes;
    assert (Hsame : ∀ i, i < n → (nh ++ eh) !!! i = nh !!! i)
      by (intros i Hi; apply lookup_total_app_l; lia).
  - intros x. unfold is_added. split; [set_solver|].
    intros (i & Hi & _ & [Hlen|[Hne _]]).
    + rewrite length_app in Hlen. lia.
    + rewrite Hsame in Hne by lia. done.
  - intros x. unfold is_modified. split; [set_solver|].
    intros (i & Hi & _ & _ & Hne & _). rewrite Hsame in Hne by lia. done.
  - intros x. unfold R, line_range. rewrite elem_of_set_seq, length_app.
    unfold is_removed. split.
    + intros Hx. exists (x - 1). split; [lia|]. split; [lia|]. left. lia.
    + intros (i & Hi & -> & [?|Hnin]); [lia|].
      destruct (decide (i < n)); [|lia]. exfalso. apply Hnin.
      rewrite Hsame by done. apply list_elem_of_lookup_total_2. lia.
  - pose proof (split_lines_nonempty code) as Hpos. fold n in Hpos.
    pose proof (split_lines_nonempty more) as Hmore.
    assert (HR : ∀ x, x ∈ R ↔ n + 1 ≤ x < n + 1 + length (split_lines more)).
    { intros x. unfold R, line_range. by rewrite elem_of_set_seq. }
    assert (Hlen : length (nh ++ eh) = n + length (split_lines more))
      by (rewrite length_app; lia).
    apply scan_regions_prefix.
    + lia.
    + apply unchanged_at_true. split; [rewrite HR; lia|].
      right. symmetry. apply Hsame. lia.
    + intros j Hj. apply extends_at_true. split; [lia|].
      split; [rewrite HR; lia|].
      destruct (decide (j + 1 < n)); [right|left; lia].
      symmetry. by apply Hsame.
    + apply not_true_is_false. intros (_ & Hnr & _)%extends_at_true.
      apply Hnr, HR. lia.
    + intros j Hj. apply not_true_is_false. intros (Hnr & _)%unchanged_at_true.
      apply Hnr, HR. lia.
Qed.


(** X12: appending lines.  When the new revision is the old one followed by
    a line break and more text, [compute_changeset] reports exactly the
    appended lines as added, nothing as modified or removed, and the whole
    old revision as the one unchanged region. *)
Theorem compute_changeset_append (code more : string) :
  let n := length (split_lines code) in
  compute_changeset code (followed_by code more)
  = Some (mkChangeSet (line_range (n + 1) (length (split_lines more))) ∅ ∅
            [(1, n)]).
Proof. apply compute_changeset_appended. Qed.

(** X13: cutting lines off the end.  When the old revision is the new one
    followed by a line break and more text, [compute_changeset] reports
    exactly the lines cut off as removed and nothing as added or modified.
    Its one unchanged region holds the whole new revision and, after it,
    the first of the removed lines. *)
Theorem compute_changeset_truncate (code more : string) :
  let n := length (split_lines code) in
  compute_changeset (followed_by code more) code
  = Some (mkChangeSet ∅ ∅ (line_range (n + 1) (length (split_lines more)))
            [(1, n + 1)]).
Proof. apply compute_changeset_cut. Qed.

Lemma followed_by_nonempty (code more : string) : followed_by code more ≠ "".
Proof. unfold followed_by. by destruct code. Qed.

(** The comparison of the change ratio with one half. *)
Lemma ratio_below_half (changes lines : nat) :
  0 < lines →
  negb (Qle_bool (1 # 2) (Z.of_nat changes # Pos.of_nat lines))
  = bool_decide (2 * changes < lines).
Proof.
  intros Hpos. unfold Qle_bool. cbn [Qnum Qden].
  assert (Z.pos (Pos.of_nat lines) = Z.of_nat lines) as ->
    by (rewrite <- positive_nat_Z, Nat2Pos.id by lia; done).
  destruct (decide (2 * changes < lines)) as [Hlt|Hge].
  - rewrite bool_decide_eq_true_2 by done. apply negb_true_iff, Z.leb_gt. lia.
  - rewrite bool_decide_eq_false_2 by done. apply negb_false_iff, Z.leb_le. lia.
Qed.

(** X14: [should_analyze_incrementally] is false without an old revision
    (or with an empty one) and true for a non-empty revision compared with
    itself; when lines are appended to a non-empty revision, or cut off its
    end, it holds exactly when fewer lines are appended or cut off than
    remain. *)
Theorem should_analyze_incrementally_cases (code more new_code : string) :
  code ≠ "" →
  let n := length (split_lines code) in
  let k := length (split_lines more) in
  should_analyze_incrementally None new_code = Some false
  ∧ should_analyze_incrementally (Some "") new_code = Some false
  ∧ should_analyze_incrementally (Some code) code = Some true
  ∧ should_analyze_incrementally (Some code) (followed_by code more)
    = Some (bool_decide (k < n))
  ∧ should_analyze_incrementally (Some (followed_by code more)) code
    = Some (bool_decide (k < n)).
Proof.
  intros Hne n k.
  pose proof (split_lines_nonempty code) as Hpos. fold n in Hpos.
  split; [done|]. split; [done|].
  unfold should_analyze_incrementally.
  rewrite (bool_decide_eq_false_2 (code = "")) by done.
  rewrite (bool_decide_eq_false_2 (followed_by code more = ""))
    by apply followed_by_nonempty.
  rewrite compute_changeset_identical, compute_changeset_appended,
    compute_changeset_cut.
  cbn [mbind option_bind added_lines modified_lines removed_lines].
  rewrite split_lines_followed_by, length_app. fold n k.
  unfold line_range. rewrite !size_set_seq, !size_empty.
  rewrite Nat.max_id, (Nat.max_r n (n + k)), (Nat.max_l (n + k) n) by lia.
  rewrite !bool_decide_eq_true_2 by lia.
  rewrite !ratio_below_half by lia.
  split; [|split]; f_equal.
  - apply bool_decide_eq_true_2. lia.
  - apply bool_decide_ext. lia.
  - apply bool_decide_ext. lia.
Qed.

Lemma should_analyze_incrementally_cases_witness :
  should_analyze_incrementally (Some "a") (followed_by "a" "b") = Some false.
Proof.
  exact (proj1 (proj2 (proj2 (proj2
           (should_analyze_incrementally_cases "a" "b" "" ltac:(done)))))).
Defined.

(** X28: the diff is positional.  When lines are put in front of a
    revision and all the lines of the result have different digests,
    [compute_changeset] reports every line number of the old revision as
    modified, the line numbers beyond it as added, nothing as removed and
    no unchanged region; [should_analyze_incrementally] then returns
    [False]. *)
Theorem compute_changeset_prepend (code more : string) :
  NoDup (line_hashes (split_lines (followed_by more code))) →
  let n := length (split_lines code) in
  compute_changeset code (followed_by more code)
  = Some (mkChangeSet (line_range (n + 1) (length (split_lines more)))
            (line_range 1 n) ∅ [])
  ∧ should_analyze_incrementally (Some code) (followed_by more code)
    = Some false.
Proof.
  intros Hnd n.
  assert (compute_changeset code (followed_by more code)
          = Some (mkChangeSet (line_range (n + 1) (length (split_lines more)))
                    (line_range 1 n) ∅ [])) as Hcs.
  { set (oh := line_hashes (split_lines code)).
    set (eh := line_hashes (split_lines more)).
    assert (Hnd' : NoDup (eh ++ oh)).
    { rewrite split_lines_followed_by in Hnd. unfold line_hashes in Hnd.
      by rewrite fmap_app in Hnd. }
    assert (Hn : length oh = n) by apply length_line_hashes.
    assert (Hk : length eh = length (split_lines more))
      by apply length_line_hashes.
    pose proof (split_lines_nonempty more) as Hpos.
    assert (Hin : ∀ i, i < n → oh !!! i ∈ eh ++ oh).
    { intros i Hi. apply elem_of_app. right.
      apply list_elem_of_lookup_total_2. lia. }
    assert (Hne : ∀ i, i < n → oh !!! i ≠ (eh ++ oh) !!! i).
    { intros i Hi Heq.
      assert ((eh ++ oh) !! (length eh + i) = Some (oh !!! i)) as H1.
      { rewrite lookup_app_r by lia.
        replace (length eh + i - length eh) with i by lia.
        apply list_lookup_lookup_total_lt. lia. }
      assert ((eh ++ oh) !! i = Some (oh !!! i)) as H2.
      { rewrite Heq. apply list_lookup_lookup_total_lt.
        rewrite length_app. lia. }
      pose proof (NoDup_lookup _ _ _ _ Hnd' H1 H2). lia. }
    apply compute_changeset_intro; cbn zeta;
      rewrite split_lines_followed_by; unfold line_hashes; rewrite fmap_app;
      fold (line_hashes (split_lines code)) (line_hashes (split_lines more));
      fold oh eh.
    - intros x. unfold line_range. rewrite elem_of_set_seq, length_app.
      unfold is_added. split.
      + intros Hx. exists (x - 1). split; [lia|]. split; [lia|]. left. lia.
      + intros (i & Hi & -> & [?|[_ Hnin]]); [lia|].
        destruct (decide (i < n)); [|lia]. exfalso. by apply Hnin, Hin.
    - intros x. unfold line_range. rewrite elem_of_set_seq.
      unfold is_modified. split.
      + intros Hx. exists (x - 1). rewrite length_app.
        split; [lia|]. split; [lia|]. split; [lia|].
        split; [apply Hne; lia|apply Hin; lia].
      + intros (i & _ & -> & Hi & _). lia.
    - intros x. unfold is_removed. split; [set_solver|].
      intros (i & Hi & _ & [Hlen|Hnin]).
      + rewrite length_app in Hlen. lia.
      + exfalso. apply Hnin, Hin. lia.
    - apply scan_regions_none; [lia..|]. intros j Hj. unfold unchanged_at.
      rewrite (bool_decide_eq_false_2 (length (eh ++ oh) ≤ j))
        by (rewrite length_app; lia).
      rewrite (bool_decide_eq_false_2 ((eh ++ oh) !!! j = oh !!! j)).
      + by rewrite andb_false_r.
      + intros Heq. apply (Hne j); [lia|done]. }
  split; [done|]. unfold should_analyze_incrementally.
  case_bool_decide; [done|]. rewrite Hcs.
  cbn [mbind option_bind added_lines modified_lines removed_lines].
  rewrite split_lines_followed_by, length_app. fold n.
  unfold line_range. rewrite !size_set_seq, size_empty.
  pose proof (split_lines_nonempty more) as Hpos.
  rewrite Nat.max_r by lia. rewrite bool_decide_eq_true_2 by lia.
  rewrite ratio_below_half by lia. f_equal. apply bool_decide_eq_false_2. lia.
Qed.

Lemma compute_changeset_prepend_witness :
  should_analyze_incrementally (Some "a") (followed_by "b" "a") = Some false.
Proof.
  refine (proj2 (compute_changeset_prepend "a" "b" _)).
  vm_compute. repeat (constructor; [set_solver|]). constructor.
Defined.

End changeset_more.

Section affected_issues.
Import Py IncrementalAnalyzer.

Lemma filter_affected_step_located (changed : gset nat) (affected : list val)
    (issue : val) :
  located issue = true →
  filter_affected_step changed affected issue
  = Ok (if is_affected changed issue then affected ++ [issue] else affected).
Proof.
  unfold located, is_affected, filter_affected_step, issue_line.
  destruct (get issue "location" (VDict [])) as [loc|]; [|done]. cbn [bind].
  destruct (get loc "line" VNone) as [line|]; [|done]. cbn [bind].
  destruct (if truthy line then Ok line else get issue "lineNumber" VNone)
    as [issue_line|]; [|done]. cbn [bind].
  destruct (truthy issue_line) eqn:Ht; [|intros _; reflexivity]. cbn [negb orb].
  intros [z Hz]%bool_decide_eq_true. rewrite Hz.
  assert (∃ k, to_key issue_line = Ok k ∧ key_num k = Some z) as (k & Hk & Hkz).
  { destruct issue_line; try done; eexists; (split; [done|]); done. }
  unfold in_lines. rewrite Hk. cbn [bind]. rewrite Hkz.
  destruct (bool_decide (0 ≤ z)%Z && bool_decide (Z.to_nat z ∈ changed)) eqn:Hhit.
  - apply andb_true_iff in Hhit as [H0 Hin].
    apply bool_decide_eq_true in H0, Hin.
    rewrite bool_decide_eq_true_2; [done|].
    exists (Z.to_nat z). split; [done|]. lia.
  - unfold near_change. destruct (decide (changed = ∅)) as [He|He].
    + rewrite bool_decide_eq_false_2; [done|]. set_solver.
    + rewrite Hz. cbn [bind]. do 2 f_equal.
Qed.

Lemma filter_affected_loop_located (changed : gset nat) (affected issues : list val) :
  forallb located issues = true →
  filter_affected_loop changed affected issues
  = Ok (affected ++ filter (fun issue => is_affected changed issue = true) issues).
Proof.
  revert affected. induction issues as [|issue issues IH]; intros affected Hall.
  - simpl. by rewrite app_nil_r.
  - apply andb_true_iff in Hall as [Hi Hall]. cbn [filter_affected_loop].
    rewrite filter_affected_step_located by done. cbn [bind].
    rewrite IH by done. rewrite filter_cons.
    destruct (is_affected changed issue) eqn:E.
    + rewrite decide_True by done. by rewrite <- app_assoc.
    + rewrite decide_False by done. done.
Qed.

(** X15: for issue dictionaries whose location, if they have one, is a
    dictionary and whose line, if they have one, is a number,
    [filter_affected_issues] returns, in their order, the issues without a
    line and those whose line is at most 20 away from an added, modified or
    removed line; when the change set has no such line, every issue that
    has a line is dropped. *)
Theorem filter_affected_issues_near (issues : list val) (cs : ChangeSet) :
  forallb located issues = true →
  filter_affected_issues (VList issues) cs
  = Ok (filter (fun issue => is_affected (changed_lines cs) issue = true) issues)
  ∧ (changed_lines cs = ∅ →
     filter_affected_issues (VList issues) cs
     = Ok (filter (fun issue => lacks_line issue = true) issues)).
Proof.
  intros Hall. unfold filter_affected_issues. cbn [iter bind].
  fold (changed_lines cs). rewrite filter_affected_loop_located by done.
  split; [done|]. intros ->. cbn [app]. f_equal.
  apply list_filter_iff. intros issue.
  unfold is_affected, lacks_line.
  destruct (issue_line issue) as [line|]; [|done].
  destruct (truthy line); [|done]. split; [|done].
  destruct (num line); [|done].
  intros (c & Hc & _)%bool_decide_eq_true. set_solver.
Qed.

Lemma filter_affected_issues_near_witness :
  filter_affected_issues (VList [issue_on_line 3; issue_on_line 100])
    (mkChangeSet {[3]} ∅ ∅ [])
  = Ok (filter (fun issue => is_affected {[3]} issue = true)
          [issue_on_line 3; issue_on_line 100]).
Proof.
  pose proof (proj1 (filter_affected_issues_near
                       [issue_on_line 3; issue_on_line 100]
                       (mkChangeSet {[3]} ∅ ∅ []) eq_refl)) as H.
  unfold changed_lines in H. cbn [added_lines modified_lines removed_lines] in H.
  rewrite !(right_id_L ∅ (∪)) in H. exact H.
Defined.

End affected_issues.

Section merged_reports.
Import Py IncrementalAnalyzer.

(** [set(...)] hashes every member. *)
Lemma set_of_list_hashable (l : list val) (seen : list key) (r : list val) :
  set_of_list l seen = Ok r → Forall hashable l ∧ Forall hashable r.
Proof.
  revert seen r. induction l as [|v l IH]; intros seen r Heq.
  - injection Heq as <-. split; constructor.
  - cbn [set_of_list] in Heq.
    destruct (to_key v) as [k|] eqn:Hk; [|done]. cbn [bind] in Heq.
    destruct (existsb (key_eqb k) seen).
    + apply IH in Heq as [? ?]. split; [|done]. constructor; [by exists k|done].
    + destruct (set_of_list l (k :: seen)) as [rest|] eqn:E; [|done].
      injection Heq as <-. apply IH in E as [? ?].
      split; (constructor; [by exists k|done]).
Qed.

Lemma set_of_list_first (v : val) (l r : list val) :
  set_of_list (v :: l) [] = Ok r → ∃ rest, r = v :: rest.
Proof.
  cbn [set_of_list]. destruct (to_key v) as [k|]; [|done]. cbn [bind existsb].
  destruct (set_of_list l [k]) as [rest|]; [|done]. cbn [bind].
  intros [= <-]. by exists rest.
Qed.

(** Counting severities asks every member for its ["severity"]: none of
    them can be a hashable value. *)
Lemma count_severity_hashable (severity : string) (vs : list val) (n : Z) :
  count_severity severity vs = Ok n → Forall hashable vs → vs = [].
Proof.
  destruct vs as [|v vs]; [done|]. intros Heq [[k Hk] _]%Forall_cons.
  cbn [count_severity] in Heq. by destruct v.
Qed.

Lemma merge_lists_ok (cached : list val) (fresh : val) (merged : list val) :
  merge_lists cached fresh = Ok merged →
  ∃ l, fresh = VList l ∧ Forall hashable (cached ++ l)
       ∧ Forall hashable merged
       ∧ (merged = [] → cached = [] ∧ l = []).
Proof.
  unfold merge_lists. destruct fresh as [| | | |l|]; try done. intros Heq.
  exists l. split; [done|].
  destruct (set_of_list_hashable _ _ _ Heq) as [? ?].
  split; [done|]. split; [done|].
  intros ->. destruct (cached ++ l) as [|v rest] eqn:E.
  - by apply app_eq_nil in E.
  - by apply set_of_list_first in Heq as [? ?].
Qed.

(** X16: [merge_analysis_results] returns only for reports without issue
    dictionaries.  Whenever it returns, the fresh report has an empty list
    of vulnerabilities, no cached vulnerability is affected by the change
    set, the merged report has no vulnerability, and no dictionary (or
    other unhashable value) is among the fresh or the affected cached gas
    and code-quality findings. *)
Theorem merge_analysis_results_no_issue (cached_result new_result merged : dict)
    (changeset : ChangeSet) :
  merge_analysis_results cached_result new_result changeset = Ok merged →
  filter_affected_issues (get_list cached_result "vulnerabilities") changeset
  = Ok []
  ∧ get_list new_result "vulnerabilities" = VList []
  ∧ dict_lookup merged (KStr "vulnerabilities") = Some (VList [])
  ∧ ∀ k, k ∈ ["gasOptimizations"; "codeQuality"] →
      ∃ affected fresh,
        filter_affected_issues (get_list cached_result k) changeset = Ok affected
        ∧ get_list new_result k = VList fresh
        ∧ Forall hashable (affected ++ fresh).
Proof.
  unfold merge_analysis_results. intros Heq.
  destruct (filter_affected_issues (get_list cached_result "vulnerabilities") _)
    as [cv|] eqn:Ecv; [|done]. cbn [bind] in Heq.
  destruct (filter_affected_issues (get_list cached_result "gasOptimizations") _)
    as [cg|] eqn:Ecg; [|done]. cbn [bind] in Heq.
  destruct (filter_affected_issues (get_list cached_result "codeQuality") _)
    as [cq|] eqn:Ecq; [|done]. cbn [bind] in Heq.
  destruct (merge_lists cv _) as [vs|] eqn:Evs; [|done]. cbn [bind] in Heq.
  destruct (merge_lists cg _) as [gs|] eqn:Egs; [|done]. cbn [bind] in Heq.
  destruct (merge_lists cq _) as [qs|] eqn:Eqs; [|done]. cbn [bind] in Heq.
  destruct (count_severity "HIGH" vs) as [high|] eqn:Ehigh; [|done].
  cbn [bind] in Heq.
  destruct (count_severity "MEDIUM" vs) as [medium|]; [|done].
  destruct (count_severity "LOW" vs) as [low|]; [|done].
  cbn [bind] in Heq.
  apply merge_lists_ok in Evs as (lv & Hlv & _ & Hhv & Hev).
  apply merge_lists_ok in Egs as (lg & Hlg & Hhg & _).
  apply merge_lists_ok in Eqs as (lq & Hlq & Hhq & _).
  assert (vs = []) as -> by (by eapply count_severity_hashable).
  destruct Hev as [-> ->]; [done|].
  split; [done|]. split; [done|]. split.
  - destruct (default (VDict []) (dict_lookup new_result (KStr "metadata")));
      try done.
    injection Heq as <-. done.
  - intros k Hk.
    apply elem_of_cons in Hk as [->|Hk]; [by exists cg, lg|].
    apply list_elem_of_singleton in Hk as ->. by exists cq, lq.
Qed.

Lemma merge_analysis_results_no_issue_witness :
  dict_lookup
    [ (KStr "summary",
       VDict [ (KStr "totalVulnerabilities", VInt 0);
               (KStr "highSeverity", VInt 0);
               (KStr "mediumSeverity", VInt 0);
               (KStr "lowSeverity", VInt 0);
               (KStr "gasOptimizations", VInt 0);
               (KStr "codeQualityIssues", VInt 0) ]);
      (KStr "vulnerabilities", VList []);
      (KStr "gasOptimizations", VList []);
      (KStr "codeQuality", VList []);
      (KStr "metadata",
       VDict [ (KStr "incremental", VBool true);
               (KStr "changeset",
                VDict [ (KStr "added", VInt 1);
                        (KStr "modified", VInt 0);
                        (KStr "removed", VInt 0) ]) ]) ]
    (KStr "vulnerabilities")
  = Some (VList []).
Proof.
  refine (proj1 (proj2 (proj2
            (merge_analysis_results_no_issue [] [] _
               (mkChangeSet {[3]} ∅ ∅ []) _)))).
  vm_compute. reflexivity.
Defined.

End merged_reports.

(** ** Import graphs: members of the order, graph building, merging *)
Section toposort_members.
Import MultiFileAnalyzer.

Variable graph : Graph.
Hypothesis keys_unique : NoDup graph.*1.

Lemma add_remaining_spec (l : Graph) (result : list string) :
  NoDup result →
  NoDup (add_remaining l result)
  ∧ ∀ v, v ∈ add_remaining l result ↔ v ∈ result ∨ v ∈ l.*1.
Proof.
  unfold add_remaining. revert result.
  induction l as [|kv l IH]; intros result Hnd; simpl.
  - split; [done|]. intros v. set_solver.
  - case_decide as Hin.
    + destruct (IH result Hnd) as [Hnd' Hmem]. split; [done|].
      intros v. rewrite Hmem. set_solver.
    + destruct (IH (result ++ [kv.1])) as [Hnd' Hmem].
      { apply NoDup_app. split; [done|]. split; [|apply NoDup_singleton].
        intros x Hx ->%list_elem_of_singleton. done. }
      split; [done|]. intros v. rewrite Hmem. set_solver.
Qed.

(** What the [while] loop leaves, and what the last loop adds. *)
Lemma topological_sort_parts :
  ∃ r m order,
    topological_sort graph = Some order
    ∧ order = add_remaining graph r
    ∧ kahn_inv graph m [] r.
Proof.
  unfold topological_sort.
  destruct (drain_from_start graph keys_unique) as (r & m' & -> & Hinv).
  exists r, m', (add_remaining graph r). done.
Qed.

Lemma topological_sort_members_char :
  ∃ order,
    topological_sort graph = Some order
    ∧ NoDup order
    ∧ (∀ k, k ∈ graph.*1 → k ∈ order)
    ∧ (∀ v, v ∈ order → v ∈ nodes graph)
    ∧ (acyclic graph → ∀ v, v ∈ nodes graph → v ∈ order).
Proof.
  destruct topological_sort_parts as (r & m & order & Hsort & -> & Hinv).
  pose proof Hinv as (Hnd & _ & _ & Hmem & _).
  rewrite app_nil_r in Hnd.
  destruct (add_remaining_spec graph r Hnd) as [Hnd' Hin].
  exists (add_remaining graph r). split; [done|]. split; [done|].
  split; [|split].
  - intros k Hk. apply Hin. by right.
  - intros v [Hv|Hv]%Hin.
    + assert (v ∈ r ++ []) as Hv' by (by rewrite app_nil_r).
      by apply Hmem in Hv' as [? _].
    + unfold nodes. by apply elem_of_union_l, elem_of_list_to_set.
  - intros Hac v Hv. apply Hin. left.
    by apply (kahn_all_placed graph m r Hac Hinv).
Qed.

(** The names the [while] loop places stand after all their importers, so
    none of them imports, directly or not, a name placed before it. *)
Lemma placed_after_importers (m : gmap string Z) (r : list string) :
  kahn_inv graph m [] r →
  ∀ u v, tc (edge graph) u v → v ∈ r → before r u v.
Proof.
  intros (Hnd & _ & _ & _ & Hord). rewrite app_nil_r in Hnd.
  assert (Hstep : ∀ u v, edge graph u v → v ∈ r → before r u v).
  { intros u v Hedge Hv.
    apply list_elem_of_split in Hv as (r1 & r2 & ->).
    pose proof (Hord r1 v r2 eq_refl u Hedge) as Hu.
    apply list_elem_of_lookup in Hu as [i Hi].
    exists i, (length r1). split; [by apply lookup_app_l_Some|].
    split; [by rewrite list_lookup_middle|]. by apply lookup_lt_Some in Hi. }
  intros u v Htc. induction Htc as [u v Huv|u w v Huw _ IH]; [by apply Hstep|].
  intros Hv. destruct (IH Hv) as (j & k & Hj & Hk & Hjk).
  destruct (Hstep u w Huw) as (i & j' & Hi & Hj' & Hij).
  { by eapply list_elem_of_lookup_2. }
  assert (j' = j) as -> by (by eapply NoDup_lookup).
  exists i, k. split; [done|]. split; [done|]. lia.
Qed.

Lemma cycle_not_placed (m : gmap string Z) (r : list string) (u : string) :
  kahn_inv graph m [] r → tc (edge graph) u u → u ∉ r.
Proof.
  intros Hinv Hcyc Hu.
  destruct (placed_after_importers m r Hinv u u Hcyc Hu) as (i & j & Hi & Hj & Hij).
  destruct Hinv as (Hnd & _). rewrite app_nil_r in Hnd.
  assert (i = j) by (by eapply NoDup_lookup). lia.
Qed.

Lemma topological_sort_cycle_char (u v : string) :
  tc (edge graph) u u → edge graph u v → v ∉ graph.*1 →
  ∃ order, topological_sort graph = Some order ∧ u ∈ order ∧ v ∉ order.
Proof.
  intros Hcyc Hedge Hkey.
  destruct topological_sort_parts as (r & m & order & Hsort & -> & Hinv).
  pose proof Hinv as (Hnd & _ & _ & _ & Hord).
  rewrite app_nil_r in Hnd.
  destruct (add_remaining_spec graph r Hnd) as [_ Hin].
  exists (add_remaining graph r). split; [done|]. split.
  - apply Hin. right. by apply edge_nodes in Hedge as [? _].
  - intros [Hv|Hv]%Hin; [|done].
    apply (cycle_not_placed m r u Hinv Hcyc).
    apply list_elem_of_split in Hv as (r1 & r2 & ->).
    pose proof (Hord r1 v r2 eq_refl u Hedge). set_solver.
Qed.

Lemma relax_appends (ns : list string) (m : gmap string Z) (q : list string) :
  ∃ m' added, foldl relax (m, q) ns = (m', q ++ added).
Proof.
  revert m q. induction ns as [|n ns IH]; intros m q.
  - exists m, []. by rewrite app_nil_r.
  - cbn [foldl]. unfold relax at 2. case_decide.
    + destruct (IH (<[n := (degree m n - 1)%Z]> m) (q ++ [n]))
        as (m' & added & ->).
      exists m', (n :: added). by rewrite <- app_assoc.
    + apply IH.
Qed.

(** The [while] loop pops the queue in order and adds at its end. *)
Lemma drain_prefix (fuel : nat) (m : gmap string Z) (queue result r : list string) :
  drain graph fuel m queue result = Some r →
  ∃ tail, r = result ++ queue ++ tail.
Proof.
  revert m queue result. induction fuel as [|fuel IH]; intros m queue result;
    [done|].
  cbn [drain]. destruct queue as [|node queue].
  - intros [= <-]. exists []. by rewrite !app_nil_r.
  - destruct (relax_appends (neighbors graph node) m queue) as (m' & added & ->).
    intros (tail & ->)%IH. exists (added ++ tail).
    by rewrite <- !app_assoc.
Qed.

Lemma add_remaining_suffix (l : Graph) (result : list string) :
  ∃ more, add_remaining l result = result ++ more.
Proof.
  unfold add_remaining. revert result.
  induction l as [|kv l IH]; intros result; simpl.
  - exists []. by rewrite app_nil_r.
  - case_decide; [apply IH|].
    destruct (IH (result ++ [kv.1])) as (more & ->).
    exists (kv.1 :: more). by rewrite <- app_assoc.
Qed.

Lemma roots_queue :
  filter (fun node => degree (count_in_degrees graph) node = 0%Z) graph.*1
  = roots graph.
Proof.
  destruct (count_in_degrees_spec graph keys_unique) as [Hd _].
  unfold roots. apply list_filter_iff. intros k. rewrite Hd. split.
  - intros Hz Hin. apply list_elem_of_join in Hin as (ns & Hk & Hns).
    apply list_elem_of_fmap in Hns as ([u ns'] & -> & Hin).
    assert (pending_in graph [] k = 0) as Hp by lia.
    pose proof (pending_in_zero _ _ _ _ _ Hp Hin Hk) as Hu.
    by apply elem_of_nil in Hu.
  - intros Hnin. destruct (decide (pending_in graph [] k = 0)) as [->|Hne];
      [done|].
    exfalso. apply pending_in_nonzero in Hne as (u & ns & Hin & Hk & _).
    apply Hnin. apply list_elem_of_join. exists ns. split; [done|].
    apply list_elem_of_fmap. by exists (u, ns).
Qed.

Lemma topological_sort_roots_first :
  ∃ rest, topological_sort graph = Some (roots graph ++ rest).
Proof.
  unfold topological_sort.
  destruct (drain_from_start graph keys_unique) as (r & m' & Hdrain & _).
  rewrite Hdrain. cbn [mbind option_bind].
  apply drain_prefix in Hdrain as (tail & ->). rewrite roots_queue.
  destruct (add_remaining_suffix graph ([] ++ roots graph ++ tail))
    as (more & ->).
  exists (tail ++ more). cbn [app]. by rewrite <- app_assoc.
Qed.

End toposort_members.

Section toposort_more_claims.
Import MultiFileAnalyzer.

(** X3: for every acyclic graph (with the distinct keys of a dictionary)
    [topological_sort] returns an order in which every file stands before
    each of the files it imports. *)
Theorem topological_sort_places_importers_first (graph : Graph) :
  NoDup graph.*1 → acyclic graph →
  ∃ order, topological_sort graph = Some order
           ∧ ∀ u v, edge graph u v → before order u v.
Proof. apply topological_sort_acyclic. Qed.

Lemma topological_sort_places_importers_first_witness :
  ∃ order, topological_sort example_graph = Some order
           ∧ ∀ u v, edge example_graph u v → before order u v.
Proof.
  exact (topological_sort_places_importers_first example_graph
           example_graph_keys example_graph_acyclic).
Defined.

(** X4: for every graph (with the distinct keys of a dictionary) the list
    [topological_sort] returns has no name twice, holds every key of the
    graph, and holds only keys and imported names; for an acyclic graph it
    holds every key and every imported name exactly once. *)
Theorem topological_sort_members (graph : Graph) :
  NoDup graph.*1 →
  ∃ order,
    topological_sort graph = Some order
    ∧ NoDup order
    ∧ (∀ k, k ∈ graph.*1 → k ∈ order)
    ∧ (∀ v, v ∈ order → v ∈ nodes graph)
    ∧ (acyclic graph → ∀ v, v ∈ nodes graph → v ∈ order).
Proof. apply topological_sort_members_char. Qed.

Lemma topological_sort_members_witness :
  ∃ order,
    topological_sort example_graph = Some order
    ∧ NoDup order
    ∧ (∀ k, k ∈ example_graph.*1 → k ∈ order)
    ∧ (∀ v, v ∈ order → v ∈ nodes example_graph)
    ∧ (acyclic example_graph → ∀ v, v ∈ nodes example_graph → v ∈ order).
Proof. exact (topological_sort_members example_graph example_graph_keys). Defined.

(** X5: a name that is imported by a file on an import cycle and that is
    not itself a key of the graph is missing from the list
    [topological_sort] returns (the file on the cycle is in it). *)
Theorem topological_sort_drops_import_of_cycle (graph : Graph) (u v : string) :
  NoDup graph.*1 →
  tc (edge graph) u u → edge graph u v → v ∉ graph.*1 →
  ∃ order, topological_sort graph = Some order ∧ u ∈ order ∧ v ∉ order.
Proof. intros Hkeys. by apply topological_sort_cycle_char. Qed.

Lemma topological_sort_drops_import_of_cycle_witness :
  ∃ order, topological_sort cyclic_graph = Some order
           ∧ "b" ∈ order ∧ "c" ∉ order.
Proof.
  apply (topological_sort_drops_import_of_cycle cyclic_graph "b" "c").
  - unfold cyclic_graph. simpl. apply NoDup_cons. split; [set_solver|].
    apply NoDup_singleton.
  - apply (tc_l _ _ "a").
    + exists ["a"; "c"]. unfold cyclic_graph. set_solver.
    + apply tc_once. exists ["b"]. unfold cyclic_graph. set_solver.
  - exists ["a"; "c"]. unfold cyclic_graph. set_solver.
  - unfold cyclic_graph. simpl. set_solver.
Defined.

(** X26: the list [topological_sort] returns starts with the keys of the
    graph that no file imports, in the order in which the graph holds
    them. *)
Theorem topological_sort_starts_with_roots (graph : Graph) :
  NoDup graph.*1 →
  ∃ rest, topological_sort graph = Some (roots graph ++ rest).
Proof. apply topological_sort_roots_first. Qed.

Lemma topological_sort_starts_with_roots_witness :
  ∃ rest, topological_sort example_graph = Some (roots example_graph ++ rest).
Proof.
  exact (topological_sort_starts_with_roots example_graph example_graph_keys).
Defined.

End toposort_more_claims.

Section dependency_graph_properties.
Import MultiFileAnalyzer.
Variable extract_imports : string → list ImportStatement.

Lemma append_import_keys (graph : Graph) (f p : string) :
  (append_import graph f p).*1 = graph.*1.
Proof.
  unfold append_import. rewrite <- list_fmap_compose. apply list_fmap_ext.
  intros i [k ns] _. simpl. by case_decide.
Qed.

Lemma append_import_elem (graph : Graph) (f p k : string) (ns : list string) :
  (k, ns) ∈ append_import graph f p
  ↔ ∃ ns0, (k, ns0) ∈ graph ∧ ns = if decide (k = f) then ns0 ++ [p] else ns0.
Proof.
  unfold append_import. rewrite list_elem_of_fmap. split.
  - intros ([k' ns0] & Heq & Hin). simpl in Heq.
    case_decide; injection Heq as -> ->; exists ns0;
      (split; [done|]); [by rewrite decide_True|by rewrite decide_False].
  - intros (ns0 & Hin & ->). exists (k, ns0). split; [|done]. simpl.
    by case_decide.
Qed.

Lemma add_import_spec (graph : Graph) (f p : string) :
  graph_ok graph →
  graph_ok (add_import graph f p)
  ∧ ∀ u v, edge (add_import graph f p) u v ↔ edge graph u v ∨ (u = f ∧ v = p).
Proof.
  intros [Hkeys Hlists]. unfold add_import, touch.
  destruct (decide (f ∈ graph.*1)) as [Hf|Hf].
  - apply list_elem_of_fmap in Hf as ([f' ns0] & -> & Hin). simpl.
    rewrite (neighbors_lookup graph Hkeys f' ns0 Hin).
    destruct (decide (p ∈ ns0)) as [Hp|Hp].
    + split; [done|]. intros u v. split; [by left|].
      intros [?|[-> ->]]; [done|]. by exists ns0.
    + split; [split|].
      * by rewrite append_import_keys.
      * intros k ns (ns1 & Hin1 & ->)%append_import_elem.
        destruct (Hlists k ns1 Hin1) as [Hnd Hne].
        case_decide as Hk; [|done]. subst k.
        assert (ns1 = ns0) as ->.
        { rewrite <- (neighbors_lookup graph Hkeys f' ns1 Hin1).
          by apply neighbors_lookup. }
        split; [|by destruct ns0].
        apply NoDup_app. split; [done|]. split; [|apply NoDup_singleton].
        intros x Hx ->%list_elem_of_singleton. done.
      * intros u v. unfold edge. split.
        -- intros (ns & (ns1 & Hin1 & ->)%append_import_elem & Hv).
           case_decide as Hk; [|left; by exists ns1]. subst u.
           apply elem_of_app in Hv as [Hv|Hv]; [left; by exists ns1|].
           apply list_elem_of_singleton in Hv as ->. by right.
        -- intros [(ns & Hin1 & Hv)|[-> ->]].
           ++ eexists. split; [apply append_import_elem; by exists ns|].
              case_decide; [|done]. apply elem_of_app. by left.
           ++ eexists. split; [apply append_import_elem; by exists ns0|].
              rewrite decide_True by done. apply elem_of_app. right.
              by apply list_elem_of_singleton.
  - assert (Hkeys' : NoDup (graph ++ [(f, [])]).*1).
    { rewrite fmap_app. apply NoDup_app. split; [done|].
      split; [|apply NoDup_singleton].
      intros x Hx ->%list_elem_of_singleton. done. }
    rewrite (neighbors_lookup (graph ++ [(f, [])]) Hkeys' f [])
      by (apply elem_of_app; right; by apply list_elem_of_singleton).
    rewrite decide_False by (by intros ?%elem_of_nil).
    assert (append_import (graph ++ [(f, [])]) f p = graph ++ [(f, [p])]) as ->.
    { unfold append_import. rewrite fmap_app. simpl.
      rewrite decide_True by done. f_equal.
      rewrite <- (list_fmap_id graph) at 2. apply list_fmap_ext.
      intros i [k ns] Hi. simpl. case_decide; [|done]. subst k.
      exfalso. apply Hf. apply list_elem_of_fmap. exists (f, ns).
      split; [done|]. by eapply list_elem_of_lookup_2. }
    split; [split|].
    + rewrite fmap_app. apply NoDup_app. split; [done|].
      split; [|apply NoDup_singleton].
      intros x Hx ->%list_elem_of_singleton. done.
    + intros k ns [Hin|[= -> ->]%list_elem_of_singleton]%elem_of_app;
        [by eapply Hlists|].
      split; [apply NoDup_singleton|done].
    + intros u v. unfold edge. split.
      * intros (ns & [Hin|[= -> ->]%list_elem_of_singleton]%elem_of_app & Hv).
        -- left. by exists ns.
        -- apply list_elem_of_singleton in Hv as ->. by right.
      * intros [(ns & Hin & Hv)|[-> ->]].
        -- exists ns. split; [apply elem_of_app; by left|done].
        -- exists [p]. split; [|by apply list_elem_of_singleton].
           apply elem_of_app. right. by apply list_elem_of_singleton.
Qed.

Lemma add_imports_spec (imps : list ImportStatement) (graph : Graph) (f : string) :
  graph_ok graph →
  let graph' := foldl (fun g imp => add_import g f (path imp)) graph imps in
  graph_ok graph'
  ∧ ∀ u v, edge graph' u v ↔ edge graph u v ∨ (u = f ∧ v ∈ path <$> imps).
Proof.
  revert graph. induction imps as [|imp imps IH]; intros graph Hok; cbn zeta.
  - split; [done|]. intros u v. simpl. set_solver.
  - simpl. destruct (add_import_spec graph f (path imp) Hok) as [Hok1 Hedge1].
    destruct (IH _ Hok1) as [Hok2 Hedge2]. split; [done|].
    intros u v. rewrite Hedge2, Hedge1. set_solver.
Qed.

Lemma dependency_graph_fold (files : list (string * string)) (graph : Graph) :
  graph_ok graph →
  let graph' :=
    foldl (fun graph kv =>
             foldl (fun graph imp => add_import graph kv.1 (path imp))
                   graph (extract_imports kv.2))
          graph files in
  graph_ok graph'
  ∧ ∀ u v, edge graph' u v ↔ edge graph u v ∨ imports_of extract_imports files u v.
Proof.
  revert graph. induction files as [|[f c] files IH]; intros graph Hok; cbn zeta.
  - split; [done|]. intros u v. unfold imports_of. simpl. set_solver.
  - simpl. destruct (add_imports_spec (extract_imports c) graph f Hok)
      as [Hok1 Hedge1].
    destruct (IH _ Hok1) as [Hok2 Hedge2]. split; [done|].
    intros u v. rewrite Hedge2, Hedge1. unfold imports_of. split.
    + intros [[?|[-> Hv]]|(c' & Hin & Hv)]; [by left| |].
      * right. exists c. split; [by left|done].
      * right. exists c'. split; [by right|done].
    + intros [?|(c' & [[= -> ->]|Hin]%elem_of_cons & Hv)]; [by left; left| |].
      * left. by right.
      * right. by exists c'.
Qed.

Lemma dependency_graph_ok (files : list (string * string)) :
  graph_ok (dependency_graph extract_imports files)
  ∧ ∀ u v, edge (dependency_graph extract_imports files) u v
           ↔ imports_of extract_imports files u v.
Proof.
  destruct (dependency_graph_fold files []) as [Hok Hedge].
  { split; [constructor|]. by intros k ns ?%elem_of_nil. }
  split; [done|]. intros u v. unfold dependency_graph. rewrite Hedge.
  split; [|by right]. intros [(ns & ?%elem_of_nil & _)|?]; done.
Qed.

End dependency_graph_properties.

Section dependency_graph_claims.
Import MultiFileAnalyzer.

(** X6: the graph [build_dependency_graph] returns has an edge from a file
    to a path exactly when the file has an import statement for that path;
    its keys are distinct, and every key has a non-empty list of imports
    without repetition, so a file without import statements is not a key.
    The call sets [file_map] to the files. *)
Theorem build_dependency_graph_edges (extract_imports : string → list ImportStatement)
    (self : Analyzer) (files : list (string * string)) :
  let graph := (build_dependency_graph extract_imports self files).1 in
  NoDup graph.*1
  ∧ (∀ f ns, (f, ns) ∈ graph → NoDup ns ∧ ns ≠ [])
  ∧ (∀ u v, edge graph u v ↔ imports_of extract_imports files u v)
  ∧ file_map (build_dependency_graph extract_imports self files).2 = files.
Proof.
  cbn zeta. cbn [build_dependency_graph fst snd file_map].
  destruct (dependency_graph_ok extract_imports files) as [[Hkeys Hlists] Hedge].
  done.
Qed.


(** X7: a file that has no import statement and that no file of the project
    imports is missing from the order [topological_sort] returns for the
    graph of [build_dependency_graph]. *)
Theorem sorted_order_skips_isolated_files (extract_imports : string → list ImportStatement)
    (self : Analyzer) (files : list (string * string)) (f : string) :
  isolated extract_imports files f →
  ∃ order,
    topological_sort (build_dependency_graph extract_imports self files).1
    = Some order
    ∧ f ∉ order.
Proof.
  intros [Hout Hin]. cbn [build_dependency_graph fst].
  destruct (dependency_graph_ok extract_imports files) as [[Hkeys Hlists] Hedge].
  destruct (topological_sort_members_char _ Hkeys)
    as (order & Hsort & _ & _ & Hnodes & _).
  exists order. split; [done|]. intros Hf. apply Hnodes in Hf.
  unfold nodes in Hf. apply elem_of_union in Hf as [Hf|Hf].
  - apply elem_of_list_to_set, list_elem_of_fmap in Hf as ([f' ns] & -> & Hfn).
    destruct (Hlists _ _ Hfn) as [_ Hne]. destruct ns as [|v ns]; [done|].
    apply (Hout v), Hedge. exists (v :: ns). split; [done|by left].
  - apply elem_of_list_to_set, list_elem_of_join in Hf as (ns & Hv & Hns).
    apply list_elem_of_fmap in Hns as ([u ns'] & -> & Hun).
    apply (Hin u), Hedge. by exists ns'.
Qed.

Lemma sample_imports_of (u v : string) :
  imports_of sample_imports sample_files u v → u = "main.sol" ∧ v = "lib.sol".
Proof.
  intros (c & Hin & Hv). unfold sample_files in Hin.
  repeat (apply elem_of_cons in Hin as [Hin|Hin];
          [injection Hin as -> ->; vm_compute in Hv|]).
  - by apply list_elem_of_singleton in Hv as ->.
  - by apply elem_of_nil in Hv.
  - by apply elem_of_nil in Hv.
  - by apply elem_of_nil in Hin.
Qed.

Lemma sorted_order_skips_isolated_files_witness :
  ∃ order,
    topological_sort
      (build_dependency_graph sample_imports (mkAnalyzer [] []) sample_files).1
    = Some order
    ∧ "extra.sol" ∉ order.
Proof.
  apply sorted_order_skips_isolated_files. split.
  - intros p [? ?]%sample_imports_of. done.
  - intros g [? ?]%sample_imports_of. done.
Defined.

End dependency_graph_claims.

Section merge_files_properties.
Import MultiFileAnalyzer.
Variable extract_imports : string → list ImportStatement.
Variable files : list (string * string).

Lemma lookup_file_Some (name content : string) :
  lookup_file files name = Some content → (name, content) ∈ files.
Proof.
  unfold lookup_file.
  destruct (list_find _ files) as [[i [k c]]|] eqn:E; [|done].
  intros [= ->]. apply list_find_Some in E as (Hi & Hk & _). simpl in Hk.
  subst. by eapply list_elem_of_lookup_2.
Qed.

Lemma lookup_file_elem (name content : string) :
  NoDup files.*1 → (name, content) ∈ files →
  lookup_file files name = Some content.
Proof.
  intros Hnd Hin. unfold lookup_file.
  destruct (list_find _ files) as [[i [k c]]|] eqn:E.
  - apply list_find_Some in E as (Hi & Hk & _). simpl in Hk. subst k.
    apply list_elem_of_lookup in Hin as [j Hj].
    assert (i = j) as ->; [|congruence].
    eapply NoDup_lookup; [done| |]; rewrite list_lookup_fmap.
    + by rewrite Hi.
    + by rewrite Hj.
  - apply list_find_None in E. rewrite Forall_forall in E.
    by apply E in Hin.
Qed.

(** With no import statement in any file the graph is empty. *)
Lemma dependency_graph_no_imports :
  (∀ f c, (f, c) ∈ files → extract_imports c = []) →
  dependency_graph extract_imports files = [].
Proof.
  intros Hnone.
  destruct (dependency_graph_ok extract_imports files) as [[_ Hlists] Hedge].
  destruct (dependency_graph extract_imports files) as [|[f ns] graph]; [done|].
  exfalso. destruct (Hlists f ns) as [_ Hne]; [by left|].
  destruct ns as [|v ns]; [done|].
  assert (imports_of extract_imports files f v) as (c & Hin & Hv).
  { apply Hedge. exists (v :: ns). split; by left. }
  rewrite (Hnone f c Hin) in Hv. by apply elem_of_nil in Hv.
Qed.

Lemma imported_block_of (p c : string) :
  lookup_file files p = Some c → imported_block p c = block_of files p.
Proof. intros E. unfold block_of. by rewrite E. Qed.

(** The loop over the imports of an imported file. *)
Lemma merge_sub_imports_spec (subs : list ImportStatement)
    (processed : gset string) (merged : list string) :
  ∃ added,
    foldl (merge_sub_import files) (processed, merged) subs
    = (list_to_set added ∪ processed, (block_of files <$> added) ++ merged)
    ∧ ∀ p, p ∈ added → is_Some (lookup_file files p) ∧ p ∈ path <$> subs.
Proof.
  revert processed merged.
  induction subs as [|sub subs IH]; intros processed merged.
  - exists []. split; [|by intros p ?%elem_of_nil]. simpl. f_equal. set_solver.
  - simpl. destruct (lookup_file files (path sub)) as [c|] eqn:E.
    + rewrite (imported_block_of _ _ E). case_decide as Hp.
      * destruct (IH ({[path sub]} ∪ processed)
                    (block_of files (path sub) :: merged)) as (added & -> & Hadded).
        exists (added ++ [path sub]). split.
        -- f_equal; [set_solver|]. by rewrite fmap_app, <- app_assoc.
        -- intros p [Hin|Hin]%elem_of_app.
           ++ destruct (Hadded p Hin). split; [done|]. by right.
           ++ apply list_elem_of_singleton in Hin as ->.
              split; [by rewrite E|by left].
      * destruct (IH processed merged) as (added & -> & Hadded).
        exists added. split; [done|]. intros p Hin.
        destruct (Hadded p Hin). split; [done|]. by right.
    + destruct (IH processed merged) as (added & -> & Hadded).
      exists added. split; [done|]. intros p Hin.
      destruct (Hadded p Hin). split; [done|]. by right.
Qed.

(** The loop over the imports of the main file. *)
Lemma merge_imports_spec (imps : list ImportStatement) (paths : list string) :
  ∃ paths',
    foldl (merge_import extract_imports files)
      (list_to_set paths, block_of files <$> paths) imps
    = (list_to_set paths', block_of files <$> paths')
    ∧ (∀ p, p ∈ paths' →
         p ∈ paths
         ∨ (is_Some (lookup_file files p)
            ∧ (p ∈ path <$> imps
               ∨ ∃ q c, q ∈ path <$> imps ∧ lookup_file files q = Some c
                        ∧ p ∈ path <$> extract_imports c)))
    ∧ (∀ p, p ∈ paths → p ∈ paths')
    ∧ (∀ p, p ∈ path <$> imps → is_Some (lookup_file files p) → p ∈ paths').
Proof.
  revert paths. induction imps as [|imp imps IH]; intros paths.
  - exists paths. split; [done|]. split; [by left|]. split; [done|].
    by intros p ?%elem_of_nil.
  - cbn [foldl merge_import].
    destruct (decide (path imp ∉ list_to_set (C := gset string) paths)) as [Hp|Hp].
    + destruct (lookup_file files (path imp)) as [c|] eqn:E.
      * destruct (merge_sub_imports_spec (extract_imports c)
                    (list_to_set paths) (block_of files <$> paths))
          as (added & -> & Hadded).
        destruct (IH (path imp :: added ++ paths)) as (paths' & Heq & Hsound & Hmono & Hcompl).
        exists paths'. split; [|split; [|split]].
        -- rewrite <- Heq, (imported_block_of _ _ E). f_equal. f_equal.
           ++ rewrite list_to_set_cons, list_to_set_app_L. done.
           ++ by rewrite fmap_cons, fmap_app.
        -- intros p [Hin|(Hs & Hr)]%Hsound.
           ++ apply elem_of_cons in Hin as [->|Hin].
              { right. split; [by rewrite E|]. left. by left. }
              apply elem_of_app in Hin as [Hin|Hin]; [|by left].
              destruct (Hadded p Hin) as [Hs Hsub]. right. split; [done|].
              right. exists (path imp), c. split; [by left|done].
           ++ right. split; [done|].
              destruct Hr as [Hr|(q & c' & Hq & Hc' & Hpq)].
              ** left. by right.
              ** right. exists q, c'. split; [by right|done].
        -- intros p Hin. apply Hmono. right. apply elem_of_app. by right.
        -- intros p [->|Hin]%elem_of_cons Hs.
           ++ apply Hmono. by left.
           ++ by apply Hcompl.
      * destruct (IH paths) as (paths' & -> & Hsound & Hmono & Hcompl).
        exists paths'. split; [done|]. split; [|split; [done|]].
        -- intros p [Hin|(Hs & Hr)]%Hsound; [by left|].
           right. split; [done|].
           destruct Hr as [Hr|(q & c' & Hq & Hc' & Hpq)].
           ++ left. by right.
           ++ right. exists q, c'. split; [by right|done].
        -- intros p [->|Hin]%elem_of_cons Hs.
           ++ rewrite E in Hs. by destruct Hs.
           ++ by apply Hcompl.
    + destruct (IH paths) as (paths' & -> & Hsound & Hmono & Hcompl).
      exists paths'. split; [done|]. split; [|split; [done|]].
      * intros p [Hin|(Hs & Hr)]%Hsound; [by left|].
        right. split; [done|].
        destruct Hr as [Hr|(q & c' & Hq & Hc' & Hpq)].
        -- left. by right.
        -- right. exists q, c'. split; [by right|done].
      * intros p [->|Hin]%elem_of_cons Hs.
        -- apply Hmono. apply dec_stable in Hp.
           by apply elem_of_list_to_set in Hp.
        -- by apply Hcompl.
Qed.

End merge_files_properties.

Section merge_files_claims.
Import MultiFileAnalyzer.

(** X8: when the main file is not among the files and no file has an import
    statement, [merge_files] returns the empty text, whatever the files
    hold: the dependency graph has no key, so the sorted order is empty. *)
Theorem merge_files_without_imports (extract_imports : string → list ImportStatement)
    (self : Analyzer) (files : list (string * string)) (main_file : string) :
  lookup_file files main_file = None →
  (∀ f c, (f, c) ∈ files → extract_imports c = []) →
  merge_files extract_imports self files main_file
  = Some (EmptyString, mkAnalyzer (import_cache self) files).
Proof.
  intros Hmain Hnone. unfold merge_files, build_dependency_graph.
  rewrite dependency_graph_no_imports by done.
  unfold merged_content. rewrite Hmain. reflexivity.
Qed.

Lemma merge_files_without_imports_witness :
  merge_files (fun _ => []) (mkAnalyzer [] [])
    [("token.sol", "contract Token {}")] "main.sol"
  = Some (EmptyString, mkAnalyzer [] [("token.sol", "contract Token {}")]).
Proof.
  apply (merge_files_without_imports (fun _ => []) (mkAnalyzer [] [])).
  - reflexivity.
  - reflexivity.
Defined.

(** X9: when the main file is among the files (a dictionary, so with
    distinct names), the text [merge_files] returns is the join of blocks
    of imported files followed by the block of the main file with its
    import statements cut out.  Every imported file is one of the project
    that the main file imports or that a file imported by the main file
    imports: no file further away is merged.  Every file of the project
    that the main file imports is among them. *)
Theorem merge_files_main_file (extract_imports : string → list ImportStatement)
    (self : Analyzer) (files : list (string * string))
    (main_file content : string) :
  NoDup files.*1 →
  lookup_file files main_file = Some content →
  ∃ paths,
    merge_files extract_imports self files main_file
    = Some (String.concat nl
              ((block_of files <$> paths)
               ++ [main_block main_file (without_imports extract_imports content)]),
            mkAnalyzer (import_cache self) files)
    ∧ (∀ p, p ∈ paths →
         is_Some (lookup_file files p)
         ∧ within_two_imports extract_imports files main_file p)
    ∧ (∀ p, imports_of extract_imports files main_file p →
         is_Some (lookup_file files p) → p ∈ paths).
Proof.
  intros Hnd Hmain. unfold merge_files, build_dependency_graph.
  destruct (dependency_graph_ok extract_imports files) as [[Hkeys _] _].
  destruct (topological_sort_parts _ Hkeys) as (r & m & order & -> & _ & _).
  cbn [mbind option_bind]. unfold merged_content. rewrite Hmain.
  destruct (merge_imports_spec extract_imports files
              (reverse (extract_imports content)) [])
    as (paths & Heq & Hsound & _ & Hcompl).
  change (list_to_set [], block_of files <$> [])
    with (∅ : gset string, @nil string) in Heq.
  rewrite Heq. exists paths. split; [done|]. split.
  - intros p [Hin|(Hs & Hr)]%Hsound; [by apply elem_of_nil in Hin|].
    split; [done|].
    assert (Hrev : ∀ q, q ∈ path <$> reverse (extract_imports content) →
                        imports_of extract_imports files main_file q).
    { intros q Hq. exists content. split; [by apply lookup_file_Some|].
      by rewrite fmap_reverse, elem_of_reverse in Hq. }
    destruct Hr as [Hr|(q & c & Hq & Hc & Hpq)].
    + left. by apply Hrev.
    + right. exists q. split; [by apply Hrev|].
      exists c. split; [by apply lookup_file_Some|done].
  - intros p (c & Hin & Hp) Hs. apply Hcompl; [|done].
    rewrite (lookup_file_elem files main_file c Hnd Hin) in Hmain.
    injection Hmain as ->. by rewrite fmap_reverse, elem_of_reverse.
Qed.

Lemma merge_files_main_file_witness :
  ∃ paths,
    merge_files sample_imports (mkAnalyzer [] []) sample_files "main.sol"
    = Some (String.concat nl
              ((block_of sample_files <$> paths)
               ++ [main_block "main.sol"
                     (without_imports sample_imports
                        "import 'lib.sol'; contract Main {}")]),
            mkAnalyzer [] sample_files)
    ∧ (∀ p, p ∈ paths →
         is_Some (lookup_file sample_files p)
         ∧ within_two_imports sample_imports sample_files "main.sol" p)
    ∧ (∀ p, imports_of sample_imports sample_files "main.sol" p →
         is_Some (lookup_file sample_files p) → p ∈ paths).
Proof.
  apply (merge_files_main_file sample_imports (mkAnalyzer [] []) sample_files).
  - vm_compute. repeat (constructor; [set_solver|]). constructor.
  - reflexivity.
Defined.

End merge_files_claims.

(** ** False positives: verification, suppression, import *)
Section verification_more.
Import Py FalsePositiveHandler.

Lemma find_report_verified (reports : list FalsePositiveReport) (loc : val)
    (i0 i : nat) (r : FalsePositiveReport) :
  find_report reports loc i0 = Ok (Some (i, r)) →
  i0 ≤ i
  ∧ reports !! (i - i0) = Some r
  ∧ any_verified_match (<[i - i0 := with_verified r (VBool true)]> reports) loc
    = Ok true.
Proof.
  revert i0. induction reports as [|r0 reports IH]; intros i0; [done|].
  cbn [find_report].
  destruct (_location_matches (location r0) loc) as [m|] eqn:Hm; [|done].
  cbn [bind]. destruct m.
  - intros [= <- <-]. rewrite Nat.sub_diag. split; [done|]. split; [done|].
    change (any_verified_match (with_verified r0 (VBool true) :: reports) loc
            = Ok true).
    cbn [any_verified_match with_verified verified location truthy].
    rewrite Hm. done.
  - intros (Hle & Hr & Hany)%IH.
    replace (i - i0) with (S (i - S i0)) by lia.
    split; [lia|]. split; [done|].
    change (any_verified_match
              (r0 :: <[i - S i0 := with_verified r (VBool true)]> reports) loc
            = Ok true).
    cbn [any_verified_match]. rewrite Hm. cbn [bind].
    by destruct (truthy (verified r0)).
Qed.

(** X17: once [verify_false_positive] has returned [True] for a location,
    [is_false_positive] and [should_suppress_issue] (at any threshold)
    return [True] for the same issue type, unit and location. *)
Theorem verify_then_suppressed (repr : val → string) (h h' : Handler)
    (issue_type contract_hash : string) (loc : dict) (threshold : Q) :
  verify_false_positive h issue_type contract_hash loc = (Ok true, h') →
  is_false_positive repr h' (VStr issue_type) contract_hash (VDict loc) = Ok true
  ∧ should_suppress_issue repr h' (VStr issue_type) contract_hash (VDict loc)
      threshold
    = Ok true.
Proof.
  unfold verify_false_positive. intros Hv.
  assert (is_false_positive repr h' (VStr issue_type) contract_hash (VDict loc)
          = Ok true) as Hknown.
  { destruct (dict_lookup (false_positives h) _) as [reports|] eqn:E; [|done].
    destruct (find_report reports (VDict loc) 0) as [[[i r]|]|] eqn:Ef; try done.
    destruct (_update_learning_pattern _ _) as [outcome patterns].
    injection Hv as _ <-.
    unfold is_false_positive, fp_key. cbn [str false_positives].
    rewrite dict_lookup_set_same.
    apply find_report_verified in Ef as (_ & _ & Hany).
    by rewrite Nat.sub_0_r in Hany. }
  split; [done|]. unfold should_suppress_issue. by rewrite Hknown.
Qed.

Lemma verify_then_suppressed_witness :
  should_suppress_issue no_repr verified_handler (VStr "reentrancy") "abc"
    (VDict [(KStr "line", VInt 10)]) default_threshold
  = Ok true.
Proof.
  refine (proj2 (verify_then_suppressed no_repr
                   (report_false_positive new_handler "issue-1" "reentrancy" "abc"
                      [(KStr "line", VInt 10); (KStr "type", VStr "line")]
                      "guarded by a mutex" None "2024-01-01T00:00:00").2
                   verified_handler "reentrancy" "abc" [(KStr "line", VInt 10)]
                   default_threshold _)).
  vm_compute. reflexivity.
Defined.

Lemma find_report_again (reports : list FalsePositiveReport) (loc : val)
    (i0 i : nat) (r : FalsePositiveReport) (v : val) :
  find_report reports loc i0 = Ok (Some (i, r)) →
  find_report (<[i - i0 := with_verified r v]> reports) loc i0
  = Ok (Some (i, with_verified r v)).
Proof.
  revert i0. induction reports as [|r0 reports IH]; intros i0; [done|].
  cbn [find_report].
  destruct (_location_matches (location r0) loc) as [m|] eqn:Hm; [|done].
  cbn [bind]. destruct m.
  - intros [= <- <-]. rewrite Nat.sub_diag.
    change (find_report (with_verified r0 v :: reports) loc i0
            = Ok (Some (i0, with_verified r0 v))).
    cbn [find_report with_verified location]. by rewrite Hm.
  - intros Hfind. pose proof (find_report_verified _ _ _ _ _ Hfind) as (Hle & _).
    replace (i - i0) with (S (i - S i0)) by lia.
    change (find_report (r0 :: <[i - S i0 := with_verified r v]> reports) loc i0
            = Ok (Some (i, with_verified r v))).
    cbn [find_report]. rewrite Hm. cbn [bind]. by apply IH.
Qed.

Lemma with_verified_twice (r : FalsePositiveReport) (v w : val) :
  with_verified (with_verified r v) w = with_verified r w.
Proof. by destruct r. Qed.

Lemma dict_set_again {A : Type} (d : list (key * A)) (s : string) (v w : A) :
  dict_set (dict_set d (KStr s) v) (KStr s) w = dict_set d (KStr s) w.
Proof.
  induction d as [|[k u] d IH]; simpl.
  - by rewrite bool_decide_eq_true_2.
  - destruct (key_eqb k (KStr s)) eqn:E; simpl; rewrite E; [done|].
    by rewrite IH.
Qed.

(** X27: [verify_false_positive] marks the first stored report that
    matches.  Once it has returned [True] for a location, a further call
    for the same issue type, unit and location marks that same report
    again and leaves the stored reports as the first call left them: a
    report that the first call did not mark is not marked by the later
    ones, however often the location is verified. *)
Theorem verify_false_positive_first_match (h h' h'' : Handler)
    (issue_type contract_hash : string) (loc : dict) (outcome : result bool) :
  verify_false_positive h issue_type contract_hash loc = (Ok true, h') →
  verify_false_positive h' issue_type contract_hash loc = (outcome, h'') →
  false_positives h'' = false_positives h'.
Proof.
  unfold verify_false_positive at 1.
  destruct (dict_lookup (false_positives h) _) as [reports|] eqn:E; [|done].
  destruct (find_report reports (VDict loc) 0) as [[[i r]|]|] eqn:Ef; try done.
  destruct (_update_learning_pattern _ _) as [out1 patterns1].
  intros [= _ <-]. unfold verify_false_positive. cbn [false_positives].
  rewrite dict_lookup_set_same.
  pose proof (find_report_again _ _ _ _ _ (VBool true) Ef) as Hagain.
  rewrite Nat.sub_0_r in Hagain. rewrite Hagain.
  destruct (_update_learning_pattern _ _) as [out2 patterns2].
  intros [= _ <-]. cbn [false_positives issue_patterns].
  rewrite dict_set_again, with_verified_twice, list_insert_insert_eq. done.
Qed.

Lemma verify_false_positive_first_match_witness :
  false_positives
    (verify_false_positive verified_handler "reentrancy" "abc"
       [(KStr "line", VInt 10)]).2
  = false_positives verified_handler.
Proof.
  refine (verify_false_positive_first_match
            (report_false_positive new_handler "issue-1" "reentrancy" "abc"
               [(KStr "line", VInt 10); (KStr "type", VStr "line")]
               "guarded by a mutex" None "2024-01-01T00:00:00").2
            verified_handler _ "reentrancy" "abc" [(KStr "line", VInt 10)]
            (verify_false_positive verified_handler "reentrancy" "abc"
               [(KStr "line", VInt 10)]).1 _ _).
  - vm_compute. reflexivity.
  - vm_compute. reflexivity.
Defined.

End verification_more.

Section reports_only.
Import Py FalsePositiveHandler.

Lemma filter_all {A : Type} (P : A → Prop) `{∀ x, Decision (P x)} (l : list A) :
  Forall P l → filter P l = l.
Proof.
  induction 1 as [|x l Hx _ IH]; [done|].
  rewrite filter_cons_True by done. by rewrite IH.
Qed.

Lemma any_verified_match_unverified (reports : list FalsePositiveReport) (loc : val) :
  Forall (fun r => verified r = VBool false) reports →
  any_verified_match reports loc = Ok false.
Proof.
  induction 1 as [|r reports Hr _ IH]; [done|].
  cbn [any_verified_match]. by rewrite Hr.
Qed.

Lemma unverified_report (h : Handler) (c : report_call) :
  unverified h →
  unverified
    (report_false_positive h (call_issue_id c) (call_issue_type c)
       (call_contract_hash c) (call_location c) (call_reason c)
       (call_reported_by c) (call_now c)).2.
Proof.
  intros [Hpat Hfps]. split; [done|]. cbn.
  assert (Forall (fun r => verified r = VBool false)
            (default [] (dict_lookup (false_positives h)
                           (KStr (call_issue_type c +:+ ":" +:+ call_contract_hash c)))))
    as Hold.
  { destruct (dict_lookup _ _) as [rs|] eqn:E; [|by constructor]. simpl.
    apply dict_lookup_elem in E as (k' & Hin & _).
    rewrite Forall_forall in Hfps. by apply (Hfps _ Hin). }
  apply Forall_dict_set; [done| |].
  - cbn. apply Forall_app. split; [done|]. by repeat constructor.
  - intros k' w _ _. cbn. apply Forall_app. split; [done|]. by repeat constructor.
Qed.

Lemma unverified_report_all (calls : list report_call) (h : Handler) :
  unverified h → unverified (report_all h calls).
Proof.
  revert h. induction calls as [|c calls IH]; intros h Hh; [done|].
  cbn [report_all foldl]. apply IH. by apply unverified_report.
Qed.

Lemma unverified_not_suppressed (repr : val → string) (h : Handler)
    (issue_type : val) (contract_hash : string) (loc : val) (threshold : Q) :
  unverified h → hashable issue_type →
  should_suppress_issue repr h issue_type contract_hash loc threshold = Ok false.
Proof.
  intros [Hpat Hfps] [k Hk]. unfold should_suppress_issue, is_false_positive.
  assert (match dict_lookup (false_positives h) (fp_key repr issue_type contract_hash) with
          | Some reports => any_verified_match reports loc
          | None => Ok false
          end = Ok false) as ->.
  { destruct (dict_lookup _ _) as [rs|] eqn:E; [|done].
    apply any_verified_match_unverified.
    apply dict_lookup_elem in E as (k' & Hin & _).
    rewrite Forall_forall in Hfps. by apply (Hfps _ Hin). }
  cbn [bind]. rewrite Hpat. cbn [contains]. rewrite Hk. done.
Qed.



End reports_only.

Section lineless_locations.
Import Py FalsePositiveHandler.

Lemma line_of_lineless (loc : dict) :
  lineless loc = true →
  ∃ v, line_of (VDict loc) = Ok v ∧ truthy v = false.
Proof.
  unfold lineless, line_of, get. cbn [bind].
  intros [H1 H2]%andb_true_iff. apply negb_true_iff in H1, H2.
  rewrite H1. eauto.
Qed.

Lemma line_of_dict (loc : dict) : ∃ v, line_of (VDict loc) = Ok v.
Proof.
  unfold line_of, get. cbn [bind]. destruct (truthy _); eauto.
Qed.

(** A location without a line matches no location. *)
Lemma _location_matches_lineless (a b : dict) :
  lineless a = true ∨ lineless b = true →
  _location_matches (VDict a) (VDict b) = Ok false.
Proof.
  unfold _location_matches. intros [H|H].
  - destruct (line_of_lineless a H) as (v & -> & Hv).
    destruct (line_of_dict b) as [w ->]. cbn [bind]. by rewrite Hv.
  - destruct (line_of_lineless b H) as (v & -> & Hv).
    destruct (line_of_dict a) as [w ->]. cbn [bind]. rewrite Hv.
    by rewrite !andb_false_r.
Qed.

Lemma find_report_lineless (reports : list FalsePositiveReport) (loc : dict)
    (i : nat) :
  forallb (fun r => is_dict (location r)) reports = true →
  lineless loc = true ∨ forallb lineless_report reports = true →
  find_report reports (VDict loc) i = Ok None.
Proof.
  revert i. induction reports as [|r reports IH]; intros i Hd Hl; [done|].
  apply andb_true_iff in Hd as [Hr Hd]. cbn [find_report].
  destruct (location r) as [| | | | |stored] eqn:El; try done.
  rewrite _location_matches_lineless.
  - cbn [bind]. apply IH; [done|]. destruct Hl as [?|Hl]; [by left|].
    right. by apply andb_true_iff in Hl as [_ ?].
  - destruct Hl as [?|Hl]; [by right|]. left.
    apply andb_true_iff in Hl as [Hl _]. unfold lineless_report in Hl.
    by rewrite El in Hl.
Qed.

(** X19: a location without a line number is never matched.  When the
    location given to [verify_false_positive] has neither a ["line"] nor a
    ["lineNumber"] that counts as true (a missing key, [None] and [0] do
    not), or when that holds for every report stored for the issue type
    and unit, the call returns [False] and leaves the handler as it was
    (stored locations being dictionaries). *)
Theorem verify_false_positive_needs_line (h : Handler)
    (issue_type contract_hash : string) (loc : dict) :
  dict_locations h = true →
  lineless loc = true
  ∨ forallb lineless_report (reports_for h issue_type contract_hash) = true →
  verify_false_positive h issue_type contract_hash loc = (Ok false, h).
Proof.
  unfold dict_locations, reports_for, verify_false_positive. intros Hd Hl.
  destruct (dict_lookup (false_positives h) _) as [reports|] eqn:E; [|done].
  rewrite find_report_lineless; [done| |done].
  by apply (forallb_dict_lookup _
              (fun rs => forallb (fun r => is_dict (location r)) rs) _ _ _
              (fun _ => eq_refl) Hd E).
Qed.

Lemma verify_false_positive_needs_line_witness :
  let h :=
    (report_false_positive new_handler "issue-1" "reentrancy" "abc"
       [(KStr "line", VInt 0); (KStr "type", VStr "line")]
       "guarded by a mutex" None "2024-01-01T00:00:00").2 in
  verify_false_positive h "reentrancy" "abc" [(KStr "line", VInt 0)]
  = (Ok false, h).
Proof.
  apply verify_false_positive_needs_line.
  - reflexivity.
  - right. vm_compute. reflexivity.
Defined.

End lineless_locations.

Section repeated_verification.
Import Py FalsePositiveHandler.
Variables (T R : string) (K : key).

Lemma _location_matches_same_line (loc : dict) (z : Z) :
  dict_lookup loc (KStr "line") = Some (VInt z) → z ≠ 0%Z →
  _location_matches (VDict loc) (VDict loc) = Ok true.
Proof.
  intros Hl Hz. unfold _location_matches, line_of, get. rewrite Hl. cbn.
  apply Z.eqb_neq in Hz. rewrite Hz. cbn. rewrite Hz. cbn.
  by rewrite bool_decide_eq_true_2.
Qed.

(** Verifying the only report of a unit, verified already or not. *)
Lemma verify_single_report (n : nat) (r : FalsePositiveReport) (ch : string)
    (loc : dict) (z : Z) (data : list (key * list val)) :
  good_report T R K r → location r = VDict loc →
  dict_lookup loc (KStr "line") = Some (VInt z) → z ≠ 0%Z →
  verify_false_positive
    (mkHandler [(KStr (T +:+ ":" +:+ ch), [r])] (patterns_after T R K n) data)
    T ch loc
  = (Ok true,
     mkHandler [(KStr (T +:+ ":" +:+ ch), [with_verified r (VBool true)])]
       (patterns_after T R K (S n)) data).
Proof.
  intros Hgood Hloc Hl Hz. unfold verify_false_positive.
  cbn [false_positives issue_patterns learning_data dict_lookup].
  rewrite key_eqb_str_refl. cbn [find_report]. rewrite Hloc.
  rewrite (_location_matches_same_line loc z Hl Hz). cbn [bind].
  rewrite (update_learning_pattern_good T R K n) by done.
  cbn [bind dict_set]. rewrite key_eqb_str_refl. done.
Qed.

End repeated_verification.

Section repeated_verification_claim.
Import Py FalsePositiveHandler.

(** X20: the learning counts verification calls, not reports.  One report,
    verified three times at its own line, makes [should_suppress_issue]
    return [True] (at the default threshold) for every issue of the same
    type and location kind in any other unit; after two verifications it
    still returns [False]. *)
Theorem repeated_verification_suppresses (repr : val → string)
    (T R : string) (K : key) (issue_id ch : string) (loc : dict)
    (reported_by : option string) (now : string) (z : Z)
    (ch' : string) (loc' : dict) :
  dict_lookup loc (KStr "line") = Some (VInt z) → z ≠ 0%Z →
  kind_of loc = val_of_key K → kind_of loc' = val_of_key K → ch' ≠ ch →
  let h1 :=
    (report_false_positive new_handler issue_id T ch loc R reported_by now).2 in
  let verify h := (verify_false_positive h T ch loc).2 in
  should_suppress_issue repr (verify (verify h1)) (VStr T) ch' (VDict loc')
    default_threshold
  = Ok false
  ∧ should_suppress_issue repr (verify (verify (verify h1))) (VStr T) ch'
      (VDict loc') default_threshold
    = Ok true
  ∧ length (reports_for (verify (verify (verify h1))) T ch) = 1.
Proof.
  intros Hl Hz Hk Hk' Hch h1 verify.
  set (r := mkReport (VStr issue_id) (VStr T) (VStr ch) (VDict loc) (VStr R)
              (opt_str reported_by) (VStr now) (VBool false)).
  assert (Hgood : ∀ v, good_report T R K (with_verified r v)).
  { intros v. split; [done|]. split; [done|]. by exists loc. }
  assert (Hv : ∀ n v data,
             (verify_false_positive
                (mkHandler [(KStr (T +:+ ":" +:+ ch), [with_verified r v])]
                   (patterns_after T R K n) data) T ch loc).2
             = mkHandler [(KStr (T +:+ ":" +:+ ch), [with_verified r (VBool true)])]
                 (patterns_after T R K (S n)) data).
  { intros n v data.
    by rewrite (verify_single_report T R K n (with_verified r v) ch loc z data). }
  assert (Hinv : ∀ n v data,
             scenario_inv T R K [ch]
               (mkHandler [(KStr (T +:+ ":" +:+ ch), [with_verified r v])]
                  (patterns_after T R K n) data) n).
  { intros n v data. split; [done|]. constructor; [|constructor].
    split; [exists ch; split; [by left|done]|]. by constructor. }
  assert (Hch' : ch' ∉ [ch]) by (by intros ->%list_elem_of_singleton).
  unfold verify, h1, report_false_positive. cbn [snd new_handler false_positives
    issue_patterns learning_data dict_lookup default from_option id app dict_set].
  change (mkReport (VStr issue_id) (VStr T) (VStr ch) (VDict loc) (VStr R)
            (opt_str reported_by) (VStr now) (VBool false))
    with (with_verified r (VBool false)).
  change (VDict []) with (patterns_after T R K 0).
  rewrite !Hv.
  rewrite (should_suppress_after T R K repr [ch] _ 2 ch' loc'
             (Hinv 2 _ _) Hch' Hk').
  rewrite (should_suppress_after T R K repr [ch] _ 3 ch' loc'
             (Hinv 3 _ _) Hch' Hk').
  split; [done|]. split; [done|].
  unfold reports_for. cbn [false_positives dict_lookup].
  by rewrite key_eqb_str_refl.
Qed.

Lemma repeated_verification_suppresses_witness :
  let loc := [(KStr "line", VInt 5); (KStr "type", VStr "function")] in
  let h1 :=
    (report_false_positive new_handler "issue-1" "reentrancy" "u1" loc
       "guarded by a mutex" None "2024-01-01T00:00:00").2 in
  let verify h := (verify_false_positive h "reentrancy" "u1" loc).2 in
  should_suppress_issue no_repr (verify (verify (verify h1))) (VStr "reentrancy")
    "u2" (VDict [(KStr "line", VInt 40); (KStr "type", VStr "function")])
    default_threshold
  = Ok true.
Proof.
  refine (proj1 (proj2 (repeated_verification_suppresses no_repr "reentrancy"
                          "guarded by a mutex" (KStr "function") "issue-1" "u1"
                          [(KStr "line", VInt 5); (KStr "type", VStr "function")]
                          None "2024-01-01T00:00:00" 5 "u2"
                          [(KStr "line", VInt 40); (KStr "type", VStr "function")]
                          _ _ _ _ _))); done.
Defined.

End repeated_verification_claim.

Section thresholds.
Import Py FalsePositiveHandler.

Lemma confident_mono (count fp_count : Z) (t t' : Q) :
  (t' <= t)%Q → confident count fp_count t = Ok true →
  confident count fp_count t' = Ok true.
Proof.
  unfold confident. intros Hle.
  destruct (true_div count fp_count) as [ratio|]; [|done]. cbn [bind].
  intros [= Hc]. f_equal.
  apply Qle_bool_iff. apply Qle_bool_iff in Hc. by eapply Qle_trans.
Qed.

(** Whether the division raises does not depend on the threshold. *)
Lemma confident_answers (count fp_count : Z) (t t' : Q) (b : bool) :
  confident count fp_count t = Ok b → ∃ b', confident count fp_count t' = Ok b'.
Proof.
  unfold confident.
  destruct (true_div count fp_count) as [ratio|]; [|done]. cbn [bind]. eauto.
Qed.

Lemma confident_above_one (count fp_count : Z) (t : Q) :
  (1 < t)%Q → confident count fp_count t ≠ Ok true.
Proof.
  unfold confident. intros Hlt.
  destruct (true_div count fp_count) as [ratio|]; [|done]. cbn [bind].
  intros [= E]. apply Qle_bool_iff in E.
  destruct (Qle_bool 1 ratio) eqn:E1.
  - by apply Qle_not_lt in E.
  - assert (¬ (1 <= ratio)%Q) as Hn.
    { intros H. apply Qle_bool_iff in H. congruence. }
    apply Hn. apply Qlt_le_weak. by eapply Qlt_le_trans.
Qed.

Lemma any_confident_pattern_mono (ps : list val) (lt : val) (fp : Z) (t t' : Q) :
  (t' <= t)%Q →
  any_confident_pattern ps lt fp t = Ok true →
  any_confident_pattern ps lt fp t' = Ok true.
Proof.
  intros Hle. induction ps as [|p ps IH]; [done|].
  cbn [any_confident_pattern].
  destruct (get p "location_type" VNone) as [l|]; [|done]. cbn [bind].
  destruct (py_eq l lt); [|done].
  destruct (get p "count" (VInt 0)) as [c|]; [|done]. cbn [bind].
  destruct (num c) as [z|]; [|done].
  destruct (confident z fp t) as [sure|] eqn:E; [|done]. cbn [bind].
  destruct sure.
  - by rewrite (confident_mono z fp t t' Hle E).
  - intros H. destruct (confident_answers z fp t t' _ E) as [sure' ->].
    cbn [bind]. destruct sure'; [done|]. by apply IH.
Qed.

Lemma any_confident_pattern_above_one (ps : list val) (lt : val) (fp : Z) (t : Q) :
  (1 < t)%Q → any_confident_pattern ps lt fp t ≠ Ok true.
Proof.
  intros Hlt. induction ps as [|p ps IH]; [done|].
  cbn [any_confident_pattern].
  destruct (get p "location_type" VNone) as [l|]; [|done]. cbn [bind].
  destruct (py_eq l lt); [|done].
  destruct (get p "count" (VInt 0)) as [c|]; [|done]. cbn [bind].
  destruct (num c) as [z|]; [|done].
  pose proof (confident_above_one z fp t Hlt) as Hno.
  destruct (confident z fp t) as [sure|]; [|done]. cbn [bind].
  destruct sure; [done|]. exact IH.
Qed.

(** X21: lowering the confidence threshold never lifts a suppression: when
    [should_suppress_issue] returns [True] at a threshold, it returns
    [True] at every lower one.  At a threshold above 1 the learned
    patterns suppress nothing: it returns [True] only for a known false
    positive. *)
Theorem should_suppress_issue_threshold (repr : val → string) (h : Handler)
    (issue_type : val) (contract_hash : string) (loc : val) (t t' : Q) :
  should_suppress_issue repr h issue_type contract_hash loc t = Ok true →
  ((t' <= t)%Q →
   should_suppress_issue repr h issue_type contract_hash loc t' = Ok true)
  ∧ ((1 < t)%Q →
     is_false_positive repr h issue_type contract_hash loc = Ok true).
Proof.
  unfold should_suppress_issue.
  destruct (is_false_positive repr h issue_type contract_hash loc) as [known|];
    [|done].
  cbn [bind]. destruct known; [done|].
  destruct (contains (issue_patterns h) issue_type) as [present|]; [|done].
  cbn [bind]. destruct present; [|done].
  destruct (getitem (issue_patterns h) issue_type) as [pattern|]; [|done].
  cbn [bind].
  destruct (get pattern "false_positive_count" (VInt 0)) as [fp_count|]; [|done].
  cbn [bind]. destruct (ge_int fp_count 3) as [enough|]; [|done].
  cbn [bind]. destruct enough; [|done].
  destruct (get loc "type" VNone) as [location_type|]; [|done]. cbn [bind].
  destruct (get pattern "patterns" (VList [])) as [ps|]; [|done]. cbn [bind].
  destruct (iter ps) as [items|]; [|done]. cbn [bind].
  intros Ht. split.
  - intros Hle. by eapply any_confident_pattern_mono.
  - intros Hlt. by apply any_confident_pattern_above_one in Ht.
Qed.

Lemma should_suppress_issue_threshold_witness :
  should_suppress_issue no_repr
    (run "reentrancy" "guarded by a mutex" new_handler three_verified).1
    (VStr "reentrancy") "u4"
    (VDict [(KStr "line", VInt 40); (KStr "type", VStr "function")])
    (1 # 2)
  = Ok true.
Proof.
  refine (proj1 (should_suppress_issue_threshold no_repr _ _ _ _
                   default_threshold (1 # 2) _) _).
  - vm_compute. reflexivity.
  - vm_compute. discriminate.
Defined.

End thresholds.

Section filtering_again.
Import Py FalsePositiveHandler.

(** X22: filtering twice changes nothing more.  After
    [filter_false_positives] has returned, a second call on the same list
    of issues, or on the returned list, returns the same list as the first
    and leaves the dictionaries as the first call left them. *)
Theorem filter_false_positives_idempotent (repr : val → string) (h : Handler)
    (heap heap' : gmap nat dict) (issues filtered : list nat) (ch : string) :
  (∀ ref, ref ∈ issues → ∃ b, judged repr h ch (issue_of heap ref) = Ok b) →
  filter_false_positives repr h heap issues ch = (Ok filtered, heap') →
  filter_false_positives repr h heap' issues ch = (Ok filtered, heap')
  ∧ filter_false_positives repr h heap' filtered ch = (Ok filtered, heap').
Proof.
  intros Hall. unfold filter_false_positives.
  destruct (filter_loop_spec repr h ch issues heap [] Hall)
    as (heap1 & -> & Hheap).
  intros [= <- <-]. cbn [app].
  assert (Hj : ∀ ref, judged repr h ch (issue_of heap1 ref)
                      = judged repr h ch (issue_of heap ref)).
  { intros ref. unfold issue_of at 1. rewrite Hheap. case_decide; [|done].
    apply judged_marked. }
  assert (Hsame : ∀ l : list nat, (∀ ref, ref ∈ l → ref ∈ issues) →
            filter_loop repr h ch heap1 [] l
            = (Ok (filter (fun ref => judged repr h ch (issue_of heap ref) = Ok false) l),
               heap1)).
  { intros l Hl.
    destruct (filter_loop_spec repr h ch l heap1 []) as (heap2 & -> & Hheap2).
    { intros ref Hin. rewrite Hj. apply Hall. by apply Hl. }
    f_equal.
    - f_equal. cbn [app]. apply list_filter_iff. intros ref. by rewrite Hj.
    - apply map_eq. intros ref. rewrite Hheap2. case_decide as Hd; [|done].
      destruct Hd as [Hin Ht]. rewrite Hj in Ht.
      rewrite Hheap. rewrite decide_True by (split; [by apply Hl|done]).
      unfold issue_of at 1. rewrite Hheap.
      rewrite decide_True by (split; [by apply Hl|done]).
      cbn [default from_option id]. by rewrite mark_suppressed_idem. }
  split.
  - by apply Hsame.
  - rewrite Hsame by (by intros ref [_ ?]%list_elem_of_filter).
    f_equal. f_equal. apply filter_all. apply Forall_forall.
    by intros ref [? _]%list_elem_of_filter.
Qed.

Lemma filter_false_positives_idempotent_witness :
  let first :=
    filter_false_positives no_repr verified_handler sample_heap [0; 1] "abc" in
  filter_false_positives no_repr verified_handler first.2 [0; 1] "abc"
  = (Ok [1], first.2).
Proof.
  refine (proj1 (filter_false_positives_idempotent no_repr verified_handler
                   sample_heap _ [0; 1] [1] "abc" sample_heap_judged _)).
  vm_compute. reflexivity.
Defined.

End filtering_again.

Section import_merge.
Import Py FalsePositiveHandler.

(** Keys that are equal to a third key are equal to the same keys. *)
Lemma key_eqb_trans (k1 k0 k : key) :
  key_eqb k1 k0 = true → key_eqb k1 k = key_eqb k0 k.
Proof.
  destruct k1 as [|b1|z1|s1], k0 as [|b0|z0|s0]; simpl; try done;
    intros H%bool_decide_eq_true; destruct k as [|b|z|s]; simpl; try done;
    apply bool_decide_ext; split; intros; congruence.
Qed.

Lemma dict_lookup_set_ne {A : Type} (d : list (key * A)) (k0 k : key) (v : A) :
  key_eqb k0 k = false →
  dict_lookup (dict_set d k0 v) k = dict_lookup d k.
Proof.
  intros Hne. induction d as [|[k1 v1] d IH]; simpl.
  - by rewrite Hne.
  - destruct (key_eqb k1 k0) eqn:E; simpl.
    + by rewrite (key_eqb_trans k1 k0 k E), Hne.
    + by rewrite IH.
Qed.

Lemma dict_lookup_None {A : Type} (d : list (key * A)) (k : key) :
  dict_lookup d k = None → Forall (fun kv => key_eqb kv.1 k = false) d.
Proof.
  induction d as [|[k1 v1] d IH]; simpl; [constructor|].
  destruct (key_eqb k1 k) eqn:E; [done|]. intros H. constructor; auto.
Qed.

Lemma foldl_assign_other (assigned : list (key * list FalsePositiveReport))
    (fps : list (key * list FalsePositiveReport)) (k : key) :
  Forall (fun k0 => key_eqb k0 k = false) assigned.*1 →
  dict_lookup (foldl assign fps assigned) k = dict_lookup fps k.
Proof.
  revert fps. induction assigned as [|[k0 rs] assigned IH]; intros fps Hall;
    [done|].
  apply Forall_cons in Hall as [Hk Hall]. simpl. rewrite IH by done.
  unfold assign. simpl. by apply dict_lookup_set_ne.
Qed.

(** X23: a successful import merges the reports key by key and replaces the
    learning patterns.  The reports stored under a key that the document
    does not mention stay as they were; [issue_patterns] becomes the
    document's ["learning_patterns"], or the empty dictionary when the
    document has none, whatever had been learned; [learning_data] is left
    untouched. *)
Theorem import_false_positives_merges (json_loads : string → result val)
    (h h' : Handler) (s : string) :
  import_false_positives json_loads h s = (Ok tt, h') →
  ∃ d, json_loads s = Ok (VDict d)
    ∧ issue_patterns h'
      = default (VDict []) (dict_lookup d (KStr "learning_patterns"))
    ∧ learning_data h' = learning_data h
    ∧ ∀ k, dict_lookup (items_of (json_loads s)) k = None →
           dict_lookup (false_positives h') k = dict_lookup (false_positives h) k.
Proof.
  unfold import_false_positives, items_of.
  destruct (json_loads s) as [data|]; [|done].
  destruct (get data "false_positives" (VDict [])) as [fp|] eqn:Hget; [|done].
  destruct fp as [| | | | |items]; try done.
  destruct (import_reports (false_positives h) items) as [out fps] eqn:Himp.
  destruct out as [[]|]; [|done].
  destruct data as [| | | | |d]; try done.
  cbn [get]. intros [= <-]. exists d. split; [done|]. split; [done|].
  split; [done|]. cbn [false_positives]. intros k Hk.
  apply import_reports_prefix in Himp as (assigned & -> & [rest Hpre] & _).
  apply foldl_assign_other. apply dict_lookup_None in Hk.
  assert (Forall (fun k0 => key_eqb k0 k = false) items.*1) as Hkeys
    by (apply Forall_fmap; exact Hk).
  rewrite Hpre in Hkeys. by apply Forall_app in Hkeys as [? _].
Qed.

Lemma import_false_positives_merges_witness :
  ∃ d, Json.loads other_unit_document = Ok (VDict d)
    ∧ issue_patterns
        (import_false_positives Json.loads verified_handler other_unit_document).2
      = default (VDict []) (dict_lookup d (KStr "learning_patterns"))
    ∧ learning_data
        (import_false_positives Json.loads verified_handler other_unit_document).2
      = learning_data verified_handler
    ∧ ∀ k, dict_lookup (items_of (Json.loads other_unit_document)) k = None →
           dict_lookup
             (false_positives
                (import_false_positives Json.loads verified_handler
                   other_unit_document).2) k
           = dict_lookup (false_positives verified_handler) k.
Proof.
  apply (import_false_positives_merges Json.loads verified_handler).
  vm_compute. reflexivity.
Defined.

End import_merge.

(** ** Statistics *)
Section statistics.
Import Py FalsePositiveHandler.

Lemma sum_values_set (d : dict) (k : key) (n : Z) :
  sum_values
    (dict_set d k
       (VInt (default 0%Z (num (default (VInt 0) (dict_lookup d k))) + n)))
  = (sum_values d + n)%Z.
Proof.
  induction d as [|[k1 v1] d IH]; simpl; [lia|].
  destruct (key_eqb k1 k); simpl; [lia|].
  unfold sum_values in *. simpl. rewrite IH. lia.
Qed.

Lemma count_issue_types_sum (fps : list (key * list FalsePositiveReport))
    (counts : dict) :
  forallb (fun kv => match kv.1 with KStr _ => true | _ => false end) fps = true →
  ∃ counts',
    count_issue_types counts fps = inr counts'
    ∧ sum_values counts'
      = (sum_values counts
         + foldr (fun kv total => (Z.of_nat (length kv.2) + total)%Z) 0%Z fps)%Z.
Proof.
  revert counts. induction fps as [|[k rs] fps IH]; intros counts Hk.
  - exists counts. split; [done|]. simpl. lia.
  - apply andb_true_iff in Hk as [Hk Hks]. simpl in Hk.
    destruct k as [| | |key]; try done.
    cbn [count_issue_types count_issue_type fst snd].
    destruct (IH (dict_set counts (KStr (before_colon key))
                    (VInt (default 0%Z
                             (num (default (VInt 0)
                                     (dict_lookup counts (KStr (before_colon key)))))
                           + Z.of_nat (length rs)))) Hks)
      as (counts' & -> & Hsum).
    exists counts'. split; [done|]. rewrite Hsum, sum_values_set. simpl. lia.
Qed.

Lemma count_verified_bounds (reports : list FalsePositiveReport) :
  (0 ≤ count_verified reports ≤ Z.of_nat (length reports))%Z.
Proof.
  unfold count_verified. pose proof (length_filter (fun r => truthy (verified r) = true) reports).
  lia.
Qed.

Lemma verified_at_most_total (fps : list (key * list FalsePositiveReport)) :
  (0 ≤ foldr (fun kv total => (count_verified kv.2 + total)%Z) 0%Z fps
   ≤ foldr (fun kv total => (Z.of_nat (length kv.2) + total)%Z) 0%Z fps)%Z.
Proof.
  induction fps as [|[k rs] fps IH]; simpl; [lia|].
  pose proof (count_verified_bounds rs). lia.
Qed.

(** X24: for a handler whose keys are strings and whose learning patterns
    are a dictionary, [get_false_positive_statistics] returns;
    ["verifiedReports"] is at most ["totalReports"], and the numbers of
    ["issueTypeCounts"] add up to ["totalReports"]. *)
Theorem statistics_add_up (h : Handler) :
  string_keys h = true → is_dict (issue_patterns h) = true →
  ∃ stats counts,
    get_false_positive_statistics h = inr stats
    ∧ dict_lookup stats (KStr "issueTypeCounts") = Some (VDict counts)
    ∧ dict_lookup stats (KStr "learningPatterns") = Some (issue_patterns h)
    ∧ (0 ≤ statistic stats "verifiedReports" ≤ statistic stats "totalReports")%Z
    ∧ sum_values counts = statistic stats "totalReports".
Proof.
  unfold string_keys, get_false_positive_statistics. intros Hkeys Hdict.
  destruct (count_issue_types_sum (false_positives h) [] Hkeys)
    as (counts & -> & Hsum).
  destruct (issue_patterns h) as [| | | | |d]; try done. cbn [py_dict].
  eexists _, counts. split; [done|]. split; [done|]. split; [done|].
  unfold statistic. cbn. split; [apply verified_at_most_total|by rewrite Hsum].
Qed.

Lemma statistics_add_up_witness :
  ∃ stats counts,
    get_false_positive_statistics verified_handler = inr stats
    ∧ dict_lookup stats (KStr "issueTypeCounts") = Some (VDict counts)
    ∧ dict_lookup stats (KStr "learningPatterns")
      = Some (issue_patterns verified_handler)
    ∧ (0 ≤ statistic stats "verifiedReports" ≤ statistic stats "totalReports")%Z
    ∧ sum_values counts = statistic stats "totalReports".
Proof.
  apply statistics_add_up; reflexivity.
Defined.

End statistics.

(** ** Learning patterns *)
Section learning.
Import Py FalsePositiveHandler.

Lemma list_index_nat (len j : nat) :
  j < len → list_index len (Z.of_nat j) = Some j.
Proof.
  intros Hj. unfold list_index.
  rewrite (bool_decide_eq_false_2 (Z.of_nat j < 0)%Z) by lia.
  rewrite (bool_decide_eq_true_2 (0 ≤ Z.of_nat j)%Z) by lia.
  rewrite (bool_decide_eq_true_2 (Z.of_nat j < Z.of_nat len)%Z) by lia.
  cbn. by rewrite Nat2Z.id.
Qed.

Lemma find_pattern_learned (ps : list val) (reason : val) (i : nat) :
  Forall learned_pattern ps →
  find_pattern ps reason i = Ok None
  ∨ ∃ j p, find_pattern ps reason i = Ok (Some (i + j, p)) ∧ ps !! j = Some p.
Proof.
  revert i. induction ps as [|p ps IH]; intros i Hall; [by left|].
  apply Forall_cons in Hall as [(r & lt & c & -> & _) Hall].
  cbn [find_pattern get dict_lookup]. rewrite key_eqb_str_refl.
  cbn [default from_option id bind].
  destruct (py_eq r reason).
  - right. exists 0, (VDict [(KStr "reason", r); (KStr "location_type", lt);
                             (KStr "count", VInt c)]).
    by rewrite Nat.add_0_r.
  - destruct (IH (S i) Hall) as [->|(j & p & -> & Hj)]; [by left|].
    right. exists (S j), p. split; [|done]. do 3 f_equal. lia.
Qed.

Lemma sum_counts_app (ps qs : list val) :
  sum_counts (ps ++ qs) = (sum_counts ps + sum_counts qs)%Z.
Proof.
  induction ps as [|p ps IH]; simpl; [done|].
  unfold sum_counts in *. simpl. rewrite IH. lia.
Qed.

Lemma sum_counts_insert (ps : list val) (j : nat) (p p' : val) :
  ps !! j = Some p →
  sum_counts (<[j := p']> ps)
  = (sum_counts ps - pattern_count p + pattern_count p')%Z.
Proof.
  revert j. induction ps as [|q ps IH]; intros j Hj; [done|].
  destruct j as [|j]; simpl in *.
  - injection Hj as ->. unfold sum_counts. simpl. lia.
  - unfold sum_counts in *. simpl. rewrite (IH j Hj). lia.
Qed.

(** The part of [_update_learning_pattern] that counts the reason: one of
    the counts goes up by one, or a pattern with count 1 is added. *)
Lemma count_reason (ps : list val) (reason location_type : val) :
  Forall learned_pattern ps →
  ∃ existing ps',
    find_pattern ps reason 0 = Ok existing
    ∧ (match existing with
     | Some (i, p) =>
         if truthy p then
           count ←! getitem p (VStr "count");
           count ←! add_one count;
           p ←! setitem p (VStr "count") count;
           setitem (VList ps) (VInt (Z.of_nat i)) p
         else append (VList ps)
                (VDict [ (KStr "reason", reason);
                         (KStr "location_type", location_type);
                         (KStr "count", VInt 1) ])
     | None =>
         append (VList ps)
           (VDict [ (KStr "reason", reason);
                    (KStr "location_type", location_type);
                    (KStr "count", VInt 1) ])
     end)
    = Ok (VList ps')
    ∧ Forall learned_pattern ps'
    ∧ sum_counts ps' = (sum_counts ps + 1)%Z.
Proof.
  intros Hall.
  destruct (find_pattern_learned ps reason 0 Hall) as [->|(j & p & -> & Hj)].
  - cbn [bind append]. eexists _, _. split; [done|]. split; [done|]. split.
    + apply Forall_app. split; [done|]. constructor; [|constructor].
      exists reason, location_type, 1%Z. split; [done|lia].
    + rewrite sum_counts_app. unfold sum_counts at 2. simpl. lia.
  - cbn [bind Nat.add]. exists (Some (j, p)).
    pose proof Hj as Hp. apply (Forall_lookup_1 _ _ _ _ Hall) in Hp.
    destruct Hp as (r & lt & c & -> & Hc).
    cbn [truthy length bool_decide decide_rel negb].
    rewrite (bool_decide_eq_false_2 (3 = 0)) by done. cbn [negb].
    cbn [getitem to_key bind dict_lookup].
    rewrite (key_eqb_str_ne "reason" "count") by done.
    rewrite (key_eqb_str_ne "location_type" "count") by done.
    rewrite key_eqb_str_refl. cbn [add_one num bind setitem to_key dict_set].
    rewrite (key_eqb_str_ne "reason" "count") by done.
    rewrite (key_eqb_str_ne "location_type" "count") by done.
    rewrite key_eqb_str_refl. cbn [num].
    rewrite (list_index_nat (length ps) j) by (by eapply lookup_lt_Some).
    eexists. split; [done|]. split; [done|]. split.
    + apply Forall_insert; [done|]. exists r, lt, (c + 1)%Z. split; [done|lia].
    + rewrite (sum_counts_insert ps j _ _ Hj). unfold pattern_count.
      cbn [dict_lookup].
      rewrite !(key_eqb_str_ne "reason" "count") by done.
      rewrite !(key_eqb_str_ne "location_type" "count") by done.
      rewrite !key_eqb_str_refl. cbn. lia.
Qed.

Lemma learned_lookup (d : dict) (t : string) (e : val) :
  Forall (fun kv => learned_entry kv.2) d →
  dict_lookup d (KStr t) = Some e → learned_entry e.
Proof.
  intros Hall He. apply dict_lookup_elem in He as (k & Hin & _).
  rewrite Forall_forall in Hall. by apply (Hall _ Hin).
Qed.

Lemma learned_set (d : dict) (t : string) (e : val) :
  Forall (fun kv => learned_entry kv.2) d → learned_entry e →
  Forall (fun kv => learned_entry kv.2) (dict_set d (KStr t) e).
Proof. intros Hall He. apply Forall_dict_set; done. Qed.

(** [_update_learning_pattern] keeps the counts in step. *)
Lemma update_learning_pattern_learned (patterns : val) (r : FalsePositiveReport) :
  learned patterns → stored_report r →
  ∃ patterns',
    _update_learning_pattern patterns r = (Ok tt, patterns')
    ∧ learned patterns'.
Proof.
  intros (d & -> & Hd) [[t Ht] [loc Hloc]].
  unfold _update_learning_pattern, commit. rewrite Ht, Hloc.
  cbn [contains to_key bind].
  set (d1 := if bool_decide (is_Some (dict_lookup d (KStr t))) then d
             else dict_set d (KStr t)
                    (VDict [(KStr "false_positive_count", VInt 0);
                            (KStr "patterns", VList [])])).
  assert (Hstep1 :
            (if bool_decide (is_Some (dict_lookup d (KStr t))) then Ok (VDict d)
             else setitem (VDict d) (VStr t)
                    (VDict [(KStr "false_positive_count", VInt 0);
                            (KStr "patterns", VList [])]))
            = Ok (VDict d1)).
  { unfold d1. by case_bool_decide. }
  rewrite Hstep1. clear Hstep1.
  assert (Hd1 : Forall (fun kv => learned_entry kv.2) d1).
  { unfold d1. case_bool_decide; [done|]. apply learned_set; [done|].
    exists []. split; [done|constructor]. }
  assert (He : ∃ e, dict_lookup d1 (KStr t) = Some e) .
  { unfold d1. case_bool_decide as Hp; [by destruct Hp as [e ?]; exists e|].
    eexists. apply dict_lookup_set_same. }
  destruct He as [e He].
  destruct (learned_lookup d1 t e Hd1 He) as (ps & -> & Hps).
  cbn [getitem to_key bind]. rewrite He.
  cbn [getitem to_key bind dict_lookup].
  rewrite key_eqb_str_refl. cbn [add_one num bind setitem to_key dict_set].
  rewrite key_eqb_str_refl.
  set (e2 := VDict [(KStr "false_positive_count", VInt (sum_counts ps + 1));
                    (KStr "patterns", VList ps)]).
  cbn [get bind getitem to_key]. rewrite dict_lookup_set_same.
  unfold e2 at 1. cbn [getitem to_key bind dict_lookup].
  rewrite (key_eqb_str_ne "false_positive_count" "patterns") by done.
  rewrite key_eqb_str_refl. cbn [iter bind].
  destruct (count_reason ps (reason r)
              (default VNone (dict_lookup loc (KStr "type"))) Hps)
    as (existing & ps' & Hfind & Hcount & Hps' & Hsum).
  rewrite Hfind. cbn [bind]. rewrite Hcount. cbn [bind]. unfold e2.
  cbn [setitem to_key bind dict_set].
  rewrite (key_eqb_str_ne "false_positive_count" "patterns") by done.
  rewrite key_eqb_str_refl.
  rewrite dict_set_again.
  eexists. split; [done|].
  eexists. split; [done|]. apply learned_set; [done|].
  exists ps'. split; [|done]. by rewrite Hsum.
Qed.


Lemma find_report_stored (reports : list FalsePositiveReport) (loc : dict) (i : nat) :
  Forall stored_report reports →
  find_report reports (VDict loc) i = Ok None
  ∨ ∃ j r, find_report reports (VDict loc) i = Ok (Some (i + j, r))
           ∧ reports !! j = Some r.
Proof.
  revert i. induction reports as [|r reports IH]; intros i Hall; [by left|].
  apply Forall_cons in Hall as [[_ [l Hl]] Hall].
  cbn [find_report]. rewrite Hl.
  destruct (_location_matches_dicts l loc) as [m ->]. cbn [bind].
  destruct m.
  - right. exists 0, r. by rewrite Nat.add_0_r.
  - destruct (IH (S i) Hall) as [->|(j & r' & -> & Hj)]; [by left|].
    right. exists (S j), r'. split; [|done]. do 3 f_equal. lia.
Qed.

Lemma learning_inv_report (h : Handler) (c : report_call) :
  learning_inv h → learning_inv (report_all h [c]).
Proof.
  intros [Hpat Hfps]. split; [done|]. cbn.
  assert (Forall stored_report
            (default [] (dict_lookup (false_positives h)
                           (KStr (call_issue_type c +:+ ":" +:+ call_contract_hash c)))))
    as Hold.
  { destruct (dict_lookup _ _) as [rs|] eqn:E; [|by constructor]. simpl.
    apply dict_lookup_elem in E as (k' & Hin & _).
    rewrite Forall_forall in Hfps. by apply (Hfps _ Hin). }
  assert (Forall stored_report
            (default [] (dict_lookup (false_positives h)
                           (KStr (call_issue_type c +:+ ":" +:+ call_contract_hash c)))
             ++ [mkReport (VStr (call_issue_id c)) (VStr (call_issue_type c))
                   (VStr (call_contract_hash c)) (VDict (call_location c))
                   (VStr (call_reason c)) (opt_str (call_reported_by c))
                   (VStr (call_now c)) (VBool false)])) as Hnew.
  { apply Forall_app. split; [done|]. constructor; [|constructor].
    split; eexists; done. }
  apply Forall_dict_set; done.
Qed.

Lemma learning_inv_verify (h : Handler) (t ch : string) (loc : dict) :
  learning_inv h → learning_inv (verify_false_positive h t ch loc).2.
Proof.
  intros [Hpat Hfps]. unfold verify_false_positive.
  destruct (dict_lookup (false_positives h) _) as [reports|] eqn:E; [|done].
  assert (Forall stored_report reports) as Hstored.
  { apply dict_lookup_elem in E as (k' & Hin & _).
    rewrite Forall_forall in Hfps. by apply (Hfps _ Hin). }
  destruct (find_report_stored reports loc 0 Hstored) as [->|(j & r & -> & Hj)];
    [done|].
  cbn [Nat.add].
  assert (stored_report (with_verified r (VBool true))) as Hr.
  { apply (Forall_lookup_1 _ _ _ _ Hstored) in Hj. exact Hj. }
  destruct (update_learning_pattern_learned (issue_patterns h) _ Hpat Hr)
    as (patterns' & -> & Hlearned).
  split; [done|]. cbn [snd false_positives].
  apply Forall_dict_set; [done| |]; cbn; intros; by apply Forall_insert.
Qed.

Lemma learning_inv_calls (calls : list call) (h : Handler) :
  learning_inv h → learning_inv (apply_calls h calls).
Proof.
  revert h. induction calls as [|c calls IH]; intros h Hh; [done|].
  cbn [apply_calls foldl]. apply IH. destruct c as [c|t ch loc].
  - by apply learning_inv_report.
  - by apply learning_inv_verify.
Qed.

End learning.

Section learning_claim.
Import Py FalsePositiveHandler.

(** X25: the learning counts stay in step.  After any series of
    [report_false_positive] and [verify_false_positive] calls on a new
    handler, [issue_patterns] maps every issue type to an entry whose
    ["false_positive_count"] is the sum of the ["count"]s of its patterns,
    each of which is at least one. *)
Theorem learning_counts_add_up (calls : list call) (t : string) (entry : val) :
  getitem (issue_patterns (apply_calls new_handler calls)) (VStr t) = Ok entry →
  ∃ ps,
    entry = VDict [ (KStr "false_positive_count", VInt (sum_counts ps));
                    (KStr "patterns", VList ps) ]
    ∧ Forall learned_pattern ps.
Proof.
  destruct (learning_inv_calls calls new_handler) as [(d & -> & Hd) _].
  { split; [|constructor]. exists []. split; [done|constructor]. }
  cbn [getitem to_key bind].
  destruct (dict_lookup d (KStr t)) as [e|] eqn:E; [|done].
  intros [= <-]. by eapply learned_lookup.
Qed.

Lemma learning_counts_add_up_witness :
  ∃ ps,
    VDict [ (KStr "false_positive_count", VInt 2);
            (KStr "patterns",
             VList [VDict [ (KStr "reason", VStr "guarded by a mutex");
                            (KStr "location_type", VNone);
                            (KStr "count", VInt 2) ]]) ]
    = VDict [ (KStr "false_positive_count", VInt (sum_counts ps));
              (KStr "patterns", VList ps) ]
    ∧ Forall learned_pattern ps.
Proof.
  apply (learning_counts_add_up sample_calls "reentrancy").
  vm_compute. reflexivity.
Defined.

End learning_claim.
